(** * GenerateTextures.py: a shallow embedding and its verified properties

    The script mirrors a tree of source textures into two output trees.
    For every [*.png] it makes a scratch copy, optionally halves the alpha
    channel, copies the result into the flat "PS2" mirror, runs an external
    splitter on the scratch copy and moves the produced tiles into the "Wii"
    mirror, and finally renames the flat copy after [Mappings.ini].

    Modelling decisions, used throughout:
    - Python [str] values are [string]s of 8-bit characters; [str.lower],
      [str.strip], [str.endswith] and [os.path.splitext] are written out
      for them (POSIX flavour, separator [/]); only the ASCII letters
      change under [lower] and only ASCII white space is stripped.
    - A path to a file is kept split into the directory it lies in and the
      entry name, which is what [os.path.join dir name] denotes for a name
      without separator; [os.path.basename] is the second component.
      File names, tile names and mapped base names are taken to be such
      names.
    - The store has two parts: the output tree, a finite map from directory
      path to the regular files of that directory, and the live
      [tempfile.mkdtemp] directories, each with what [os.walk] finds in
      it.  Directory paths are compared as strings, and a sub-directory is
      an entry of the map of its own, not a name in its parent.  The input
      tree is only read; the walk over it is a parameter of [main].
    - Everything outside the script (the splitter executable, Pillow, the
      operating system refusing a rename) is collected in an
      [environment].  The order in which [os.walk] enumerates files is the
      order of the lists it is given as.
    - An exception that the script does not catch ends the run; the model
      returns [Raise] together with the store left behind.
    - Of what the script prints, the per-file lines and the summary are
      kept as [message]s; the banner lines at the start and the end are
      left out. *)

From Stdlib Require Import ZArith QArith Ascii String Init.Byte.
From stdpp Require Import gmap strings pretty stringmap list.

Local Open Scope string_scope.
Local Open Scope list_scope.

(** ** Python strings *)

Module Str.

Fixpoint take (n : nat) (s : string) : string :=
  match n, s with
  | S n', String c s' => String c (take n' s')
  | _, _ => ""
  end.

Fixpoint drop (n : nat) (s : string) : string :=
  match n, s with
  | S n', String _ s' => drop n' s'
  | _, _ => s
  end.

(** [s.rfind(c)] for a one-character needle: the highest index holding
    [c], or [None] where Python answers -1. *)
Fixpoint rfind (c : ascii) (s : string) : option nat :=
  match s with
  | "" => None
  | String a s' =>
      match rfind c s' with
      | Some i => Some (S i)
      | None => if Ascii.eqb a c then Some 0 else None
      end
  end.

Definition lower_char (c : ascii) : ascii :=
  let n := nat_of_ascii c in
  if (65 <=? n)%nat && (n <=? 90)%nat then ascii_of_nat (n + 32) else c.

(** [s.lower()] *)
Fixpoint lower (s : string) : string :=
  match s with
  | "" => ""
  | String c s' => String (lower_char c) (lower s')
  end.

(** [s.startswith(prefix)] *)
Fixpoint startswith (s prefix : string) : bool :=
  match prefix, s with
  | "", _ => true
  | String p prefix', String c s' => Ascii.eqb c p && startswith s' prefix'
  | String _ _, "" => false
  end.

(** [s.endswith(suffix)] *)
Fixpoint endswith (s suffix : string) : bool :=
  String.eqb s suffix ||
  match s with
  | "" => false
  | String _ s' => endswith s' suffix
  end.

(** The characters [str.strip] removes: TAB, LF, VT, FF, CR, the
    separators FS, GS, RS, US, and the space. *)
Definition isspace (c : ascii) : bool :=
  let n := nat_of_ascii c in
  ((9 <=? n)%nat && (n <=? 13)%nat) || ((28 <=? n)%nat && (n <=? 32)%nat).

Fixpoint lstrip (s : string) : string :=
  match s with
  | String c s' => if isspace c then lstrip s' else s
  | "" => ""
  end.

Fixpoint rstrip (s : string) : string :=
  match s with
  | "" => ""
  | String c s' =>
      match rstrip s' with
      | "" => if isspace c then "" else String c ""
      | r => String c r
      end
  end.

(** [s.strip()] *)
Definition strip (s : string) : string := rstrip (lstrip s).

End Str.

(** ** Files, directories and the store *)

Definition bytes := list byte.

(** A path to a file: [os.path.join dirname basename]. *)
Record path := Path { dirname : string; basename : string }.

Module os_path.

(** [any(p[k] != '.' for k in range(from, from + count))], the loop of
    [genericpath._splitext] that skips leading dots. *)
Fixpoint has_non_dot (s : string) (from count : nat) : bool :=
  match count with
  | O => false
  | S count' =>
      match String.get from s with
      | Some c => if Ascii.eqb c "."%char then has_non_dot s (S from) count' else true
      | None => true
      end
  end.

(** [os.path.splitext(p)]: the extension starts at the last dot of the
    last path component, unless only dots precede it there. *)
Definition splitext (p : string) : string * string :=
  let filenameIndex := match Str.rfind "/"%char p with Some i => S i | None => O end in
  match Str.rfind "."%char p with
  | Some dotIndex =>
      if (filenameIndex <=? dotIndex)%nat
         && has_non_dot p filenameIndex (dotIndex - filenameIndex)
      then (Str.take dotIndex p, Str.drop dotIndex p)
      else (p, "")
  | None => (p, "")
  end.

(** [os.path.join(d, name)] for an entry [name] of directory [d]. *)
Definition join (d name : string) : path := Path d name.

(** [os.path.join(a, b)] between directory paths (posixpath). *)
Definition join_dir (a b : string) : string :=
  if Str.startswith b "/" then b
  else if String.eqb a "" || Str.endswith a "/" then a +:+ b
  else a +:+ "/" +:+ b.

(** [os.path.exists(p)] in the output tree. *)
Definition exists_ (fs : gmap string (gmap string bytes)) (p : path) : bool :=
  match fs !! dirname p with
  | Some d => bool_decide (is_Some (d !! basename p))
  | None => false
  end.

End os_path.

(** What [os.walk] reports about a directory tree: for each directory
    visited its path, and its regular files in the order the operating
    system enumerates them (here with their contents). *)
Abbreviation listing := (list (string * list (string * bytes))).

Fixpoint assoc {A} (k : string) (l : list (string * A)) : option A :=
  match l with
  | [] => None
  | (k', v) :: l' => if String.eqb k' k then Some v else assoc k l'
  end.

(** [d[k] = v] on an insertion-ordered dictionary. *)
Fixpoint assoc_set {A} (k : string) (v : A) (l : list (string * A)) : list (string * A) :=
  match l with
  | [] => [(k, v)]
  | (k', v') :: l' =>
      if String.eqb k' k then (k', v) :: l' else (k', v') :: assoc_set k v l'
  end.

Fixpoint assoc_del {A} (k : string) (l : list (string * A)) : list (string * A) :=
  match l with
  | [] => []
  | (k', v') :: l' => if String.eqb k' k then l' else (k', v') :: assoc_del k l'
  end.

Definition listing_get (l : listing) (p : path) : option bytes :=
  match assoc (dirname p) l with
  | Some files => assoc (basename p) files
  | None => None
  end.

Definition listing_put (l : listing) (p : path) (b : bytes) : listing :=
  match assoc (dirname p) l with
  | Some files => assoc_set (dirname p) (assoc_set (basename p) b files) l
  | None => l
  end.

Definition listing_remove (l : listing) (p : path) : listing :=
  match assoc (dirname p) l with
  | Some files => assoc_set (dirname p) (assoc_del (basename p) files) l
  | None => l
  end.

(** ** Images (Pillow) *)

Record pixel := RGBA { red : Z; green : Z; blue : Z; alpha : Z }.
Definition image := list pixel.

(** [im.split()] of an RGBA image: the four bands. *)
Definition Image_split (im : image) : list Z * list Z * list Z * list Z :=
  (map red im, map green im, map blue im, map alpha im).

(** [band.point(f)] *)
Definition Image_point (f : Z → Z) (band : list Z) : list Z := map f band.

(** [Image.merge("RGBA", (r, g, b, a))] *)
Fixpoint Image_merge (r g b a : list Z) : image :=
  match r, g, b, a with
  | x :: r', y :: g', z :: b', w :: a' => RGBA x y z w :: Image_merge r' g' b' a'
  | _, _, _, _ => []
  end.

(** Python's [int(x)] on a number with a fractional part: truncation
    toward zero.  The product [i * 0.5] of the script is exact in binary
    floating point for every band value, so it is taken as a rational. *)
Definition int (x : Q) : Z := Z.quot (Qnum x) (Zpos (Qden x)).

(** The script's [lambda i: int(i * 0.5)]. *)
Definition half (i : Z) : Z := int (inject_Z i * (1 # 2))%Q.

(** ** The world outside the script *)

(** [subprocess.run(cmd, check=True)]: the process ran and exited with
    [returncode], leaving [produced] in its output directory (directory
    paths relative to that directory, [""] for the directory itself), or
    it could not be started at all ([OSError]). *)
Inductive tool_outcome :=
| Exited (returncode : Z) (produced : listing)
| NotStarted.

Record environment := Environment {
  (** the splitter executable, as a function of the basename and the
      bytes of the file it is given *)
  splitter : string → bytes → tool_outcome;
  (** [Image.open(path).convert("RGBA")]; [None] when it raises *)
  Image_open : bytes → option image;
  (** the bytes [im.save(path)] writes; [None] when it raises *)
  Image_save : image → option bytes;
  (** whether the operating system refuses [os.replace(src, dst)] *)
  replace_refused : path → path → bool
}.

Record config := Config {
  APPLY_MAPPING_TO_WII : bool;
  APPLY_OPACITY : bool
}.

(** The exceptions that occur in the model. *)
Inductive exn :=
| FileNotFoundError
| OSError
| MissingSectionHeaderError
| DuplicateSectionError
| DuplicateOptionError
| ParsingError
| CalledProcessError.

(** The lines the script prints:
    [[ERROR] splitter failed for {src_path}: ...],
    [[WARN] opacity failed for {path}: ...],
    [[WARN] splitter produced no PNGs for {src_path}],
    [[WARN] could not rename PS2 file {src} -> {dst}: ...],
    [Processed: {rel_dir/fname} -> PS2:{ps2_name} + Wii:{moved_names}] and
    [Processed: {processed}, Skipped non-png: {skipped}]. *)
Inductive message :=
| ErrorSplitter (src_path : path)
| WarnOpacity (p : path)
| WarnNoPngs (src_path : path)
| WarnRename (src dst : path)
| Processed (rel_dir fname ps2_name : string) (moved_names : list string)
| Summary (processed skipped : nat).

(** The store, the log and the two counters of [main]. *)
Record state := State {
  outputs : gmap string (gmap string bytes);
  temps : gmap string listing;
  stdout : list message;
  processed : nat;
  skipped : nat
}.

Definition set_outputs (o : gmap string (gmap string bytes)) (st : state) : state :=
  State o (temps st) (stdout st) (processed st) (skipped st).
Definition set_temps (t : gmap string listing) (st : state) : state :=
  State (outputs st) t (stdout st) (processed st) (skipped st).
Definition print (m : message) (st : state) : state :=
  State (outputs st) (temps st) (stdout st ++ [m])%list (processed st) (skipped st).
Definition incr_processed (st : state) : state :=
  State (outputs st) (temps st) (stdout st) (S (processed st)) (skipped st).
Definition incr_skipped (st : state) : state :=
  State (outputs st) (temps st) (stdout st) (processed st) (S (skipped st)).

(** How a loop iteration, a loop or the whole run ends: it goes on with
    store [st], or exception [e] escapes and leaves store [st] behind. *)
Inductive outcome :=
| Next (st : state)
| Raise (e : exn) (st : state).

Definition final (o : outcome) : state :=
  match o with Next st | Raise _ st => st end.

(** ** Operating-system calls on the store *)

(** [tempfile.mkdtemp(prefix=...)]: a directory that did not exist is
    created, empty, in the temporary area.  Python draws its name at
    random; here it is the first free name made of the prefix and a
    number, and nothing below depends on the choice. *)
Definition mkdtemp (prefix : string) (st : state) : string * state :=
  let d := fresh_string ("/tmp/" +:+ prefix) (temps st) in
  (d, set_temps (<[d := [(d, [])]]> (temps st)) st).

(** [shutil.rmtree(d, ignore_errors=True)] on a temporary directory. *)
Definition rmtree (d : string) (st : state) : state :=
  set_temps (delete d (temps st)) st.

(** The bytes of file [p] inside temporary directory [tmp]. *)
Definition temp_read (tmp : string) (p : path) (st : state) : option bytes :=
  match temps st !! tmp with
  | Some l => listing_get l p
  | None => None
  end.

Definition temp_write (tmp : string) (p : path) (b : bytes) (st : state) : state :=
  set_temps (alter (λ l, listing_put l p b) tmp (temps st)) st.

Definition temp_remove (tmp : string) (p : path) (st : state) : state :=
  set_temps (alter (λ l, listing_remove l p) tmp (temps st)) st.

(** Writing file [dst] of the output tree; its directory must exist. *)
Definition write_output (dst : path) (b : bytes) (st : state) : option state :=
  match outputs st !! dirname dst with
  | Some d => Some (set_outputs (<[dirname dst := <[basename dst := b]> d]> (outputs st)) st)
  | None => None
  end.

Definition read_output (p : path) (st : state) : option bytes :=
  match outputs st !! dirname p with
  | Some d => d !! basename p
  | None => None
  end.

Definition remove_output (p : path) (st : state) : state :=
  set_outputs (alter (delete (basename p)) (dirname p) (outputs st)) st.

(** [shutil.copy2(src, dst)] from the input tree into a temporary
    directory; [content] is what the input file holds. *)
Definition copy2_in (content : bytes) (tmp : string) (dst : path) (st : state) : state :=
  temp_write tmp dst content st.

(** [shutil.copy2(src, dst)] from a temporary directory into the output
    tree. *)
Definition copy2_out (tmp : string) (src dst : path) (st : state) : exn + state :=
  match temp_read tmp src st with
  | Some b =>
      match write_output dst b st with
      | Some st' => inr st'
      | None => inl FileNotFoundError
      end
  | None => inl FileNotFoundError
  end.

(** [shutil.move(src, dst)] from a temporary directory into the output
    tree. *)
Definition shutil_move (tmp : string) (src dst : path) (st : state) : exn + state :=
  match temp_read tmp src st with
  | Some b =>
      match write_output dst b st with
      | Some st' => inr (temp_remove tmp src st')
      | None => inl FileNotFoundError
      end
  | None => inl FileNotFoundError
  end.

(** [os.replace(src, dst)] inside the output tree; [None] when it raises. *)
Definition os_replace (env : environment) (src dst : path) (st : state) : option state :=
  if replace_refused env src dst then None
  else match read_output src st with
       | Some b => write_output dst b (remove_output src st)
       | None => None
       end.

(** [os.makedirs(d, exist_ok=True)] in the output tree. *)
Definition makedirs (d : string) (st : state) : state :=
  match outputs st !! d with
  | Some _ => st
  | None => set_outputs (<[d := ∅]> (outputs st)) st
  end.

(** [os.walk(folder)] on a temporary directory, without the contents. *)
Definition os_walk (folder : string) (st : state) : list (string * list string) :=
  match temps st !! folder with
  | Some l => map (λ rf, (rf.1, map fst rf.2)) l
  | None => []
  end.

(** ** The script *)

(** [find_tool_exe(folder)]; [entries] is [os.listdir(folder)], or [None]
    when [folder] is not a directory. *)
Definition find_tool_exe (folder : string) (entries : option (list string)) : exn + path :=
  match entries with
  | None => inl FileNotFoundError
  | Some names =>
      let exes := filter (λ f, Str.endswith (Str.lower f) ".exe" = true) names in
      match exes with
      | [] => inl FileNotFoundError
      | first :: _ =>
          match filter (λ e, Str.startswith (Str.lower e) "dolphintextureextraction" = true) exes with
          | e :: _ => inr (os_path.join folder e)
          | [] => inr (os_path.join folder first)
          end
      end
  end.

(** The loop of [unique_dest]; [None] only when [fuel] runs out. *)
Fixpoint unique_dest_loop (fuel : nat) (fs : gmap string (gmap string bytes))
    (dest_dir base ext : string) (i : nat) (full : path) : option path :=
  if os_path.exists_ fs full then
    match fuel with
    | O => None
    | S fuel' =>
        let candidate := base +:+ "_" +:+ pretty i +:+ ext in
        let full := os_path.join dest_dir candidate in
        unique_dest_loop fuel' fs dest_dir base ext (i + 1) full
    end
  else Some full.

Definition unique_dest_fuel (fuel : nat) (fs : gmap string (gmap string bytes))
    (dest_dir filename : string) : option path :=
  let '(base, ext) := os_path.splitext filename in
  let candidate := filename in
  let i := 1 in
  let full := os_path.join dest_dir candidate in
  unique_dest_loop fuel fs dest_dir base ext i full.

(** Number of entries of a directory of the output tree. *)
Definition entries (fs : gmap string (gmap string bytes)) (d : string) : nat :=
  match fs !! d with
  | Some files => size files
  | None => 0
  end.

(** [unique_dest(dest_dir, filename)].  The loop is run with as many
    iterations as the directory has entries, which is always enough (see
    [unique_dest_fuel_enough]), so the default is never taken. *)
Definition unique_dest (fs : gmap string (gmap string bytes))
    (dest_dir filename : string) : path :=
  default (os_path.join dest_dir filename)
          (unique_dest_fuel (entries fs dest_dir) fs dest_dir filename).

(** [apply_half_opacity(path)], on a file of temporary directory [tmp].
    Whatever [Image.open], [convert] or [save] raise is caught and
    reported; the file is then left as it was. *)
Definition apply_half_opacity (cfg : config) (env : environment)
    (tmp : string) (p : path) (st : state) : state :=
  if negb (APPLY_OPACITY cfg) then st
  else
    let attempt :=
      match temp_read tmp p st with
      | Some content =>
          match Image_open env content with
          | Some im =>
              let '(r, g, b, a) := Image_split im in
              let a := Image_point (λ i, int (inject_Z i * (1 # 2))%Q) a in
              let im := Image_merge r g b a in
              match Image_save env im with
              | Some content' => Some (temp_write tmp p content' st)
              | None => None
              end
          | None => None
          end
      | None => None
      end in
    match attempt with
    | Some st' => st'
    | None => print (WarnOpacity p) st
    end.

(** [gather_pngs(folder)]; [walk] is [os.walk(folder)]. *)
Definition gather_pngs (walk : list (string * list string)) : list path :=
  let out : list path := [] in
  foldl (λ out rf,
           foldl (λ out f,
                    if Str.endswith (Str.lower f) ".png"
                    then (out ++ [os_path.join rf.1 f])%list else out)
                 out rf.2)
        out walk.

(** [ensure_clean_output(root)]: the output tree is wiped and rebuilt
    with its two mirrors. *)
Definition ensure_clean_output (root : string) (st : state) : (string * string) * state :=
  let st := set_outputs ∅ st in
  let st := makedirs root st in
  let w := os_path.join_dir root "Wii" in
  let p := os_path.join_dir root "PS2" in
  let st := makedirs w st in
  let st := makedirs p st in
  ((w, p), st).

(** [run_splitter_single(tool_exe, src_file, out_dir)]: the exception it
    raises, if any, and the store afterwards.  The files the tool leaves
    behind appear under [out_dir], whatever its exit status. *)
Definition run_splitter_single (env : environment) (tmp : string) (src_file : path)
    (out_dir : string) (st : state) : option exn * state :=
  let content := default [] (temp_read tmp src_file st) in
  match splitter env (basename src_file) content with
  | NotStarted => (Some OSError, st)
  | Exited returncode produced =>
      let found :=
        map (λ rf, (if String.eqb rf.1 "" then out_dir else out_dir +:+ "/" +:+ rf.1, rf.2))
            produced in
      let st := set_temps (<[out_dir := found]> (temps st)) st in
      if (returncode =? 0)%Z then (None, st) else (Some CalledProcessError, st)
  end.

(** *** [configparser.ConfigParser()] with its defaults

    The mapping file is given as the lines the parser recognises, in file
    order: section headers and [key = value] options (comments and blank
    lines dropped).  The parser is built with the library's defaults, so it
    is strict, lower-cases option names and knows the [DEFAULT] section.
    Value interpolation is left out: values are taken as written. *)

Inductive ini_line :=
| SectionLine (header : string)
| OptionLine (optname optval : string).

Record ConfigParser := Parser {
  _defaults : list (string * string);
  _sections : list (string * list (string * string))
}.

Definition default_section : string := "DEFAULT".

Definition has_section (cfg : ConfigParser) (section : string) : bool :=
  bool_decide (is_Some (assoc section (_sections cfg))).

(** [cursect[optname] = optval], where [cursect] is the dictionary of
    section [sectname]. *)
Definition set_option (sectname optname optval : string) (cfg : ConfigParser) : ConfigParser :=
  if String.eqb sectname default_section
  then Parser (assoc_set optname optval (_defaults cfg)) (_sections cfg)
  else Parser (_defaults cfg)
              (assoc_set sectname
                 (assoc_set optname optval (default [] (assoc sectname (_sections cfg))))
                 (_sections cfg)).

(** [ConfigParser._read].  [elements_added] holds the sections ([None])
    and the options ([Some optname]) seen so far; [e] is the pending
    [ParsingError], raised at the end of the file. *)
Fixpoint _read (lines : list ini_line) (cursect : option string)
    (elements_added : list (string * option string)) (e : bool)
    (cfg : ConfigParser) : exn + ConfigParser :=
  match lines with
  | [] => if e then inl ParsingError else inr cfg
  | SectionLine sectname :: lines' =>
      if has_section cfg sectname then
        if bool_decide ((sectname, None) ∈ elements_added)
        then inl DuplicateSectionError
        else _read lines' (Some sectname) ((sectname, None) :: elements_added) e cfg
      else if String.eqb sectname default_section then
        _read lines' (Some sectname) elements_added e cfg
      else
        _read lines' (Some sectname) ((sectname, None) :: elements_added) e
              (Parser (_defaults cfg) (assoc_set sectname [] (_sections cfg)))
  | OptionLine optname optval :: lines' =>
      match cursect with
      | None => inl MissingSectionHeaderError
      | Some sectname =>
          let e := e || String.eqb optname "" in
          let optname := Str.lower (Str.rstrip optname) in
          if bool_decide ((sectname, Some optname) ∈ elements_added)
          then inl DuplicateOptionError
          else _read lines' cursect ((sectname, Some optname) :: elements_added) e
                     (set_option sectname optname (Str.strip optval) cfg)
      end
  end.

(** [cfg = ConfigParser(); cfg.read(path)] *)
Definition ConfigParser_read (lines : list ini_line) : exn + ConfigParser :=
  _read lines None [] false (Parser [] []).

(** ['Mappings' in cfg] *)
Definition contains (cfg : ConfigParser) (key : string) : bool :=
  String.eqb key default_section || has_section cfg key.

(** [cfg.items(section)]: the defaults, updated with the section. *)
Definition items (cfg : ConfigParser) (section : string) : list (string * string) :=
  foldl (λ d kv, assoc_set kv.1 kv.2 d) (_defaults cfg)
        (default [] (assoc section (_sections cfg))).

(** [read_mappings(path)]; [file] is [None] when [os.path.isfile(path)] is
    false. *)
Definition read_mappings (file : option (list ini_line)) : exn + gmap string string :=
  let m : gmap string string := ∅ in
  match file with
  | None => inr m
  | Some lines =>
      match ConfigParser_read lines with
      | inl e => inl e
      | inr cfg =>
          if contains cfg "Mappings" then
            inr (foldl (λ m kv,
                          let key := Str.lower (Str.strip kv.1) in
                          let val := Str.strip kv.2 in
                          let val := (os_path.splitext val).1 in
                          if negb (String.eqb key "") then <[key := val]> m else m)
                       m (items cfg "Mappings"))
          else inr m
      end
  end.

(** *** The pipeline *)

(** The loop of step 3: every produced PNG is moved into the Wii mirror. *)
Fixpoint move_pngs (cfg : config) (mappings : gmap string string) (base_key wii_sub temp_out : string)
    (new_pngs : list path) (moved_names : list string) (st : state)
    : exn * state + state * list string :=
  match new_pngs with
  | [] => inr (st, moved_names)
  | png_path :: rest =>
      let png_name := basename png_path in
      let dest_name :=
        match APPLY_MAPPING_TO_WII cfg, mappings !! base_key with
        | true, Some dest_base => dest_base +:+ (os_path.splitext png_name).2
        | _, _ => png_name
        end in
      let dest_full := unique_dest (outputs st) wii_sub dest_name in
      match shutil_move temp_out png_path dest_full st with
      | inl e => inl (e, st)
      | inr st =>
          move_pngs cfg mappings base_key wii_sub temp_out rest
                    (moved_names ++ [basename dest_full]) st
      end
  end.

(** How the [try] block of one file ends: it runs to its end, it leaves
    through [continue], or an exception escapes from it. *)
Inductive completion :=
| Normal (st : state)
| Continue (st : state)
| Raised (e : exn) (st : state).

(** Step 3 of the [try] block: the PNGs the splitter produced are moved
    into the Wii mirror. *)
Definition move_tiles (cfg : config) (mappings : gmap string string) (src_path : path)
    (wii_sub base_key temp_out : string) (st : state)
    : exn * state + state * list string :=
  let new_pngs := gather_pngs (os_walk temp_out st) in
  let moved_names := [] in
  match new_pngs with
  | [] => inr (print (WarnNoPngs src_path) st, moved_names)
  | _ => move_pngs cfg mappings base_key wii_sub temp_out new_pngs moved_names st
  end.

(** Step 4 of the [try] block: the flat copy is renamed if the mapping
    has an entry for the file; the result is the path of the flat copy
    afterwards. *)
Definition rename_ps2 (env : environment) (mappings : gmap string string)
    (ps2_sub base_key : string) (ps2_dest_path : path) (st : state) : path * state :=
  match mappings !! base_key with
  | Some mapped_base =>
      let mapped_name := mapped_base +:+ ".png" in
      let mapped_full := unique_dest (outputs st) ps2_sub mapped_name in
      match os_replace env ps2_dest_path mapped_full st with
      | Some st' => (mapped_full, st')
      | None => (ps2_dest_path, print (WarnRename ps2_dest_path mapped_full) st)
      end
  | None => (ps2_dest_path, st)
  end.

(** Steps 3 and 4 of the [try] block, reached when the splitter has
    succeeded: the tiles are moved, the splitter's directory is removed,
    the flat copy is renamed, the file is counted. *)
Definition place_outputs (cfg : config) (env : environment) (mappings : gmap string string)
    (src_path : path) (rel_dir wii_sub ps2_sub fname base_key temp_out : string)
    (ps2_dest_path : path) (st : state) : completion :=
  match move_tiles cfg mappings src_path wii_sub base_key temp_out st with
  | inl (e, st) => Raised e st
  | inr (st, moved_names) =>
      let st := rmtree temp_out st in
      let '(ps2_dest_path, st) := rename_ps2 env mappings ps2_sub base_key ps2_dest_path st in
      let st := incr_processed st in
      Normal (print (Processed rel_dir fname (basename ps2_dest_path) moved_names) st)
  end.

(** The [try] block of the loop over file names. *)
Definition process_body (cfg : config) (env : environment) (mappings : gmap string string)
    (src_path : path) (rel_dir wii_sub ps2_sub fname : string) (content : bytes)
    (base_key temp_src_dir : string) (st : state) : completion :=
  let temp_src_path := os_path.join temp_src_dir fname in
  let st := copy2_in content temp_src_dir temp_src_path st in
  let st := apply_half_opacity cfg env temp_src_dir temp_src_path st in
  let ps2_dest_path := unique_dest (outputs st) ps2_sub fname in
  match copy2_out temp_src_dir temp_src_path ps2_dest_path st with
  | inl e => Raised e st
  | inr st =>
      let '(temp_out, st) := mkdtemp "dte_out_" st in
      match run_splitter_single env temp_src_dir temp_src_path temp_out st with
      | (Some CalledProcessError, st) =>
          let st := print (ErrorSplitter src_path) st in
          let st := rmtree temp_out st in
          Continue st
      | (Some e, st) => Raised e st
      | (None, st) =>
          place_outputs cfg env mappings src_path rel_dir wii_sub ps2_sub fname base_key
                        temp_out ps2_dest_path st
      end
  end.

(** One iteration of [for fname in filenames]; [content] is what the
    input file holds. *)
Definition process_file (cfg : config) (env : environment) (mappings : gmap string string)
    (dirpath rel_dir wii_sub ps2_sub : string) (fname : string) (content : bytes)
    (st : state) : outcome :=
  if negb (Str.endswith (Str.lower fname) ".png") then Next (incr_skipped st)
  else
    let src_path := os_path.join dirpath fname in
    let base_key := Str.lower (os_path.splitext fname).1 in
    let '(temp_src_dir, st) := mkdtemp "dte_src_" st in
    match process_body cfg env mappings src_path rel_dir wii_sub ps2_sub fname content
                       base_key temp_src_dir st with
    | Normal st | Continue st => Next (rmtree temp_src_dir st)
    | Raised e st => Raise e (rmtree temp_src_dir st)
    end.

(** [for fname in filenames: ...] *)
Fixpoint process_files (cfg : config) (env : environment) (mappings : gmap string string)
    (dirpath rel_dir wii_sub ps2_sub : string) (filenames : list (string * bytes))
    (st : state) : outcome :=
  match filenames with
  | [] => Next st
  | (fname, content) :: rest =>
      match process_file cfg env mappings dirpath rel_dir wii_sub ps2_sub fname content st with
      | Next st => process_files cfg env mappings dirpath rel_dir wii_sub ps2_sub rest st
      | Raise e st => Raise e st
      end
  end.

(** [for dirpath, _, filenames in os.walk(INPUT_ROOT): ...].  An element
    of [walk] is [os.path.relpath(dirpath, INPUT_ROOT)] with the files of
    that directory. *)
Fixpoint process_walk (cfg : config) (env : environment) (mappings : gmap string string)
    (INPUT_ROOT wii_root ps2_root : string) (walk : list (string * list (string * bytes)))
    (st : state) : outcome :=
  match walk with
  | [] => Next st
  | (rel, filenames) :: rest =>
      let dirpath := if String.eqb rel "." then INPUT_ROOT else os_path.join_dir INPUT_ROOT rel in
      let rel_dir := if String.eqb rel "." then "" else rel in
      let wii_sub := os_path.join_dir wii_root rel_dir in
      let ps2_sub := os_path.join_dir ps2_root rel_dir in
      let st := makedirs wii_sub st in
      let st := makedirs ps2_sub st in
      match process_files cfg env mappings dirpath rel_dir wii_sub ps2_sub filenames st with
      | Next st => process_walk cfg env mappings INPUT_ROOT wii_root ps2_root rest st
      | Raise e st => Raise e st
      end
  end.

(** [main()].  [tool_folder] is the listing of the tool directory,
    [mappings_file] the content of [Mappings.ini], [walk] the walk over the
    input tree. *)
Definition main (cfg : config) (env : environment) (BASE_DIR : string)
    (tool_folder : option (list string)) (mappings_file : option (list ini_line))
    (walk : list (string * list (string * bytes))) (st : state) : outcome :=
  let INPUT_ROOT := os_path.join_dir BASE_DIR "RemadeTextures" in
  let OUTPUT_ROOT := os_path.join_dir BASE_DIR "GeneratedTextures" in
  let TOOL_FOLDER := os_path.join_dir BASE_DIR "DolphinTextureExtractionTool" in
  match find_tool_exe TOOL_FOLDER tool_folder with
  | inl e => Raise e st
  | inr tool_exe =>
      match read_mappings mappings_file with
      | inl e => Raise e st
      | inr mappings =>
          let '((wii_root, ps2_root), st) := ensure_clean_output OUTPUT_ROOT st in
          let st := State (outputs st) (temps st) (stdout st) 0 0 in
          match process_walk cfg env mappings INPUT_ROOT wii_root ps2_root walk st with
          | Next st => Next (print (Summary (processed st) (skipped st)) st)
          | Raise e st => Raise e st
          end
      end
  end.

(** ** The naming scheme of [unique_dest], as the specification words it *)

(** The sequence [desiredName], [stem_1.ext], [stem_2.ext], ... *)
Definition candidate (desiredName : string) (k : nat) : string :=
  match k with
  | O => desiredName
  | S _ =>
      let '(stem, ext) := os_path.splitext desiredName in
      stem +:+ "_" +:+ pretty k +:+ ext
  end.

(** ** The pipeline seen from one directory

    The definitions below describe, without the store, what one file does
    to the directories it touches; the lemmas of the second part relate
    them to [process_file]. *)

(** [name.lower().endswith('.png')] *)
Definition is_png (name : string) : bool := Str.endswith (Str.lower name) ".png".

(** The image whose alpha band went through [lambda i: int(i * 0.5)]. *)
Definition halved (im : image) : image :=
  let '(r, g, b, a) := Image_split im in
  Image_merge r g b (Image_point half a).

(** What [apply_half_opacity] leaves in a file that held [content]. *)
Definition filtered (cfg : config) (env : environment) (content : bytes) : bytes :=
  if APPLY_OPACITY cfg then
    match Image_open env content with
    | Some im => default content (Image_save env (halved im))
    | None => content
    end
  else content.

(** What [apply_half_opacity] prints for file [p] holding [content]. *)
Definition filter_warning (cfg : config) (env : environment) (p : path) (content : bytes)
    : list message :=
  if APPLY_OPACITY cfg then
    match Image_open env content with
    | Some im =>
        match Image_save env (halved im) with
        | Some _ => []
        | None => [WarnOpacity p]
        end
    | None => [WarnOpacity p]
    end
  else [].

(** The name [unique_dest] picks in a directory holding [files]. *)
Definition free_name (files : gmap string bytes) (filename : string) : string :=
  basename (unique_dest {[ "" := files ]} "" filename).

(** The name under which step 3 asks to place a tile called [png_name]. *)
Definition tile_name (cfg : config) (mappings : gmap string string) (base_key png_name : string)
    : string :=
  match APPLY_MAPPING_TO_WII cfg, mappings !! base_key with
  | true, Some dest_base => dest_base +:+ (os_path.splitext png_name).2
  | _, _ => png_name
  end.

(** Placing files one after the other in a directory, each under the free
    name [unique_dest] finds for it at that moment. *)
Fixpoint place (files : gmap string bytes) (incoming : list (string * bytes))
    : gmap string bytes * list string :=
  match incoming with
  | [] => (files, [])
  | (name, b) :: rest =>
      let n := free_name files name in
      let '(files', names) := place (<[n := b]> files) rest in
      (files', n :: names)
  end.

(** The files of a walk, in the order the walk enumerates them. *)
Definition walk_files (walk : list (string * list string)) : list path :=
  flat_map (λ rf, os_path.join rf.1 <$> rf.2) walk.

(** The PNGs of a directory tree with their contents, in walk order. *)
Definition png_tiles (found : listing) : list (path * bytes) :=
  flat_map (λ rf, (λ fb, (os_path.join rf.1 fb.1, fb.2))
                    <$> filter (λ fb, is_png fb.1 = true) rf.2) found.

(** A listing as a directory tree gives it: no directory is visited
    twice and no directory holds a name twice. *)
Definition well_formed (l : listing) : Prop :=
  NoDup (fst <$> l) ∧ Forall (λ rf, NoDup (fst <$> rf.2)) l.

(** Where [run_splitter_single] finds the directory [rel] of the tool's
    output. *)
Definition under (out_dir rel : string) : string :=
  if String.eqb rel "" then out_dir else out_dir +:+ "/" +:+ rel.

(** What step 3 asks to place for the gathered tiles of file [base_key]. *)
Definition incoming (cfg : config) (mappings : gmap string string) (base_key : string)
    (tiles : list (path * bytes)) : list (string * bytes) :=
  (λ pb, (tile_name cfg mappings base_key (basename pb.1), pb.2)) <$> tiles.

(** The store in which [move_pngs] ends, whichever way it ends. *)
Definition moved_state (r : exn * state + state * list string) : state :=
  match r with
  | inl (_, st) => st
  | inr (st, _) => st
  end.

(** The store in which the [try] block ends. *)
Definition completed (c : completion) : state :=
  match c with Normal st | Continue st | Raised _ st => st end.

(** The store once the scratch copy of [fname] is made and filtered and
    the flat copy is written into directory [ps2_sub], which held
    [flat]. *)
Definition flat_copied (cfg : config) (env : environment) (ps2_sub fname : string)
    (content : bytes) (flat : gmap string bytes) (st : state) : state :=
  let d := (mkdtemp "dte_src_" st).1 in
  let c := filtered cfg env content in
  State (<[ps2_sub := <[free_name flat fname := c]> flat]> (outputs st))
        (<[d := [(d, [(fname, c)])]]> (temps st))
        (stdout st ++ filter_warning cfg env (os_path.join d fname) content)
        (processed st) (skipped st).

(** The listing of the splitter's directory [out_dir] after the tool
    left [produced] there. *)
Definition found_in (out_dir : string) (produced : listing) : listing :=
  map (λ rf, (under out_dir rf.1, rf.2)) produced.

(** How an iteration of the file loop ends, given how its [try] block
    ended and the scratch source directory to release. *)
Definition finally (temp_src_dir : string) (c : completion) : outcome :=
  match c with
  | Normal st | Continue st => Next (rmtree temp_src_dir st)
  | Raised e st => Raise e (rmtree temp_src_dir st)
  end.

(** Step 4 seen from the flat directory: the flat copy is called [n1],
    holds [c], and lies in directory [ps2_sub] holding [flat].  The result
    is its name afterwards, the directory afterwards and what is printed. *)
Definition renamed (env : environment) (mappings : gmap string string)
    (ps2_sub base_key n1 : string) (c : bytes) (flat : gmap string bytes)
    : string * gmap string bytes * list message :=
  match mappings !! base_key with
  | Some mapped_base =>
      let n2 := free_name flat (mapped_base +:+ ".png") in
      if replace_refused env (os_path.join ps2_sub n1) (os_path.join ps2_sub n2)
      then (n1, flat, [WarnRename (os_path.join ps2_sub n1) (os_path.join ps2_sub n2)])
      else (n2, <[n2 := c]> (delete n1 flat), [])
  | None => (n1, flat, [])
  end.

(** ** A small scenario, used by the examples *)

Module demo.

(** A toy codec: one byte per pixel, its alpha value; the colour is a
    fixed grey. *)
Definition decode (b : bytes) : option image :=
  Some (map (λ x, RGBA 128 128 128 (Z.of_N (Byte.to_N x))) b).

Definition encode (im : image) : option bytes :=
  mapM (λ p, Byte.of_N (Z.to_N (alpha p))) im.

(** A toy splitter: it cannot be started on [nostart.png], fails on
    [broken.png] after leaving a partial tile, and otherwise cuts its
    input into two tiles and writes a text file next to them. *)
Definition split (fname : string) (b : bytes) : tool_outcome :=
  if String.eqb fname "nostart.png" then NotStarted
  else if String.eqb fname "broken.png" then Exited 1 [("", [("broken_0.png", b)])]
  else
    let stem := (os_path.splitext fname).1 in
    Exited 0 [("", [(stem +:+ "_0.png", take 1 b);
                    (stem +:+ "_1.PNG", drop 1 b);
                    ("notes.txt", [])])].

Definition env : environment := Environment split decode encode (λ _ _, false).

Definition opaque_on : config := Config false true.
Definition opaque_off : config := Config false false.

(** An output tree with the two mirrors of one directory, empty. *)
Definition fresh : state :=
  State {[ "out/PS2/tex" := ∅; "out/Wii/tex" := ∅ ]} ∅ [] 0 0.

Definition rock : bytes := [x40; xff; x07].

End demo.

(** ** Counting, for the run summary *)

(** Whether the splitter, run on the filtered scratch copy of input file
    [f], exits with status zero. *)
Definition split_ok (cfg : config) (env : environment) (f : string * bytes) : bool :=
  match splitter env f.1 (filtered cfg env f.2) with
  | Exited returncode _ => (returncode =? 0)%Z
  | NotStarted => false
  end.

Definition count {X} (p : X → bool) (l : list X) : nat :=
  length (filter (λ x, p x = true) l).

Definition is_splitter_error (m : message) : bool :=
  match m with ErrorSplitter _ => true | _ => false end.

(** The three kinds of input file. *)
Definition counted_processed (cfg : config) (env : environment) (f : string * bytes) : bool :=
  is_png f.1 && split_ok cfg env f.
Definition counted_skipped (f : string * bytes) : bool := negb (is_png f.1).
Definition split_failed (cfg : config) (env : environment) (f : string * bytes) : bool :=
  is_png f.1 && negb (split_ok cfg env f).

(** ** The entries of the mapping, as the specification words them *)

(** The lower-cased, trimmed source key. *)
Definition normal_key (k : string) : string := Str.lower (Str.strip k).

(** The trimmed destination name without its extension. *)
Definition normal_value (v : string) : string := (os_path.splitext (Str.strip v)).1.

Definition is_option_line (l : ini_line) : bool :=
  match l with OptionLine _ _ => true | SectionLine _ => false end.

(** ** Whole runs *)


(** The mirror under [root] of directory [rel] of the input tree, as the
    loop of [main] computes it. *)
Definition mirror (root rel : string) : string :=
  os_path.join_dir root (if String.eqb rel "." then "" else rel).

(** Every file of the output tree of [st] is in [st'], with the same
    bytes. *)
Definition keeps_files (st st' : state) : Prop :=
  ∀ q b, read_output q st = Some b → read_output q st' = Some b.


(** [f.lower().endswith('.exe')] *)
Definition is_exe (f : string) : bool := Str.endswith (Str.lower f) ".exe".

(** [e.lower().startswith("dolphintextureextraction")] *)
Definition is_named_tool (e : string) : bool :=
  Str.startswith (Str.lower e) "dolphintextureextraction".



(** ** Names and paths as the operating system reads them

    A [path] keeps a directory and an entry name apart.  It stands for
    the string that [os.path.join] makes of the two, and it denotes the
    entry of that name in that directory only when the name is plain. *)



(** The string [os.path.join(dirname, basename)] that a path stands for. *)
Definition full_path (p : path) : string := os_path.join_dir (dirname p) (basename p).

(** [s.rstrip('/')] *)
Fixpoint rstrip_sep (s : string) : string :=
  match s with
  | "" => ""
  | String c s' =>
      match rstrip_sep s' with
      | "" => if Ascii.eqb c "/" then "" else String c ""
      | r => String c r
      end
  end.

(** [s == '/' * len(s)] *)
Fixpoint all_sep (s : string) : bool :=
  match s with
  | "" => true
  | String c s' => Ascii.eqb c "/" && all_sep s'
  end.

(** [os.path.dirname(p)] (posixpath). *)
Definition posix_dirname (p : string) : string :=
  let i := match Str.rfind "/" p with Some i => S i | None => O end in
  let head := Str.take i p in
  if negb (String.eqb head "") && negb (all_sep head) then rstrip_sep head else head.






(** * Properties *)

Local Open Scope nat_scope.

(** Closed decidable statements, such as the well-formedness of a
    concrete listing, are settled by running their decision procedure. *)
Ltac by_computation := apply (bool_decide_unpack _); vm_compute; exact I.

(** ** Strings *)

Example splitext_examples :
  os_path.splitext "rock.png" = ("rock", ".png")
  ∧ os_path.splitext "a.b.PNG" = ("a.b", ".PNG")
  ∧ os_path.splitext ".png" = (".png", "")
  ∧ os_path.splitext "tex.d/rock" = ("tex.d/rock", "").
Proof. split_and!; reflexivity. Qed.

Example str_examples :
  Str.strip "  Rock One.png  " = "Rock One.png"
  ∧ Str.lower "Rock_01.PNG" = "rock_01.png"
  ∧ is_png "Rock.PnG" = true
  ∧ is_png "rock.png.bak" = false.
Proof. split_and!; reflexivity. Qed.

Example candidate_examples :
  candidate "rock.png" 0 = "rock.png"
  ∧ candidate "rock.png" 1 = "rock_1.png"
  ∧ candidate "rock.png" 12 = "rock_12.png"
  ∧ candidate "README" 2 = "README_2".
Proof. split_and!; reflexivity. Qed.

Section string_facts.

Lemma str_app_nil_l (s : string) : "" +:+ s = s.
Proof. reflexivity. Qed.

Lemma str_app_cons (c : ascii) (s1 s2 : string) :
  String c s1 +:+ s2 = String c (s1 +:+ s2).
Proof. reflexivity. Qed.

Lemma str_app_nil_r (s : string) : s +:+ "" = s.
Proof. induction s as [|c s IH]; [done|]. by rewrite str_app_cons, IH. Qed.

Lemma str_app_assoc (s1 s2 s3 : string) : (s1 +:+ s2) +:+ s3 = s1 +:+ s2 +:+ s3.
Proof. induction s1 as [|c s1 IH]; [done|]. by rewrite !str_app_cons, IH. Qed.

Lemma str_length_app (s1 s2 : string) :
  String.length (s1 +:+ s2) = String.length s1 + String.length s2.
Proof.
  induction s1 as [|c s1 IH]; [done|].
  rewrite str_app_cons. simpl. by rewrite IH.
Qed.

Lemma str_app_inv_tail (s1 s2 e : string) : s1 +:+ e = s2 +:+ e → s1 = s2.
Proof.
  revert s2. induction s1 as [|c s1 IH]; intros [|c' s2] Heq.
  - done.
  - apply (f_equal String.length) in Heq.
    rewrite !str_length_app in Heq. simpl in Heq. lia.
  - apply (f_equal String.length) in Heq.
    rewrite !str_length_app in Heq. simpl in Heq. lia.
  - rewrite !str_app_cons in Heq. injection Heq as -> Heq. f_equal. by apply IH.
Qed.

Lemma take_drop (n : nat) (s : string) : Str.take n s +:+ Str.drop n s = s.
Proof.
  revert s. induction n as [|n IH]; intros [|c s]; simpl; try done.
  by rewrite str_app_cons, IH.
Qed.

(** [os.path.splitext] only cuts its argument in two. *)
Lemma splitext_app (p : string) :
  (os_path.splitext p).1 +:+ (os_path.splitext p).2 = p.
Proof.
  unfold os_path.splitext.
  destruct (Str.rfind "." p) as [dotIndex|]; simpl.
  - destruct (_ && _); simpl; [apply take_drop | apply str_app_nil_r].
  - apply str_app_nil_r.
Qed.

End string_facts.

(** ** [unique_dest] *)

Section unique_dest_facts.

Implicit Types (fs : gmap string (gmap string bytes)) (d f : string).

Lemma candidate_succ f k :
  candidate f (S k)
  = (os_path.splitext f).1 +:+ "_" +:+ pretty (S k) +:+ (os_path.splitext f).2.
Proof. unfold candidate. by destruct (os_path.splitext f). Qed.

Lemma candidate_length f k :
  String.length (candidate f (S k))
  = String.length f + 1 + String.length (pretty (S k)).
Proof.
  rewrite candidate_succ, !str_length_app. simpl.
  rewrite <-(splitext_app f) at 3. rewrite str_length_app. lia.
Qed.

Lemma candidate_inj f i j : candidate f i = candidate f j → i = j.
Proof.
  destruct i as [|i], j as [|j]; intros Heq; [done|..].
  - apply (f_equal String.length) in Heq.
    rewrite candidate_length in Heq. simpl in Heq. lia.
  - apply (f_equal String.length) in Heq.
    rewrite candidate_length in Heq. simpl in Heq. lia.
  - rewrite !candidate_succ in Heq.
    apply (inj (String.append _)), (inj (String.append _)) in Heq.
    apply str_app_inv_tail in Heq. by apply (inj pretty) in Heq.
Qed.

Lemma exists_join fs d name :
  os_path.exists_ fs (os_path.join d name)
  = bool_decide (name ∈@{gset string} dom (default ∅ (fs !! d))).
Proof.
  unfold os_path.exists_, os_path.join. simpl.
  destruct (fs !! d) as [files|]; simpl.
  - apply bool_decide_ext. by rewrite elem_of_dom.
  - symmetry. apply bool_decide_eq_false. set_solver.
Qed.

(** The directory cannot hold more candidates than it has entries. *)
Lemma candidate_free_within fs d f :
  ∃ n : nat, n ≤ entries fs d
       ∧ os_path.exists_ fs (os_path.join d (candidate f n)) = false.
Proof.
  destruct (decide (Forall (λ j, os_path.exists_ fs (os_path.join d (candidate f j)) = true)
                           (seq 0 (S (entries fs d))))) as [Hall|Hsome].
  - exfalso.
    assert (list_to_set (candidate f <$> seq 0 (S (entries fs d)))
              ⊆@{gset string} dom (default ∅ (fs !! d))) as Hsub.
    { intros name [j [-> Hj]]%elem_of_list_to_set%list_elem_of_fmap.
      rewrite Forall_forall in Hall. specialize (Hall j Hj).
      rewrite exists_join in Hall. by apply bool_decide_eq_true in Hall. }
    apply subseteq_size in Hsub.
    rewrite size_list_to_set, length_fmap, length_seq, size_dom in Hsub.
    + unfold entries in Hsub. destruct (fs !! d); simpl in Hsub;
        [lia | rewrite map_size_empty in Hsub; lia].
    + apply NoDup_fmap_2_strong; [|apply NoDup_seq].
      intros i j _ _. apply candidate_inj.
  - apply not_Forall_Exists, Exists_exists in Hsome; [|intros j; apply _].
    destruct Hsome as [n [Hn Hfree]].
    apply elem_of_seq in Hn. apply not_true_is_false in Hfree.
    exists n. split; [lia | done].
Qed.

Lemma least_false (p : nat → bool) (n : nat) :
  p n = false → ∃ m, m ≤ n ∧ p m = false ∧ ∀ j, j < m → p j = true.
Proof.
  induction (lt_wf n) as [n _ IH]. intros Hn.
  destruct (decide (Forall (λ j, p j = true) (seq 0 n))) as [Hall|Hsome].
  - exists n. split_and!; [lia | done |].
    intros j Hj. rewrite Forall_forall in Hall. apply Hall, elem_of_seq. lia.
  - apply not_Forall_Exists, Exists_exists in Hsome; [|intros j; apply _].
    destruct Hsome as [k [Hk Hfalse]].
    apply elem_of_seq in Hk. apply not_true_is_false in Hfalse.
    destruct (IH k) as (m & Hm & Hpm & Hlt); [lia | done |].
    exists m. split_and!; [lia | done | done].
Qed.

(** The least free index of the candidate sequence. *)
Lemma first_free_candidate fs d f :
  ∃ n : nat, n ≤ entries fs d
       ∧ os_path.exists_ fs (os_path.join d (candidate f n)) = false
       ∧ ∀ j, j < n → os_path.exists_ fs (os_path.join d (candidate f j)) = true.
Proof.
  destruct (candidate_free_within fs d f) as (n & Hn & Hfree).
  destruct (least_false (λ j, os_path.exists_ fs (os_path.join d (candidate f j))) n Hfree)
    as (m & Hm & Hpm & Hlt).
  exists m. split_and!; [lia | done | done].
Qed.

(** The loop, started at candidate [k], stops at the first free candidate
    [n] if it may run [n - k] more times. *)
Lemma unique_dest_loop_stops fs d f n fuel k :
  k ≤ n → n - k ≤ fuel →
  os_path.exists_ fs (os_path.join d (candidate f n)) = false →
  (∀ j, k ≤ j < n → os_path.exists_ fs (os_path.join d (candidate f j)) = true) →
  unique_dest_loop fuel fs d (os_path.splitext f).1 (os_path.splitext f).2
                   (S k) (os_path.join d (candidate f k))
  = Some (os_path.join d (candidate f n)).
Proof.
  revert k. induction fuel as [|fuel IH]; intros k Hk Hfuel Hfree Hbelow.
  - assert (k = n) as -> by lia. simpl. by rewrite Hfree.
  - destruct (decide (k = n)) as [->|Hne].
    + simpl. by rewrite Hfree.
    + simpl. rewrite Hbelow by lia.
      rewrite Nat.add_1_r, <-candidate_succ.
      apply IH; [lia | lia | done |]. intros j Hj. apply Hbelow. lia.
Qed.

(** With less fuel than that the loop gives up. *)
Lemma unique_dest_loop_gives_up fs d f n fuel k :
  k ≤ n → fuel < n - k →
  (∀ j, k ≤ j < n → os_path.exists_ fs (os_path.join d (candidate f j)) = true) →
  unique_dest_loop fuel fs d (os_path.splitext f).1 (os_path.splitext f).2
                   (S k) (os_path.join d (candidate f k))
  = None.
Proof.
  revert k. induction fuel as [|fuel IH]; intros k Hk Hfuel Hbelow.
  - simpl. by rewrite Hbelow by lia.
  - simpl. rewrite Hbelow by lia.
    rewrite Nat.add_1_r, <-candidate_succ.
    apply IH; [lia | lia |]. intros j Hj. apply Hbelow. lia.
Qed.

Lemma unique_dest_fuel_unfold fuel fs d f :
  unique_dest_fuel fuel fs d f
  = unique_dest_loop fuel fs d (os_path.splitext f).1 (os_path.splitext f).2
                     1 (os_path.join d (candidate f 0)).
Proof. unfold unique_dest_fuel. by destruct (os_path.splitext f). Qed.

(** As many iterations as the directory has entries are enough. *)
Lemma unique_dest_fuel_enough fs d f :
  ∃ n : nat, n ≤ entries fs d
       ∧ unique_dest_fuel (entries fs d) fs d f = Some (os_path.join d (candidate f n))
       ∧ os_path.exists_ fs (os_path.join d (candidate f n)) = false
       ∧ ∀ j, j < n → os_path.exists_ fs (os_path.join d (candidate f j)) = true.
Proof.
  destruct (first_free_candidate fs d f) as (n & Hn & Hfree & Hbelow).
  exists n. split_and!; [done | | done | done].
  rewrite unique_dest_fuel_unfold.
  apply unique_dest_loop_stops; [lia | lia | done |].
  intros j Hj. apply Hbelow. lia.
Qed.

(** What the rest of the development uses about [unique_dest]. *)
Lemma unique_dest_spec fs d f :
  ∃ n : nat, unique_dest fs d f = os_path.join d (candidate f n)
       ∧ os_path.exists_ fs (os_path.join d (candidate f n)) = false
       ∧ ∀ j, j < n → os_path.exists_ fs (os_path.join d (candidate f j)) = true.
Proof.
  destruct (unique_dest_fuel_enough fs d f) as (n & _ & Hrun & Hfree & Hbelow).
  exists n. unfold unique_dest. by rewrite Hrun.
Qed.

Lemma unique_dest_dirname fs d f : dirname (unique_dest fs d f) = d.
Proof. by destruct (unique_dest_spec fs d f) as (n & -> & _). Qed.

End unique_dest_facts.

(** ** The store *)

Section store_facts.

Implicit Types (st : state) (p q : path) (b : bytes).

Lemma exists_read st p :
  os_path.exists_ (outputs st) p = bool_decide (is_Some (read_output p st)).
Proof.
  unfold os_path.exists_, read_output.
  destruct (outputs st !! dirname p); [done|].
  symmetry. apply bool_decide_eq_false. by intros [? ?].
Qed.


(** Writing to a path that does not exist leaves every existing file
    as it is. *)
Lemma write_output_fresh st st' p q b :
  os_path.exists_ (outputs st) p = false →
  write_output p b st = Some st' →
  os_path.exists_ (outputs st) q = true →
  read_output q st' = read_output q st.
Proof.
  unfold write_output, os_path.exists_, read_output.
  destruct (outputs st !! dirname p) as [files|] eqn:Hdir; [|done].
  intros Hfree [= <-] Hq. simpl.
  destruct (decide (dirname q = dirname p)) as [Heq|Hne].
  - rewrite Heq, lookup_insert_eq, Hdir. rewrite Heq, Hdir in Hq.
    apply bool_decide_eq_false in Hfree. apply bool_decide_eq_true in Hq.
    rewrite lookup_insert_ne; [done|]. intros Hname. by rewrite Hname in Hfree.
  - by rewrite lookup_insert_ne.
Qed.

End store_facts.

(** ** Claims about [unique_dest] *)

(** C10.  The candidate names are pairwise distinct, so a directory with
    finitely many entries leaves one of the first [entries + 1] free, and
    the loop of [unique_dest] returns at the least free index [n]: it
    answers with candidate [n] whenever it may iterate [n] times, and needs
    all of these iterations. *)
Theorem unique_dest_terminates (fs : gmap string (gmap string bytes))
    (dest_dir desiredName : string) :
  (∀ i j, i ≠ j → candidate desiredName i ≠ candidate desiredName j)
  ∧ ∃ n : nat,
      n ≤ entries fs dest_dir
      ∧ os_path.exists_ fs (os_path.join dest_dir (candidate desiredName n)) = false
      ∧ (∀ j, j < n →
           os_path.exists_ fs (os_path.join dest_dir (candidate desiredName j)) = true)
      ∧ (∀ fuel, n ≤ fuel →
           unique_dest_fuel fuel fs dest_dir desiredName
           = Some (os_path.join dest_dir (candidate desiredName n)))
      ∧ (∀ fuel, fuel < n → unique_dest_fuel fuel fs dest_dir desiredName = None)
      ∧ unique_dest fs dest_dir desiredName
        = os_path.join dest_dir (candidate desiredName n).
Proof.
  split.
  - intros i j Hne Heq. by apply Hne, (candidate_inj desiredName).
  - destruct (first_free_candidate fs dest_dir desiredName) as (n & Hn & Hfree & Hbelow).
    exists n. split_and!; [done | done | done | | |].
    + intros fuel Hfuel. rewrite unique_dest_fuel_unfold.
      apply unique_dest_loop_stops; [lia | lia | done |].
      intros j Hj. apply Hbelow. lia.
    + intros fuel Hfuel. rewrite unique_dest_fuel_unfold.
      apply unique_dest_loop_gives_up with (n := n); [lia | lia |].
      intros j Hj. apply Hbelow. lia.
    + unfold unique_dest. rewrite unique_dest_fuel_unfold.
      rewrite (unique_dest_loop_stops fs dest_dir desiredName n); [done | lia | lia | done |].
      intros j Hj. apply Hbelow. lia.
Qed.

(** ** Scratch directories *)

Section scratch_facts.

Implicit Types (st : state) (content : bytes).

Lemma mkdtemp_fresh prefix st : temps st !! (mkdtemp prefix st).1 = None.
Proof. apply fresh_string_fresh. Qed.

Lemma mkdtemp_state prefix st :
  (mkdtemp prefix st).2
  = set_temps (<[(mkdtemp prefix st).1 := [((mkdtemp prefix st).1, [])]]> (temps st)) st.
Proof. reflexivity. Qed.

Lemma listing_get_single d name content :
  listing_get [(d, [(name, content)])] (os_path.join d name) = Some content.
Proof. unfold listing_get. simpl. rewrite String.eqb_refl. simpl. by rewrite String.eqb_refl. Qed.

Lemma listing_put_empty d name content :
  listing_put [(d, [])] (os_path.join d name) content = [(d, [(name, content)])].
Proof. unfold listing_put. simpl. rewrite String.eqb_refl. simpl. by rewrite ?String.eqb_refl. Qed.

Lemma listing_put_single d name content content' :
  listing_put [(d, [(name, content)])] (os_path.join d name) content'
  = [(d, [(name, content')])].
Proof. unfold listing_put. simpl. rewrite String.eqb_refl. simpl. by rewrite ?String.eqb_refl. Qed.

(** Steps 1 and 2: the scratch copy is made and filtered. *)
Lemma scratch_copy_filtered cfg env st d name content :
  temps st !! d = None →
  apply_half_opacity cfg env d (os_path.join d name)
    (copy2_in content d (os_path.join d name)
       (set_temps (<[d := [(d, [])]]> (temps st)) st))
  = State (outputs st)
          (<[d := [(d, [(name, filtered cfg env content)])]]> (temps st))
          (stdout st ++ filter_warning cfg env (os_path.join d name) content)
          (processed st) (skipped st).
Proof.
  intros Hfresh. destruct st as [o t l np ns]. simpl in *.
  unfold apply_half_opacity, copy2_in, temp_write, temp_read, filtered, filter_warning,
    set_temps, print. simpl.
  rewrite alter_insert_eq, listing_put_empty.
  destruct (APPLY_OPACITY cfg); simpl.
  - rewrite lookup_insert_eq, listing_get_single.
    destruct (Image_open env content) as [im|]; simpl.
    + unfold halved, half. simpl.
      destruct (Image_save env _) as [content'|]; simpl.
      * by rewrite alter_insert_eq, listing_put_single, app_nil_r.
      * done.
    + done.
  - by rewrite app_nil_r.
Qed.

End scratch_facts.

(** ** Names picked in one directory *)

Section free_name_facts.

Implicit Types (fs : gmap string (gmap string bytes)) (files : gmap string bytes).

Lemma exists_join_Some fs d name files :
  fs !! d = Some files →
  os_path.exists_ fs (os_path.join d name) = bool_decide (is_Some (files !! name)).
Proof. intros Hdir. unfold os_path.exists_. simpl. by rewrite Hdir. Qed.

(** [unique_dest] looks at the destination directory only. *)
Lemma unique_dest_local fs d f files :
  fs !! d = Some files →
  unique_dest fs d f = os_path.join d (free_name files f).
Proof.
  intros Hdir. unfold free_name.
  destruct (unique_dest_spec fs d f) as (n & -> & Hfree & Hbelow).
  destruct (unique_dest_spec {[ "" := files ]} "" f) as (n' & -> & Hfree' & Hbelow').
  simpl. f_equal. f_equal.
  assert (∀ name, os_path.exists_ {[ "" := files ]} (os_path.join "" name)
                  = os_path.exists_ fs (os_path.join d name)) as Hsame.
  { intros name. rewrite (exists_join_Some fs d name files Hdir).
    apply exists_join_Some. apply lookup_singleton_eq. }
  rewrite Hsame in Hfree'. setoid_rewrite Hsame in Hbelow'.
  destruct (Nat.lt_trichotomy n n') as [Hlt|[Heq|Hgt]]; [|done|].
  - specialize (Hbelow' n Hlt). congruence.
  - specialize (Hbelow n' Hgt). congruence.
Qed.

(** The picked name is the first free one of the candidate sequence. *)
Lemma free_name_spec files f :
  ∃ n : nat, free_name files f = candidate f n
             ∧ files !! candidate f n = None
             ∧ ∀ j, j < n → is_Some (files !! candidate f j).
Proof.
  unfold free_name.
  destruct (unique_dest_spec {[ "" := files ]} "" f) as (n & -> & Hfree & Hbelow).
  exists n. split_and!; [done | |].
  - rewrite (exists_join_Some _ _ _ files) in Hfree by apply lookup_singleton_eq.
    apply bool_decide_eq_false in Hfree. by apply eq_None_not_Some.
  - intros j Hj. specialize (Hbelow j Hj).
    rewrite (exists_join_Some _ _ _ files) in Hbelow by apply lookup_singleton_eq.
    by apply bool_decide_eq_true in Hbelow.
Qed.

Lemma free_name_fresh files f : files !! free_name files f = None.
Proof. destruct (free_name_spec files f) as (n & -> & Hfree & _). done. Qed.

(** A free desired name is taken as it is. *)
Lemma free_name_id files f : files !! f = None → free_name files f = f.
Proof.
  intros Hfree. destruct (free_name_spec files f) as (n & -> & _ & Hbelow).
  destruct n as [|n]; [done|].
  destruct (Hbelow 0) as [b Hb]; [lia|]. simpl in Hb. congruence.
Qed.

(** Placing files keeps what the directory held and adds one entry for
    each incoming file. *)
Lemma place_spec incoming files :
  files ⊆ (place files incoming).1
  ∧ length (place files incoming).2 = length incoming
  ∧ size (place files incoming).1 = size files + length incoming
  ∧ NoDup (place files incoming).2
  ∧ ∀ name, name ∈ (place files incoming).2 →
      files !! name = None ∧ is_Some ((place files incoming).1 !! name).
Proof.
  revert files. induction incoming as [|[name b] rest IH]; intros files; simpl.
  - split_and!; [done | done | lia | constructor |]. by intros name Hin%elem_of_nil.
  - specialize (IH (<[free_name files name := b]> files)).
    destruct (place _ rest) as [files' names]. simpl in *.
    destruct IH as (Hsub & Hlen & Hsize & Hnodup & Hnew).
    pose proof (free_name_fresh files name) as Hfresh.
    split_and!.
    + etrans; [|exact Hsub]. by apply insert_subseteq.
    + by rewrite Hlen.
    + rewrite Hsize, map_size_insert_None by done. lia.
    + constructor; [|done]. intros Hin. apply Hnew in Hin as [Hnone _].
      by rewrite lookup_insert_eq in Hnone.
    + intros name' [->|Hin]%elem_of_cons.
      * split; [done|]. exists b.
        eapply lookup_weaken; [|exact Hsub]. apply lookup_insert_eq.
      * apply Hnew in Hin as [Hnone Hsome]. split; [|done].
        destruct (decide (free_name files name = name')) as [<-|Hne]; [done|].
        by rewrite lookup_insert_ne in Hnone.
Qed.

End free_name_facts.

(** ** Listings *)

Section listing_facts.

Context {V : Type}.
Implicit Types (l : list (string * V)) (k : string).

Lemma assoc_set_eq k v l : is_Some (assoc k l) → assoc k (assoc_set k v l) = Some v.
Proof.
  induction l as [|[k' v'] l IH]; simpl; [by intros [? ?]|].
  destruct (String.eqb_spec k' k) as [->|Hne]; simpl.
  - by rewrite String.eqb_refl.
  - intros Hsome. destruct (String.eqb_spec k' k); [done | by apply IH].
Qed.

Lemma assoc_set_ne k k' v l : k ≠ k' → assoc k' (assoc_set k v l) = assoc k' l.
Proof.
  intros Hne. induction l as [|[k0 v0] l IH]; simpl.
  - by destruct (String.eqb_spec k k').
  - destruct (String.eqb_spec k0 k) as [->|Hne0]; simpl.
    + by destruct (String.eqb_spec k k').
    + by rewrite IH.
Qed.

Lemma assoc_del_ne k k' l : k ≠ k' → assoc k' (assoc_del k l) = assoc k' l.
Proof.
  intros Hne. induction l as [|[k0 v0] l IH]; simpl; [done|].
  destruct (String.eqb_spec k0 k) as [->|Hne0]; simpl.
  - by destruct (String.eqb_spec k k').
  - by rewrite IH.
Qed.

Lemma assoc_NoDup k v l : NoDup (fst <$> l) → (k, v) ∈ l → assoc k l = Some v.
Proof.
  induction l as [|[k0 v0] l IH]; simpl; [by intros _ ?%elem_of_nil|].
  intros [Hnotin Hnodup]%NoDup_cons [[= -> ->]|Hin]%elem_of_cons.
  - by rewrite String.eqb_refl.
  - destruct (String.eqb_spec k0 k) as [->|Hne]; [|by apply IH].
    destruct Hnotin. apply list_elem_of_fmap. by exists (k, v).
Qed.

End listing_facts.

Section tile_facts.

Implicit Types (found : listing) (p q : path) (walk : list (string * list string)).

(** Removing a file leaves the other files readable. *)
Lemma listing_get_remove found p q :
  q ≠ p → listing_get (listing_remove found p) q = listing_get found q.
Proof.
  intros Hne. unfold listing_get, listing_remove.
  destruct (assoc (dirname p) found) as [files|] eqn:Hdir; [|done].
  destruct (decide (dirname p = dirname q)) as [Heq|Hdiff].
  - rewrite <-Heq, assoc_set_eq, Hdir by (by rewrite Hdir).
    apply assoc_del_ne. intros Hname. apply Hne.
    destruct p, q; simpl in *; congruence.
  - by rewrite assoc_set_ne.
Qed.

Lemma gather_inner root files (out : list path) :
  foldl (λ out f, if Str.endswith (Str.lower f) ".png"
                  then out ++ [os_path.join root f] else out) out files
  = out ++ (os_path.join root <$> filter (λ f, is_png f = true) files).
Proof.
  revert out. induction files as [|f files IH]; intros out; simpl.
  - by rewrite app_nil_r.
  - rewrite IH, filter_cons. fold (is_png f).
    destruct (is_png f) eqn:Hpng.
    + rewrite decide_True by done. by rewrite <-app_assoc.
    + rewrite decide_False by done. done.
Qed.

(** [gather_pngs] keeps the files whose name ends in [.png], whatever
    the case of the letters, in the order of the walk. *)
Lemma gather_pngs_filter walk :
  gather_pngs walk = filter (λ p, is_png (basename p) = true) (walk_files walk).
Proof.
  unfold gather_pngs, walk_files.
  assert (∀ out : list path,
            foldl (λ out rf,
                     foldl (λ out f, if Str.endswith (Str.lower f) ".png"
                                     then out ++ [os_path.join rf.1 f] else out)
                           out rf.2) out walk
            = out ++ filter (λ p, is_png (basename p) = true)
                       (flat_map (λ rf, os_path.join rf.1 <$> rf.2) walk)) as Hgen.
  { induction walk as [|[root files] walk IH]; intros out; simpl.
    - by rewrite app_nil_r.
    - rewrite IH, gather_inner, filter_app, <-(assoc_L (++)). f_equal. f_equal.
      clear. induction files as [|f files IH]; simpl; [done|].
      rewrite !filter_cons. simpl.
      destruct (decide (is_png f = true)); simpl; [f_equal|]; exact IH. }
  apply (Hgen []).
Qed.

(** The same walk read off a stored listing. *)
Lemma gather_pngs_tiles found :
  gather_pngs (map (λ rf, (rf.1, map fst rf.2)) found) = fst <$> png_tiles found.
Proof.
  rewrite gather_pngs_filter. unfold walk_files, png_tiles.
  induction found as [|[root files] found IH]; simpl; [done|].
  rewrite filter_app, fmap_app, IH. f_equal.
  clear. induction files as [|[f b] files IH]; simpl; [done|].
  rewrite !filter_cons. simpl.
  destruct (decide (is_png f = true)); simpl; [f_equal|]; exact IH.
Qed.

Lemma png_tiles_elem found p b :
  (p, b) ∈ png_tiles found →
  ∃ files, (dirname p, files) ∈ found ∧ (basename p, b) ∈ files ∧ is_png (basename p) = true.
Proof.
  unfold png_tiles. intros [[root files] [Hin Hp]]%list_elem_of_In%in_flat_map.
  apply list_elem_of_In in Hin, Hp. simpl in Hp.
  apply list_elem_of_fmap in Hp as [[f b'] [[= -> ->] [Hpng Hf]%list_elem_of_filter]].
  simpl in *. eauto.
Qed.

(** In a well-formed listing the gathered paths are distinct and each
    leads to the bytes listed with it. *)
Lemma png_tiles_readable found :
  well_formed found →
  NoDup (fst <$> png_tiles found)
  ∧ Forall (λ pb, listing_get found pb.1 = Some pb.2) (png_tiles found).
Proof.
  intros [Hroots Hnames]. split.
  - unfold png_tiles.
    induction found as [|[root files] found IH]; simpl; [constructor|].
    apply NoDup_cons in Hroots as [Hroot Hroots].
    apply Forall_cons in Hnames as [Hfiles Hnames]. simpl in *.
    rewrite fmap_app. apply NoDup_app. split_and!.
    + rewrite <-list_fmap_compose.
      apply (NoDup_fmap_2_strong _ (filter _ files)).
      * intros [f1 b1] [f2 b2] [_ H1]%list_elem_of_filter [_ H2]%list_elem_of_filter [= Hf].
        subst f2. f_equal.
        apply (assoc_NoDup _ _ _ Hfiles) in H1, H2. congruence.
      * apply NoDup_filter. by eapply NoDup_fmap_1.
    + intros p [[p1 b1] [-> [[f b] [[= -> ->] _]]%list_elem_of_fmap]]%list_elem_of_fmap
               [[p' b'] [Hp Hin]]%list_elem_of_fmap.
      simpl in Hp. apply png_tiles_elem in Hin as (files' & Hin & _).
      apply Hroot. apply list_elem_of_fmap. exists (dirname p', files').
      split; [|done]. simpl. by rewrite <-Hp.
    + by apply IH.
  - apply Forall_forall. intros [p b] (files & Hdir & Hfile & _)%png_tiles_elem. simpl.
    unfold listing_get. rewrite (assoc_NoDup _ _ _ Hroots Hdir).
    apply assoc_NoDup; [|done].
    rewrite Forall_forall in Hnames. apply (Hnames _ Hdir).
Qed.

End tile_facts.

(** ** Step 3: moving the tiles *)

Section move_facts.

Variables (cfg : config) (mappings : gmap string string).
Variables (base_key wii_sub temp_out : string).

Lemma place_cons files name b rest :
  place files ((name, b) :: rest)
  = ((place (<[free_name files name := b]> files) rest).1,
     free_name files name :: (place (<[free_name files name := b]> files) rest).2).
Proof. simpl. by destruct (place _ rest). Qed.

(** When every gathered path is readable, the loop places the tiles
    one after the other, in the order of the list. *)
Lemma move_pngs_exact tiles :
  ∀ acc files l o t lg np ns,
    NoDup (fst <$> tiles) →
    Forall (λ pb, listing_get l pb.1 = Some pb.2) tiles →
    ∃ l',
      move_pngs cfg mappings base_key wii_sub temp_out (fst <$> tiles) acc
                (State (<[wii_sub := files]> o) (<[temp_out := l]> t) lg np ns)
      = inr (State (<[wii_sub := (place files (incoming cfg mappings base_key tiles)).1]> o)
                   (<[temp_out := l']> t) lg np ns,
             acc ++ (place files (incoming cfg mappings base_key tiles)).2).
Proof.
  induction tiles as [|[p b] tiles IH]; intros acc files l o t lg np ns Hnodup Hread.
  - exists l. simpl. by rewrite app_nil_r.
  - apply NoDup_cons in Hnodup as [Hnotin Hnodup].
    apply Forall_cons in Hread as [Hp Hread]. simpl in Hp.
    change (incoming cfg mappings base_key ((p, b) :: tiles))
      with ((tile_name cfg mappings base_key (basename p), b)
              :: incoming cfg mappings base_key tiles).
    rewrite place_cons. simpl.
    fold (tile_name cfg mappings base_key (basename p)).
    set (name := tile_name cfg mappings base_key (basename p)).
    rewrite (unique_dest_local _ wii_sub name files) by apply lookup_insert_eq.
    unfold shutil_move, temp_read, write_output. simpl.
    rewrite !lookup_insert_eq, Hp. simpl.
    unfold temp_remove, set_temps, set_outputs. simpl.
    rewrite alter_insert_eq, insert_insert_eq.
    destruct (IH (acc ++ [free_name files name]) (<[free_name files name := b]> files)
                 (listing_remove l p) o t lg np ns Hnodup) as [l' Hrun].
    { rewrite Forall_forall in Hread |- *. intros [q b'] Hin.
      rewrite listing_get_remove; [by apply Hread|]. simpl.
      intros ->. apply Hnotin. apply list_elem_of_fmap. by exists (p, b'). }
    exists l'. etrans; [exact Hrun|]. by rewrite <-(assoc_L (++)).
Qed.

(** However the loop ends, it has touched nothing but the Wii
    directory and the splitter's scratch directory. *)
Lemma move_pngs_frame pngs :
  ∀ acc st,
    let st' := moved_state (move_pngs cfg mappings base_key wii_sub temp_out pngs acc st) in
    (∀ d, d ≠ wii_sub → outputs st' !! d = outputs st !! d)
    ∧ (∀ k, k ≠ temp_out → temps st' !! k = temps st !! k)
    ∧ stdout st' = stdout st ∧ processed st' = processed st ∧ skipped st' = skipped st.
Proof.
  induction pngs as [|p pngs IH]; intros acc st; simpl; [done|].
  set (dest := unique_dest _ _ _).
  unfold shutil_move.
  destruct (temp_read temp_out p st) as [b|]; simpl; [|done].
  unfold write_output.
  destruct (outputs st !! dirname dest) as [files|] eqn:Hdir; simpl; [|done].
  set (st1 := temp_remove _ _ _).
  specialize (IH (acc ++ [basename dest]) st1). simpl in IH.
  destruct IH as (Hout & Htmp & Hlog & Hnp & Hns).
  assert (dirname dest = wii_sub) as Hwhere by apply unique_dest_dirname.
  split_and!.
  - intros d Hd. rewrite Hout by done. unfold st1. simpl.
    rewrite lookup_insert_ne; [done | congruence].
  - intros k Hk. rewrite Htmp by done. unfold st1. simpl. by rewrite lookup_alter_ne.
  - by rewrite Hlog.
  - by rewrite Hnp.
  - by rewrite Hns.
Qed.

End move_facts.

(** ** One file, up to the splitter *)

Section process_facts.

Variables (cfg : config) (env : environment) (mappings : gmap string string).
Variables (dirpath rel_dir wii_sub ps2_sub : string).

Lemma process_file_skip fname content st :
  is_png fname = false →
  process_file cfg env mappings dirpath rel_dir wii_sub ps2_sub fname content st
  = Next (incr_skipped st).
Proof. intros Hpng. unfold process_file. fold (is_png fname). by rewrite Hpng. Qed.

(** A PNG whose mirror directory is missing cannot be copied. *)
Lemma process_file_no_dir fname content st :
  is_png fname = true →
  outputs st !! ps2_sub = None →
  ∃ st', process_file cfg env mappings dirpath rel_dir wii_sub ps2_sub fname content st
         = Raise FileNotFoundError st'.
Proof.
  intros Hpng Hdir. unfold process_file. fold (is_png fname). rewrite Hpng. simpl.
  unfold process_body.
  rewrite scratch_copy_filtered by apply fresh_string_fresh.
  unfold copy2_out, temp_read. simpl.
  rewrite lookup_insert_eq, listing_get_single.
  unfold write_output. simpl.
  rewrite unique_dest_dirname, Hdir. simpl. eauto.
Qed.

(** Steps 1 to 3 and the splitter call, for a PNG whose mirror
    directory [ps2_sub] exists and holds [flat]. *)
Lemma process_file_png fname content st flat :
  is_png fname = true →
  outputs st !! ps2_sub = Some flat →
  let c := filtered cfg env content in
  let d := (mkdtemp "dte_src_" st).1 in
  let st2 := flat_copied cfg env ps2_sub fname content flat st in
  let d2 := (mkdtemp "dte_out_" st2).1 in
  process_file cfg env mappings dirpath rel_dir wii_sub ps2_sub fname content st
  = match splitter env fname c with
    | NotStarted =>
        Raise OSError (set_temps (<[d2 := [(d2, [])]]> (temps st)) st2)
    | Exited returncode produced =>
        if (returncode =? 0)%Z then
          finally d
            (place_outputs cfg env mappings (os_path.join dirpath fname) rel_dir wii_sub
               ps2_sub fname (Str.lower (os_path.splitext fname).1) d2
               (os_path.join ps2_sub (free_name flat fname))
               (set_temps (<[d2 := found_in d2 produced]> (temps st2)) st2))
        else
          Next (print (ErrorSplitter (os_path.join dirpath fname))
                      (set_temps (temps st) st2))
    end.
Proof.
  intros Hpng Hdir c d st2 d2.
  assert (temps st !! d = None) as Hd by apply fresh_string_fresh.
  assert (temps st2 !! d2 = None) as Hd2 by apply fresh_string_fresh.
  assert (d2 ≠ d) as Hne.
  { intros Heq. rewrite Heq in Hd2. unfold st2, flat_copied in Hd2. simpl in Hd2.
    fold d in Hd2. by rewrite lookup_insert_eq in Hd2. }
  assert (temps st !! d2 = None) as Hd2'.
  { unfold st2, flat_copied in Hd2. simpl in Hd2. fold d in Hd2.
    by rewrite lookup_insert_ne in Hd2. }
  unfold process_file. fold (is_png fname). rewrite Hpng. simpl.
  unfold process_body. fold d.
  rewrite scratch_copy_filtered by done. fold c.
  unfold copy2_out, temp_read. simpl.
  rewrite lookup_insert_eq, listing_get_single.
  rewrite (unique_dest_local _ _ _ flat Hdir).
  unfold write_output. simpl. rewrite Hdir. simpl.
  unfold set_outputs. simpl.
  change (State _ _ _ _ _) with st2 at 1.
  unfold run_splitter_single, temp_read. simpl. fold d2.
  rewrite lookup_insert_ne by done.
  replace (temps st2 !! d) with (Some [(d, [(fname, c)])])
    by (unfold st2, flat_copied; simpl; fold d; by rewrite lookup_insert_eq).
  rewrite listing_get_single. simpl.
  destruct (splitter env fname c) as [returncode produced|]; simpl.
  - unfold set_temps at 1. simpl. rewrite insert_insert_eq.
    destruct (returncode =? 0)%Z; simpl.
    + reflexivity.
    + unfold rmtree, print, set_temps. simpl. f_equal. f_equal.
      rewrite delete_insert_eq, delete_insert_ne, delete_insert_eq by done.
      rewrite (delete_id (temps st)) by exact Hd2'. by rewrite delete_id.
  - unfold rmtree, set_temps. simpl. f_equal. f_equal.
    rewrite delete_insert_ne, delete_insert_eq by done.
    by rewrite delete_id.
Qed.

(** ** Steps 3 and 4 *)

Lemma alter_Some {V} (f : V → V) (m : gmap string V) k v :
  m !! k = Some v → alter f k m = <[k := f v]> m.
Proof.
  intros Hk. apply map_eq. intros k'.
  destruct (decide (k = k')) as [<-|Hne].
  - by rewrite lookup_alter_eq, lookup_insert_eq, Hk.
  - by rewrite lookup_alter_ne, lookup_insert_ne.
Qed.

(** Step 4, for a flat copy [n1] holding [c]. *)
Lemma rename_ps2_spec base_key n1 c flat st :
  outputs st !! ps2_sub = Some flat →
  flat !! n1 = Some c →
  rename_ps2 env mappings ps2_sub base_key (os_path.join ps2_sub n1) st
  = let '(n', flat', ws) := renamed env mappings ps2_sub base_key n1 c flat in
    (os_path.join ps2_sub n',
     State (<[ps2_sub := flat']> (outputs st)) (temps st) (stdout st ++ ws)
           (processed st) (skipped st)).
Proof.
  intros Hdir Hn1. destruct st as [o t lg np ns]. simpl in *.
  unfold rename_ps2, renamed.
  destruct (mappings !! base_key) as [mapped_base|]; simpl.
  - rewrite (unique_dest_local _ _ _ flat Hdir).
    unfold os_replace.
    destruct (replace_refused env _ _); simpl.
    + unfold print. simpl. by rewrite insert_id.
    + unfold read_output, remove_output, write_output, set_outputs. simpl.
      rewrite Hdir, Hn1. simpl.
      rewrite (alter_Some _ _ _ flat Hdir), lookup_insert_eq. simpl.
      by rewrite insert_insert_eq, app_nil_r.
  - by rewrite insert_id, app_nil_r.
Qed.

(** Step 3 touches the Wii directory and the splitter's scratch
    directory only, and prints at most the no-PNG warning. *)
Lemma move_tiles_frame src_path base_key temp_out st :
  let st' := moved_state (move_tiles cfg mappings src_path wii_sub base_key temp_out st) in
  (∀ d, d ≠ wii_sub → outputs st' !! d = outputs st !! d)
  ∧ (∀ k, k ≠ temp_out → temps st' !! k = temps st !! k)
  ∧ (stdout st' = stdout st ∨ stdout st' = stdout st ++ [WarnNoPngs src_path])
  ∧ processed st' = processed st ∧ skipped st' = skipped st.
Proof.
  unfold move_tiles.
  destruct (gather_pngs (os_walk temp_out st)) as [|p pngs].
  - simpl. split_and!; auto.
  - pose proof (move_pngs_frame cfg mappings base_key wii_sub temp_out (p :: pngs) [] st)
      as (Hout & Htmp & Hlog & Hnp & Hns).
    split_and!; auto.
Qed.

(** Steps 3 and 4 never leave through [continue]; an exception can only
    come from step 3 and leaves the flat directory as it was; otherwise
    the flat copy is renamed as [renamed] says and the file is counted. *)
Lemma place_outputs_spec src_path fname base_key temp_out n1 c flat st :
  outputs st !! ps2_sub = Some flat →
  flat !! n1 = Some c →
  wii_sub ≠ ps2_sub →
  match place_outputs cfg env mappings src_path rel_dir wii_sub ps2_sub fname base_key
                      temp_out (os_path.join ps2_sub n1) st with
  | Continue _ => False
  | Raised e st' =>
      move_tiles cfg mappings src_path wii_sub base_key temp_out st = inl (e, st')
  | Normal st' =>
      ∃ sm names,
        move_tiles cfg mappings src_path wii_sub base_key temp_out st = inr (sm, names)
        ∧ let '(n', flat', ws) := renamed env mappings ps2_sub base_key n1 c flat in
          st' = State (<[ps2_sub := flat']> (outputs sm)) (delete temp_out (temps sm))
                      (stdout sm ++ ws ++ [Processed rel_dir fname n' names])
                      (S (processed sm)) (skipped sm)
  end.
Proof.
  intros Hdir Hn1 Hne. unfold place_outputs.
  pose proof (move_tiles_frame src_path base_key temp_out st) as (Hout & _).
  destruct (move_tiles _ _ _ _ _ _ _) as [[e sm]|[sm names]]; simpl in *.
  - done.
  - rewrite (rename_ps2_spec base_key n1 c flat); [| |done].
    + destruct (renamed _ _ _ _ _ _ _) as [[n' flat'] ws]. simpl.
      exists sm, names. split; [done|].
      unfold print, incr_processed. simpl. by rewrite <-(assoc_L (++)).
    + simpl. rewrite Hout by done. done.
Qed.

(** ** One file, as a whole *)

(** Whatever happens to a PNG after its flat copy is written, the flat
    directory ends with exactly one more entry, holding the filtered
    bytes, under the name [unique_dest] gave to the copy or to its
    mapped name. *)
Lemma process_file_flat fname content st flat :
  is_png fname = true →
  outputs st !! ps2_sub = Some flat →
  wii_sub ≠ ps2_sub →
  let c := filtered cfg env content in
  let n1 := free_name flat fname in
  let o := process_file cfg env mappings dirpath rel_dir wii_sub ps2_sub fname content st in
  ∃ n, flat !! n = None
       ∧ outputs (final o) !! ps2_sub = Some (<[n := c]> flat)
       ∧ (n = n1
          ∨ ∃ mapped_base produced,
              mappings !! Str.lower (os_path.splitext fname).1 = Some mapped_base
              ∧ splitter env fname c = Exited 0 produced
              ∧ replace_refused env (os_path.join ps2_sub n1) (os_path.join ps2_sub n) = false
              ∧ n = free_name (<[n1 := c]> flat) (mapped_base +:+ ".png")).
Proof.
  intros Hpng Hdir Hne c n1 o. unfold o.
  rewrite (process_file_png fname content st flat Hpng Hdir). fold c n1.
  pose proof (free_name_fresh flat fname) as Hn1. fold n1 in Hn1.
  set (st2 := flat_copied cfg env ps2_sub fname content flat st).
  assert (outputs st2 !! ps2_sub = Some (<[n1 := c]> flat)) as Hst2
    by apply lookup_insert_eq.
  destruct (splitter env fname c) as [returncode produced|] eqn:Hsplit.
  - destruct (returncode =? 0)%Z eqn:Hrc.
    + apply Z.eqb_eq in Hrc. subst returncode.
      set (d2 := (mkdtemp "dte_out_" st2).1).
      set (st3 := set_temps _ st2).
      pose proof (place_outputs_spec (os_path.join dirpath fname) fname
                    (Str.lower (os_path.splitext fname).1) d2 n1 c (<[n1 := c]> flat) st3
                    Hst2 (lookup_insert_eq _ _ _) Hne) as Hspec.
      pose proof (move_tiles_frame (os_path.join dirpath fname)
                    (Str.lower (os_path.splitext fname).1) d2 st3) as (Hout & _).
      destruct (place_outputs _ _ _ _ _ _ _ _ _ _ _ _) as [st'|st'|e st']; simpl.
      * destruct Hspec as (sm & names & Hmove & Hst').
        unfold renamed in Hst'.
        destruct (mappings !! _) as [mapped_base|] eqn:Hmap.
        -- destruct (replace_refused env _ _) eqn:Hrefused.
           ++ exists n1. subst st'. simpl. rewrite lookup_insert_eq. auto.
           ++ set (n2 := free_name (<[n1 := c]> flat) (mapped_base +:+ ".png")) in *.
              pose proof (free_name_fresh (<[n1 := c]> flat) (mapped_base +:+ ".png")) as Hn2.
              fold n2 in Hn2.
              assert (n2 ≠ n1) as Hdiff
                by (intros Heq; rewrite Heq, lookup_insert_eq in Hn2; done).
              rewrite lookup_insert_ne in Hn2 by done.
              exists n2. subst st'. simpl. rewrite lookup_insert_eq.
              rewrite delete_insert_eq, delete_id by done.
              split_and!; [done | done |]. right. exists mapped_base, produced. auto.
        -- exists n1. subst st'. simpl. rewrite lookup_insert_eq. auto.
      * done.
      * rewrite Hspec in Hout. simpl in Hout.
        exists n1. rewrite Hout by done. auto.
    + exists n1. simpl. auto.
  - exists n1. simpl. auto.
Qed.

(** The same file when its iteration ends normally: both scratch
    directories are gone; either the splitter failed and the iteration
    stopped after the flat copy, or it succeeded and the file is counted. *)
Lemma process_file_next fname content st st' :
  is_png fname = true →
  process_file cfg env mappings dirpath rel_dir wii_sub ps2_sub fname content st = Next st' →
  let c := filtered cfg env content in
  temps st' = temps st
  ∧ skipped st' = skipped st
  ∧ ((∃ returncode produced flat,
        splitter env fname c = Exited returncode produced ∧ returncode ≠ 0%Z
        ∧ outputs st !! ps2_sub = Some flat
        ∧ st' = print (ErrorSplitter (os_path.join dirpath fname))
                      (set_temps (temps st) (flat_copied cfg env ps2_sub fname content flat st)))
     ∨ (∃ produced ws name names,
          splitter env fname c = Exited 0 produced
          ∧ processed st' = S (processed st)
          ∧ stdout st' = stdout st ++ ws ++ [Processed rel_dir fname name names]
          ∧ Forall (λ m, ∀ p, m ≠ ErrorSplitter p) ws)).
Proof.
  intros Hpng Hrun c.
  destruct (outputs st !! ps2_sub) as [flat|] eqn:Hdir; cycle 1.
  { destruct (process_file_no_dir fname content st Hpng Hdir) as [st0 Hraise]. congruence. }
  rewrite (process_file_png fname content st flat Hpng Hdir) in Hrun. fold c in Hrun.
  set (st2 := flat_copied cfg env ps2_sub fname content flat st) in *.
  destruct (splitter env fname c) as [returncode produced|] eqn:Hsplit; [|done].
  destruct (returncode =? 0)%Z eqn:Hrc.
  - apply Z.eqb_eq in Hrc. subst returncode.
    set (d := (mkdtemp "dte_src_" st).1) in *.
    set (d2 := (mkdtemp "dte_out_" st2).1) in *.
    set (st3 := set_temps _ st2) in *.
    assert (temps st !! d = None) as Hd by apply fresh_string_fresh.
    assert (temps st2 !! d2 = None) as Hd2 by apply fresh_string_fresh.
    pose proof (move_tiles_frame (os_path.join dirpath fname)
                  (Str.lower (os_path.splitext fname).1) d2 st3)
      as (_ & Htmp & Hlog & Hnp & Hns).
    unfold place_outputs in Hrun.
    destruct (move_tiles _ _ _ _ _ _ _) as [[e sm]|[sm names]]; simpl in *; [done|].
    destruct (rename_ps2 env mappings ps2_sub _ _ _) as [dest sr] eqn:Hren.
    simpl in Hrun. injection Hrun as <-. simpl.
    assert (temps sr = delete d2 (temps sm) ∧ processed sr = processed sm
            ∧ skipped sr = skipped sm
            ∧ (stdout sr = stdout sm
               ∨ ∃ src dst, stdout sr = stdout sm ++ [WarnRename src dst])) as (Ht & Hp & Hs & Hl).
    { unfold rename_ps2 in Hren.
      destruct (mappings !! _); [|injection Hren as _ <-; simpl; auto].
      unfold os_replace in Hren.
      destruct (replace_refused env _ _);
        [injection Hren as _ <-; simpl; eauto 10|].
      destruct (read_output _ _); [|injection Hren as _ <-; simpl; eauto 10].
      unfold write_output in Hren.
      destruct (outputs _ !! _); injection Hren as _ <-; simpl; eauto 10. }
    split_and!.
    + rewrite Ht. apply map_eq. intros k.
      destruct (decide (k = d)) as [->|Hkd]; [by rewrite lookup_delete_eq, Hd|].
      rewrite lookup_delete_ne by done.
      destruct (decide (k = d2)) as [->|Hkd2].
      * rewrite lookup_delete_eq. symmetry.
        unfold st2, flat_copied in Hd2. simpl in Hd2. fold d in Hd2.
        destruct (decide (d2 = d)) as [Heq|Hned]; [by rewrite Heq|].
        by rewrite lookup_insert_ne in Hd2.
      * rewrite lookup_delete_ne, Htmp by done. unfold st3, st2, flat_copied. simpl.
        fold d. by rewrite !lookup_insert_ne.
    + by rewrite Hs, Hns.
    + right.
      assert (∃ ws, stdout sr = stdout st ++ ws ∧ Forall (λ m, ∀ p, m ≠ ErrorSplitter p) ws)
        as (ws & Hws & Hall).
      { assert (∃ w1, stdout st2 = stdout st ++ w1 ∧ Forall (λ m, ∀ p, m ≠ ErrorSplitter p) w1)
          as (w1 & Hw1 & Hall1).
        { eexists. split; [reflexivity|]. unfold filter_warning.
          repeat case_match; repeat constructor; done. }
        assert (∃ w2, stdout sm = stdout st2 ++ w2 ∧ Forall (λ m, ∀ p, m ≠ ErrorSplitter p) w2)
          as (w2 & Hw2 & Hall2).
        { destruct Hlog as [->| ->].
          - exists []. by rewrite app_nil_r.
          - eexists. split; [reflexivity|]. repeat constructor; done. }
        assert (∃ w3, stdout sr = stdout sm ++ w3 ∧ Forall (λ m, ∀ p, m ≠ ErrorSplitter p) w3)
          as (w3 & Hw3 & Hall3).
        { destruct Hl as [->|(src & dst & ->)].
          - exists []. by rewrite app_nil_r.
          - eexists. split; [reflexivity|]. repeat constructor; done. }
        exists (w1 ++ w2 ++ w3). split.
        - by rewrite Hw3, Hw2, Hw1, <-!(assoc_L (++)).
        - by rewrite !Forall_app. }
      exists produced, ws, (basename dest), names. split_and!; [done | | | done].
      * by rewrite Hp, Hnp.
      * by rewrite Hws, <-(assoc_L (++)).
  - injection Hrun as <-. split_and!; [done | done |].
    left. exists returncode, produced, flat. split_and!; [done | | done | done].
    intros ->. done.
Qed.

End process_facts.

(** * The claims *)

(** ** Splitter failure (C3) *)

(** C3.  When the splitter exits with a non-zero status on a PNG, the
    iteration for that file ends normally in the store [st'] described
    here: the error is printed last, the temporary directories are those
    from before (neither scratch directory is left), the flat directory has
    gained the flat copy under the name [unique_dest] gave it - no mapped
    rename took place and nothing is printed about one -, every other
    directory of the output tree, the Wii mirror among them, is as before,
    the counters are unchanged, and the loop goes on with the next file. *)
Theorem splitter_failure_contained (cfg : config) (env : environment)
    (mappings : gmap string string) (dirpath rel_dir wii_sub ps2_sub fname : string)
    (content : bytes) (rest : list (string * bytes)) (st : state)
    (flat : gmap string bytes) (returncode : Z) (produced : listing) :
  is_png fname = true →
  outputs st !! ps2_sub = Some flat →
  splitter env fname (filtered cfg env content) = Exited returncode produced →
  returncode ≠ 0%Z →
  let c := filtered cfg env content in
  let n := free_name flat fname in
  let temp_src_dir := (mkdtemp "dte_src_" st).1 in
  let temp_out := (mkdtemp "dte_out_" (flat_copied cfg env ps2_sub fname content flat st)).1 in
  let st' :=
    State (<[ps2_sub := <[n := c]> flat]> (outputs st)) (temps st)
          (stdout st ++ filter_warning cfg env (os_path.join temp_src_dir fname) content
             ++ [ErrorSplitter (os_path.join dirpath fname)])
          (processed st) (skipped st) in
  process_file cfg env mappings dirpath rel_dir wii_sub ps2_sub fname content st = Next st'
  ∧ process_files cfg env mappings dirpath rel_dir wii_sub ps2_sub ((fname, content) :: rest) st
    = process_files cfg env mappings dirpath rel_dir wii_sub ps2_sub rest st'
  ∧ temps st' !! temp_src_dir = None
  ∧ temps st' !! temp_out = None
  ∧ flat !! n = None
  ∧ read_output (os_path.join ps2_sub n) st' = Some c
  ∧ (∀ d, d ≠ ps2_sub → outputs st' !! d = outputs st !! d).
Proof.
  intros Hpng Hdir Hsplit Hrc c n temp_src_dir temp_out st'.
  assert (process_file cfg env mappings dirpath rel_dir wii_sub ps2_sub fname content st
          = Next st') as Hrun.
  { rewrite (process_file_png _ _ _ _ _ _ _ _ _ _ _ Hpng Hdir). rewrite Hsplit.
    apply Z.eqb_neq in Hrc. rewrite Hrc. unfold st', print, set_temps, flat_copied. simpl.
    by rewrite <-(assoc_L (++)). }
  split_and!.
  - done.
  - simpl. by rewrite Hrun.
  - apply fresh_string_fresh.
  - pose proof (fresh_string_fresh
                  (temps (flat_copied cfg env ps2_sub fname content flat st))
                  ("/tmp/" +:+ "dte_out_")) as Hfresh.
    fold temp_out in Hfresh. unfold flat_copied in Hfresh. simpl in *.
    destruct (decide (temp_out = (mkdtemp "dte_src_" st).1)) as [Heq|Hne].
    + rewrite Heq. apply fresh_string_fresh.
    + by rewrite lookup_insert_ne in Hfresh.
  - apply free_name_fresh.
  - unfold read_output, st'. simpl. by rewrite !lookup_insert_eq.
  - intros d Hd. unfold st'. simpl. by rewrite lookup_insert_ne.
Qed.

Lemma splitter_failure_contained_witness :
  is_png "broken.png" = true
  ∧ outputs demo.fresh !! "out/PS2/tex" = Some ∅
  ∧ splitter demo.env "broken.png" (filtered demo.opaque_off demo.env demo.rock)
    = Exited 1 [("", [("broken_0.png", demo.rock)])]
  ∧ 1%Z ≠ 0%Z
  ∧ process_file demo.opaque_off demo.env ∅ "in/tex" "tex" "out/Wii/tex" "out/PS2/tex"
      "broken.png" demo.rock demo.fresh
    = Next (State {[ "out/PS2/tex" := {[ "broken.png" := demo.rock ]}; "out/Wii/tex" := ∅ ]}
                  ∅ [ErrorSplitter (os_path.join "in/tex" "broken.png")] 0 0).
Proof.
  assert (is_png "broken.png" = true) as H1 by reflexivity.
  assert (outputs demo.fresh !! "out/PS2/tex" = Some ∅) as H2 by reflexivity.
  assert (splitter demo.env "broken.png" (filtered demo.opaque_off demo.env demo.rock)
          = Exited 1 [("", [("broken_0.png", demo.rock)])]) as H3 by reflexivity.
  assert (1%Z ≠ 0%Z) as H4 by lia.
  split_and!; [exact H1 | exact H2 | exact H3 | exact H4 |].
  pose proof (splitter_failure_contained demo.opaque_off demo.env ∅ "in/tex" "tex"
                "out/Wii/tex" "out/PS2/tex" "broken.png" demo.rock [] demo.fresh ∅ 1 _
                H1 H2 H3 H4) as (Hrun & _).
  rewrite Hrun. vm_compute. reflexivity.
Defined.

(** ** The content of the flat copy (C4) *)

Section opacity_facts.





End opacity_facts.



(** C4 as stated fails with the switch on.  Here Pillow refuses the
    file, as it does for one that is no image or too large an image:
    [Image.open] raises, [apply_half_opacity] prints its warning and
    returns, and the flat copy is the source byte for byte.  Read with the
    codec of the scenario its pixels have the alpha values 64, 255 and 7 of
    the source, not 32, 127 and 3. *)
Lemma flat_copy_content_counterexample :
  let env := Environment demo.split (λ _, None) demo.encode (λ _ _, false) in
  let o := process_file demo.opaque_on env ∅ "in/tex" "tex" "out/Wii/tex" "out/PS2/tex"
             "rock.png" demo.rock demo.fresh in
  APPLY_OPACITY demo.opaque_on = true
  ∧ outputs (final o) !! "out/PS2/tex" = Some {[ "rock.png" := demo.rock ]}
  ∧ WarnOpacity (os_path.join (mkdtemp "dte_src_" demo.fresh).1 "rock.png") ∈ stdout (final o)
  ∧ alpha <$> default [] (demo.decode demo.rock) = [64; 255; 7]%Z
  ∧ (λ a, Z.quot a 2) <$> [64; 255; 7]%Z = [32; 127; 3]%Z.
Proof.
  vm_compute. split_and!; try reflexivity.
  apply list_elem_of_here.
Qed.

(** ** Scratch directories (C5) *)

(** C5, where the code falls short of it.  When the splitter cannot be
    started, [subprocess.run] raises an [OSError]; the handler of the
    [try] around the call only catches [CalledProcessError], so the
    exception leaves the iteration.  The [finally] clause removes the
    scratch source directory, but nothing removes the splitter's scratch
    directory: it did not exist before the iteration and exists after it.
    An iteration that ends normally leaves the temporary directories as it
    found them. *)
Theorem scratch_out_left_behind (cfg : config) (env : environment)
    (mappings : gmap string string) (dirpath rel_dir wii_sub ps2_sub fname : string)
    (content : bytes) (st : state) (flat : gmap string bytes) :
  is_png fname = true →
  outputs st !! ps2_sub = Some flat →
  let temp_src_dir := (mkdtemp "dte_src_" st).1 in
  let temp_out := (mkdtemp "dte_out_" (flat_copied cfg env ps2_sub fname content flat st)).1 in
  let o := process_file cfg env mappings dirpath rel_dir wii_sub ps2_sub fname content st in
  (splitter env fname (filtered cfg env content) = NotStarted →
   ∃ st', o = Raise OSError st'
          ∧ temps st !! temp_out = None
          ∧ temps st' !! temp_out = Some [(temp_out, [])]
          ∧ temps st' !! temp_src_dir = None)
  ∧ (∀ st', o = Next st' → temps st' = temps st).
Proof.
  intros Hpng Hdir temp_src_dir temp_out o. split.
  - intros Hsplit. unfold o.
    rewrite (process_file_png _ _ _ _ _ _ _ _ _ _ _ Hpng Hdir), Hsplit.
    fold temp_out temp_src_dir.
    assert (temps (flat_copied cfg env ps2_sub fname content flat st) !! temp_out = None)
      as Hfresh by apply fresh_string_fresh.
    unfold flat_copied in Hfresh. simpl in Hfresh. fold temp_src_dir in Hfresh.
    assert (temp_out ≠ temp_src_dir) as Hne
      by (intros Heq; rewrite Heq, lookup_insert_eq in Hfresh; done).
    rewrite lookup_insert_ne in Hfresh by done.
    eexists. split_and!; [reflexivity | done | |]; simpl.
    + by rewrite lookup_insert_eq.
    + rewrite lookup_insert_ne by done. apply fresh_string_fresh.
  - intros st' Hnext.
    by destruct (process_file_next cfg env mappings dirpath rel_dir wii_sub ps2_sub
                   fname content st st' Hpng Hnext) as (Htemps & _).
Qed.

Lemma scratch_out_left_behind_witness :
  is_png "nostart.png" = true
  ∧ outputs demo.fresh !! "out/PS2/tex" = Some ∅
  ∧ splitter demo.env "nostart.png" (filtered demo.opaque_off demo.env demo.rock) = NotStarted
  ∧ temps demo.fresh = ∅
  ∧ ∃ st', process_file demo.opaque_off demo.env ∅ "in/tex" "tex" "out/Wii/tex" "out/PS2/tex"
             "nostart.png" demo.rock demo.fresh
           = Raise OSError st'
           ∧ temps st' !! "/tmp/dte_out_" = Some [("/tmp/dte_out_", [])].
Proof.
  assert (is_png "nostart.png" = true) as H1 by reflexivity.
  assert (outputs demo.fresh !! "out/PS2/tex" = Some ∅) as H2 by reflexivity.
  assert (splitter demo.env "nostart.png" (filtered demo.opaque_off demo.env demo.rock)
          = NotStarted) as H3 by reflexivity.
  split_and!; [exact H1 | exact H2 | exact H3 | reflexivity |].
  destruct (scratch_out_left_behind demo.opaque_off demo.env ∅ "in/tex" "tex" "out/Wii/tex"
              "out/PS2/tex" "nostart.png" demo.rock demo.fresh ∅ H1 H2) as [Hraise _].
  destruct (Hraise H3) as (st' & Hrun & _ & Hleft & _).
  exists st'. split; [exact Hrun | exact Hleft].
Defined.

(** ** The run summary (C6) *)

Section counting_facts.

Variables (cfg : config) (env : environment) (mappings : gmap string string).

Lemma count_cons {X} (p : X → bool) x l :
  count p (x :: l) = (if p x then 1 else 0) + count p l.
Proof.
  unfold count. rewrite filter_cons.
  destruct (p x); [by rewrite decide_True | by rewrite decide_False].
Qed.

Lemma count_nil {X} (p : X → bool) : count p [] = 0.
Proof. reflexivity. Qed.

Lemma count_app {X} (p : X → bool) l1 l2 : count p (l1 ++ l2) = count p l1 + count p l2.
Proof. unfold count. by rewrite filter_app, length_app. Qed.

Lemma count_none {X} (p : X → bool) l : Forall (λ x, p x = false) l → count p l = 0.
Proof.
  induction 1 as [|x l Hx _ IH]; [done|]. by rewrite count_cons, Hx, IH.
Qed.

(** Each input file is of exactly one kind. *)
Lemma kinds_partition files :
  count (counted_processed cfg env) files + count counted_skipped files
  + count (split_failed cfg env) files = length files.
Proof.
  induction files as [|f files IH]; [done|].
  rewrite !count_cons. simpl. rewrite <-IH.
  unfold counted_processed, counted_skipped, split_failed.
  destruct (is_png f.1), (split_ok cfg env f); simpl; lia.
Qed.

(** What one iteration that ends normally does to the counters and to
    the number of splitter errors printed. *)
Lemma process_file_counts dirpath rel_dir wii_sub ps2_sub fname content st st' :
  process_file cfg env mappings dirpath rel_dir wii_sub ps2_sub fname content st = Next st' →
  processed st' = processed st + count (counted_processed cfg env) [(fname, content)]
  ∧ skipped st' = skipped st + count counted_skipped [(fname, content)]
  ∧ count is_splitter_error (stdout st')
    = count is_splitter_error (stdout st) + count (split_failed cfg env) [(fname, content)].
Proof.
  intros Hrun. rewrite !count_cons.
  unfold counted_processed, counted_skipped, split_failed, split_ok. simpl.
  destruct (is_png fname) eqn:Hpng; simpl.
  - destruct (process_file_next cfg env mappings dirpath rel_dir wii_sub ps2_sub
                fname content st st' Hpng Hrun) as (_ & Hskip & Hcases).
    destruct Hcases as [(rc & produced & flat & Hsplit & Hrc & _ & ->)
                       |(produced & ws & name & names & Hsplit & Hproc & Hlog & Hws)].
    + rewrite Hsplit. apply Z.eqb_neq in Hrc. rewrite Hrc. simpl.
      rewrite !count_app, (count_none _ (filter_warning _ _ _ _)).
      * rewrite count_cons, !count_nil. simpl. lia.
      * unfold filter_warning. repeat case_match; repeat constructor.
    + rewrite Hsplit, Hproc, Hskip, Hlog. simpl.
      rewrite !count_app, (count_none _ ws).
      * rewrite count_cons, !count_nil. simpl. lia.
      * eapply Forall_impl; [exact Hws|]. intros [] Hm; try done. by destruct (Hm src_path).
  - rewrite process_file_skip in Hrun by done. injection Hrun as <-.
    rewrite !count_nil. simpl. lia.
Qed.

Lemma process_files_counts dirpath rel_dir wii_sub ps2_sub files :
  ∀ st st',
    process_files cfg env mappings dirpath rel_dir wii_sub ps2_sub files st = Next st' →
    processed st' = processed st + count (counted_processed cfg env) files
    ∧ skipped st' = skipped st + count counted_skipped files
    ∧ count is_splitter_error (stdout st')
      = count is_splitter_error (stdout st) + count (split_failed cfg env) files.
Proof.
  induction files as [|[fname content] files IH]; intros st st' Hrun; simpl in Hrun.
  - injection Hrun as <-. rewrite !count_nil. lia.
  - destruct (process_file _ _ _ _ _ _ _ _ _ _) as [st1|e st1] eqn:Hfile; [|done].
    apply process_file_counts in Hfile as (Hp1 & Hs1 & He1).
    apply IH in Hrun as (Hp & Hs & He).
    rewrite (count_cons (counted_processed cfg env)), (count_cons counted_skipped),
      (count_cons (split_failed cfg env)).
    rewrite !count_cons, !count_nil in Hp1, Hs1, He1. lia.
Qed.

Lemma makedirs_frame d st :
  stdout (makedirs d st) = stdout st ∧ processed (makedirs d st) = processed st
  ∧ skipped (makedirs d st) = skipped st.
Proof. unfold makedirs. by destruct (outputs st !! d). Qed.

Lemma process_walk_counts INPUT_ROOT wii_root ps2_root walk :
  ∀ st st',
    process_walk cfg env mappings INPUT_ROOT wii_root ps2_root walk st = Next st' →
    processed st' = processed st + count (counted_processed cfg env) (flat_map snd walk)
    ∧ skipped st' = skipped st + count counted_skipped (flat_map snd walk)
    ∧ count is_splitter_error (stdout st')
      = count is_splitter_error (stdout st)
        + count (split_failed cfg env) (flat_map snd walk).
Proof.
  induction walk as [|[rel files] walk IH]; intros st st' Hrun; simpl in Hrun.
  - injection Hrun as <-. simpl. rewrite !count_nil. lia.
  - destruct (process_files _ _ _ _ _ _ _ _ _) as [st1|e st1] eqn:Hfiles; [|done].
    apply process_files_counts in Hfiles as (Hp1 & Hs1 & He1).
    apply IH in Hrun as (Hp & Hs & He).
    destruct (makedirs_frame
                (os_path.join_dir ps2_root (if String.eqb rel "." then "" else rel))
                (makedirs (os_path.join_dir wii_root (if String.eqb rel "." then "" else rel)) st))
      as (Hl2 & Hp2 & Hs2).
    destruct (makedirs_frame
                (os_path.join_dir wii_root (if String.eqb rel "." then "" else rel)) st)
      as (Hl3 & Hp3 & Hs3).
    rewrite Hl2, Hl3 in He1. rewrite Hp2, Hp3 in Hp1. rewrite Hs2, Hs3 in Hs1.
    simpl. rewrite !count_app. lia.
Qed.


End counting_facts.

(** C6, as the code has it.  A run that reaches its end prints the
    summary last.  Its first number counts the PNGs whose splitter call
    exited with status zero, its second the files that are not PNGs.  A
    PNG whose splitter call failed is in neither: what accounts for it is
    its [ERROR] line, one for each such file.  The three kinds together are
    all the files of the walk. *)
Theorem summary_counts (cfg : config) (env : environment) (BASE_DIR : string)
    (tool_folder : option (list string)) (mappings_file : option (list ini_line))
    (walk : list (string * list (string * bytes))) (st st' : state) :
  main cfg env BASE_DIR tool_folder mappings_file walk st = Next st' →
  let files := flat_map snd walk in
  ∃ printed,
    stdout st' = printed ++ [Summary (count (counted_processed cfg env) files)
                                     (count counted_skipped files)]
    ∧ processed st' = count (counted_processed cfg env) files
    ∧ skipped st' = count counted_skipped files
    ∧ count is_splitter_error printed
      = count is_splitter_error (stdout st) + count (split_failed cfg env) files
    ∧ count (counted_processed cfg env) files + count counted_skipped files
      + count (split_failed cfg env) files = length files.
Proof.
  intros Hrun files. unfold main in Hrun.
  destruct (find_tool_exe _ _) as [e|tool_exe]; [done|].
  destruct (read_mappings mappings_file) as [e|mappings]; [done|].
  simpl in Hrun.
  destruct (process_walk _ _ _ _ _ _ _ _) as [st1|e st1] eqn:Hwalk; [|done].
  injection Hrun as <-.
  apply process_walk_counts in Hwalk as (Hp & Hs & He). simpl in Hp, Hs, He.
  exists (stdout st1). simpl. fold files in Hp, Hs, He.
  split_and!; [by rewrite Hp, Hs | done | done | | apply kinds_partition].
  rewrite He. f_equal.
  pose proof makedirs_frame as Hmk.
  repeat match goal with
         | |- context [stdout (makedirs ?d ?s)] =>
             destruct (Hmk d s) as (-> & _ & _)
         end.
  done.
Qed.

Lemma summary_counts_witness :
  let walk := [(".", [("rock.png", demo.rock); ("broken.png", demo.rock); ("readme.txt", [])])] in
  let o := main demo.opaque_off demo.env "/repo" (Some ["DolphinTextureExtraction.exe"]) None
             walk demo.fresh in
  o = Next (final o)
  ∧ ∃ printed, stdout (final o) = printed ++ [Summary 1 1]
               ∧ count is_splitter_error printed = 1.
Proof.
  intros walk o.
  assert (o = Next (final o)) as Hrun by (vm_compute; reflexivity).
  split; [exact Hrun|].
  destruct (summary_counts demo.opaque_off demo.env "/repo"
              (Some ["DolphinTextureExtraction.exe"]) None walk demo.fresh (final o) Hrun)
    as (printed & Hlog & _ & _ & Herr & _).
  exists printed. split; [exact Hlog | exact Herr].
Defined.

(** C6 as stated fails.  In a run over the single file [broken.png], on
    which the splitter exits with status 1, the flat copy is written and
    the run reaches its end, but the summary reads 0 processed and 0
    skipped: no count of the summary accounts for the file. *)
Lemma summary_counterexample :
  let walk := [(".", [("broken.png", demo.rock)])] in
  let o := main demo.opaque_off demo.env "/repo" (Some ["DolphinTextureExtraction.exe"]) None
             walk demo.fresh in
  o = Next (final o)
  ∧ length (flat_map snd walk) = 1
  ∧ stdout (final o)
    = [ErrorSplitter (os_path.join "/repo/RemadeTextures" "broken.png"); Summary 0 0]
  ∧ read_output (os_path.join "/repo/GeneratedTextures/PS2/" "broken.png") (final o)
    = Some demo.rock.
Proof. vm_compute. split_and!; reflexivity. Qed.

(** ** The order of the tiles (C7) *)

Section order_facts.

Variables (cfg : config) (mappings : gmap string string).

Lemma place_app files l1 l2 :
  place files (l1 ++ l2)
  = ((place (place files l1).1 l2).1, (place files l1).2 ++ (place (place files l1).1 l2).2).
Proof.
  revert files. induction l1 as [|[name b] l1 IH]; intros files.
  - simpl. by destruct (place files l2).
  - rewrite <-app_comm_cons, !place_cons, IH. done.
Qed.

(** Step 3 on a well-formed scratch directory. *)
Lemma move_tiles_exact src_path wii_sub base_key temp_out st found files :
  temps st !! temp_out = Some found →
  well_formed found →
  outputs st !! wii_sub = Some files →
  let placed := place files (incoming cfg mappings base_key (png_tiles found)) in
  ∃ l' ws,
    move_tiles cfg mappings src_path wii_sub base_key temp_out st
    = inr (State (<[wii_sub := placed.1]> (outputs st)) (<[temp_out := l']> (temps st))
                 (stdout st ++ ws) (processed st) (skipped st),
           placed.2)
    ∧ ws = if decide (png_tiles found = []) then [WarnNoPngs src_path] else [].
Proof.
  intros Htmp Hwf Hdir placed. unfold move_tiles, os_walk. rewrite Htmp.
  rewrite gather_pngs_tiles.
  destruct (png_tiles_readable found Hwf) as [Hnodup Hread].
  destruct (png_tiles found) as [|t tiles] eqn:Htiles.
  - simpl. exists found, [WarnNoPngs src_path]. split; [|done].
    unfold print. destruct st as [o tm lg np ns]. simpl in *.
    by rewrite !insert_id.
  - rewrite decide_False by done.
    destruct (move_pngs_exact cfg mappings base_key wii_sub temp_out (t :: tiles) []
                files found (outputs st) (temps st) (stdout st) (processed st) (skipped st)
                Hnodup Hread) as [l' Hrun].
    exists l', []. split; [|done].
    destruct st as [o tm lg np ns]. simpl in *.
    rewrite !insert_id in Hrun by done. rewrite app_nil_r.
    simpl in Hrun |- *. exact Hrun.
Qed.

End order_facts.

(** C7, as the code has it.  The tiles are taken in the order in which
    the walk over the splitter's directory enumerates them: [gather_pngs]
    keeps the walk's order and sorts nothing, and step 3 places them first
    to last.  Each tile gets the name [unique_dest] finds in the Wii
    directory as the tiles before it left it, so the outcome is determined
    by the enumeration order. *)
Theorem tiles_in_walk_order (cfg : config) (mappings : gmap string string)
    (src_path : path) (wii_sub base_key temp_out : string) (st : state)
    (found : listing) (files : gmap string bytes) :
  temps st !! temp_out = Some found →
  well_formed found →
  outputs st !! wii_sub = Some files →
  let new_pngs := gather_pngs (os_walk temp_out st) in
  let asked := incoming cfg mappings base_key (png_tiles found) in
  new_pngs = filter (λ p, is_png (basename p) = true) (walk_files (os_walk temp_out st))
  ∧ new_pngs = fst <$> png_tiles found
  ∧ (∃ st', move_tiles cfg mappings src_path wii_sub base_key temp_out st
            = inr (st', (place files asked).2)
            ∧ outputs st' = <[wii_sub := (place files asked).1]> (outputs st))
  ∧ ∀ before name b after,
      asked = before ++ (name, b) :: after →
      (place files asked).2 !! length before = Some (free_name (place files before).1 name)
      ∧ (place files asked).1 !! free_name (place files before).1 name = Some b.
Proof.
  intros Htmp Hwf Hdir new_pngs asked. split_and!.
  - apply gather_pngs_filter.
  - unfold new_pngs, os_walk. rewrite Htmp. apply gather_pngs_tiles.
  - destruct (move_tiles_exact cfg mappings src_path wii_sub base_key temp_out st found files
                Htmp Hwf Hdir) as (l' & ws & Hrun & _).
    eexists. split; [exact Hrun | done].
  - intros before name b after Hasked. rewrite Hasked, place_app, place_cons. simpl.
    pose proof (place_spec before files) as (_ & Hlen & _).
    split.
    + rewrite lookup_app_r by lia. by rewrite Hlen, Nat.sub_diag.
    + pose proof (place_spec after
                    (<[free_name (place files before).1 name := b]> (place files before).1))
        as (Hsub & _).
      eapply lookup_weaken; [|exact Hsub]. apply lookup_insert_eq.
Qed.

Lemma tiles_in_walk_order_witness :
  let found := [("/tmp/dte_out_", [("rock_b.png", [x0b]); ("notes.txt", []);
                                    ("rock_a.png", [x0a])])] in
  let st := State {[ "out/Wii/tex" := ∅ ]} {[ "/tmp/dte_out_" := found ]} [] 0 0 in
  temps st !! "/tmp/dte_out_" = Some found
  ∧ well_formed found
  ∧ outputs st !! "out/Wii/tex" = Some ∅
  ∧ gather_pngs (os_walk "/tmp/dte_out_" st)
    = [os_path.join "/tmp/dte_out_" "rock_b.png"; os_path.join "/tmp/dte_out_" "rock_a.png"].
Proof.
  intros found st.
  assert (temps st !! "/tmp/dte_out_" = Some found) as H1 by reflexivity.
  assert (well_formed found) as H2.
  { split; [by_computation|]. repeat constructor; by_computation. }
  assert (outputs st !! "out/Wii/tex" = Some ∅) as H3 by reflexivity.
  split_and!; [exact H1 | exact H2 | exact H3 |].
  destruct (tiles_in_walk_order demo.opaque_off ∅ (os_path.join "in/tex" "rock.png")
              "out/Wii/tex" "rock" "/tmp/dte_out_" st found ∅ H1 H2 H3) as (_ & -> & _).
  reflexivity.
Defined.

(** C7 as stated fails.  The walk lists [rock_b.png] before
    [rock_a.png]; the tiles are gathered and placed in that order, not in
    lexicographic order.  With the mapping applied to the Wii tree both
    tiles ask for the name [boulder.png], and which of them gets it depends
    on the enumeration: the same two files, enumerated the other way round,
    end up under exchanged names. *)
Lemma tiles_order_counterexample :
  let cfg := Config true false in
  let mappings : gmap string string := {[ "rock" := "boulder" ]} in
  let tool produced := Environment (λ _ _, Exited 0 produced) demo.decode demo.encode
                                   (λ _ _, false) in
  let wii produced :=
    outputs (final (process_file cfg (tool produced) mappings "in/tex" "tex" "out/Wii/tex"
                      "out/PS2/tex" "rock.png" demo.rock demo.fresh)) !! "out/Wii/tex" in
  gather_pngs [("/tmp/dte_out_", ["rock_b.png"; "rock_a.png"])]
  = [os_path.join "/tmp/dte_out_" "rock_b.png"; os_path.join "/tmp/dte_out_" "rock_a.png"]
  ∧ String.leb "rock_b.png" "rock_a.png" = false
  ∧ wii [("", [("rock_b.png", [x0b]); ("rock_a.png", [x0a])])]
    = Some {[ "boulder.png" := [x0b]; "boulder_1.png" := [x0a] ]}
  ∧ wii [("", [("rock_a.png", [x0a]); ("rock_b.png", [x0b])])]
    = Some {[ "boulder.png" := [x0a]; "boulder_1.png" := [x0b] ]}.
Proof. vm_compute. split_and!; reflexivity. Qed.

(** ** Which files are taken (C9) *)

Section png_facts.

Variables (cfg : config) (env : environment) (mappings : gmap string string).
Variables (dirpath rel_dir wii_sub ps2_sub : string).

Lemma lower_app (s1 s2 : string) : Str.lower (s1 +:+ s2) = Str.lower s1 +:+ Str.lower s2.
Proof.
  induction s1 as [|c s1 IH]; [done|].
  rewrite str_app_cons. simpl. by rewrite IH, str_app_cons.
Qed.

Lemma lower_length (s : string) : String.length (Str.lower s) = String.length s.
Proof. induction s as [|c s IH]; simpl; [done | by rewrite IH]. Qed.

Lemma endswith_cons (c : ascii) (s suffix : string) :
  Str.endswith (String c s) suffix = String.eqb (String c s) suffix || Str.endswith s suffix.
Proof. reflexivity. Qed.

Lemma endswith_suffix (s suffix : string) :
  Str.endswith s suffix = true ↔ ∃ front, s = front +:+ suffix.
Proof.
  induction s as [|c s IH].
  - change (Str.endswith "" suffix) with (String.eqb "" suffix || false).
    rewrite orb_false_r, String.eqb_eq. split.
    + intros <-. by exists "".
    + intros [[|c front] Heq]; [done|]. by rewrite str_app_cons in Heq.
  - rewrite endswith_cons, orb_true_iff, String.eqb_eq, IH. split.
    + intros [<-|[front ->]]; [by exists ""|]. by exists (String c front).
    + intros [[|c' front] Heq]; [by left|].
      rewrite str_app_cons in Heq. injection Heq as -> ->. right. by exists front.
Qed.

(** Ending in [.png] whatever the case of the letters. *)
Lemma is_png_suffix (name : string) :
  is_png name = true
  ↔ ∃ stem ext, name = stem +:+ ext ∧ String.length ext = 4 ∧ Str.lower ext = ".png".
Proof.
  unfold is_png. rewrite endswith_suffix. split.
  - intros [front Hlow].
    exists (Str.take (String.length front) name), (Str.drop (String.length front) name).
    assert (String.length name = String.length front + 4) as Hlen.
    { rewrite <-(lower_length name), Hlow, str_length_app. done. }
    assert (∀ s n, n ≤ String.length s → String.length (Str.take n s) = n) as Htake.
    { clear. induction s as [|c s IH]; intros [|n] Hn; simpl in *; try done; try lia.
      rewrite IH; [done | lia]. }
    assert (String.length (Str.drop (String.length front) name) = 4) as Hdrop.
    { pose proof (take_drop (String.length front) name) as Hsplit.
      apply (f_equal String.length) in Hsplit.
      rewrite str_length_app, Htake in Hsplit by lia. lia. }
    split_and!; [by rewrite take_drop | done |].
    pose proof (take_drop (String.length front) name) as Hsplit.
    rewrite <-Hsplit, lower_app in Hlow.
    assert (∀ a b a' b' : string, String.length a = String.length a' →
              a +:+ b = a' +:+ b' → b = b') as Hcancel.
    { clear. induction a as [|c a IH]; intros b [|c' a'] b' Hlen Heq; simpl in *; try done.
      rewrite !str_app_cons in Heq. injection Heq as _ Heq. eapply IH; [|done]. lia. }
    eapply Hcancel; [|exact Hlow]. rewrite lower_length, Htake; [done | lia].
  - intros (stem & ext & -> & _ & Hext). exists (Str.lower stem). by rewrite lower_app, Hext.
Qed.

Lemma under_inj (d r1 r2 : string) : under d r1 = under d r2 → r1 = r2.
Proof.
  unfold under.
  destruct (String.eqb_spec r1 "") as [->|H1], (String.eqb_spec r2 "") as [->|H2]; intros Heq.
  - done.
  - apply (f_equal String.length) in Heq. rewrite !str_length_app in Heq. simpl in Heq. lia.
  - apply (f_equal String.length) in Heq. rewrite !str_length_app in Heq. simpl in Heq. lia.
  - by apply (inj (String.append _)), (inj (String.append _)) in Heq.
Qed.

Lemma found_in_well_formed (d : string) (produced : listing) :
  well_formed produced → well_formed (found_in d produced).
Proof.
  intros [Hroots Hnames]. unfold found_in. split.
  - rewrite <-list_fmap_compose.
    apply NoDup_fmap_2_strong; [|by eapply NoDup_fmap_1].
    intros [r1 f1] [r2 f2] H1 H2 Heq. simpl in Heq. apply under_inj in Heq. subst r2.
    f_equal. apply (assoc_NoDup _ _ _ Hroots) in H1, H2. congruence.
  - apply Forall_fmap. eapply Forall_impl; [exact Hnames|]. by intros [r f].
Qed.

Lemma incoming_found_in (base_key d : string) (produced : listing) :
  incoming cfg mappings base_key (png_tiles (found_in d produced))
  = incoming cfg mappings base_key (png_tiles produced).
Proof.
  unfold incoming, png_tiles, found_in.
  induction produced as [|[root files] produced IH]; simpl; [done|].
  rewrite !fmap_app, IH. f_equal.
  rewrite <-!list_fmap_compose. by apply list_fmap_ext.
Qed.

(** A PNG on which the splitter succeeds and leaves a well-formed tree:
    the Wii directory receives the PNGs of that tree and nothing else. *)
Lemma process_file_tiles fname content st flat files produced :
  is_png fname = true →
  outputs st !! ps2_sub = Some flat →
  outputs st !! wii_sub = Some files →
  wii_sub ≠ ps2_sub →
  splitter env fname (filtered cfg env content) = Exited 0 produced →
  well_formed produced →
  let asked := incoming cfg mappings (Str.lower (os_path.splitext fname).1)
                 (png_tiles produced) in
  ∃ st',
    process_file cfg env mappings dirpath rel_dir wii_sub ps2_sub fname content st = Next st'
    ∧ temps st' = temps st
    ∧ outputs st' !! wii_sub = Some (place files asked).1
    ∧ ∀ d, d ≠ wii_sub → d ≠ ps2_sub → outputs st' !! d = outputs st !! d.
Proof.
  intros Hpng Hdir Hwii Hne Hsplit Hwf asked.
  pose proof (process_file_png cfg env mappings dirpath rel_dir wii_sub ps2_sub
                fname content st flat Hpng Hdir) as Hrun.
  cbv zeta in Hrun. rewrite Hsplit, Z.eqb_refl in Hrun.
  set (st2 := flat_copied cfg env ps2_sub fname content flat st) in *.
  set (d2 := (mkdtemp "dte_out_" st2).1) in *.
  set (st3 := set_temps _ st2) in *.
  set (key := Str.lower (os_path.splitext fname).1) in *.
  destruct (move_tiles_exact cfg mappings (os_path.join dirpath fname) wii_sub key d2 st3
              (found_in d2 produced) files) as (l' & ws & Hmove & _).
  { unfold st3. simpl. apply lookup_insert_eq. }
  { by apply found_in_well_formed. }
  { unfold st3, st2, flat_copied. simpl. by rewrite lookup_insert_ne. }
  rewrite incoming_found_in in Hmove. fold asked in Hmove.
  unfold place_outputs in Hrun. rewrite Hmove in Hrun.
  rewrite (rename_ps2_spec env mappings ps2_sub key (free_name flat fname)
             (filtered cfg env content) (<[free_name flat fname := filtered cfg env content]> flat))
    in Hrun; cycle 1.
  { unfold rmtree, st3, st2, flat_copied. simpl.
    rewrite lookup_insert_ne by done. apply lookup_insert_eq. }
  { apply lookup_insert_eq. }
  destruct (renamed _ _ _ _ _ _ _) as [[n' flat'] wr]. simpl in Hrun.
  eexists. split; [exact Hrun|].
  destruct (process_file_next cfg env mappings dirpath rel_dir wii_sub ps2_sub
              fname content st _ Hpng Hrun) as (Htemps & _).
  split_and!; [exact Htemps | |].
  - simpl. rewrite lookup_insert_ne by done. apply lookup_insert_eq.
  - intros d Hd1 Hd2. simpl. unfold st3, st2, flat_copied. simpl.
    by rewrite !lookup_insert_ne.
Qed.

End png_facts.

Lemma png_tiles_length (produced : listing) :
  length (png_tiles produced)
  = length (filter (λ fb : string * bytes, is_png fb.1 = true) (flat_map snd produced)).
Proof.
  unfold png_tiles. induction produced as [|[root files] produced IH]; simpl; [done|].
  by rewrite filter_app, !length_app, length_fmap, IH.
Qed.

(** C9.  A name counts as a PNG exactly when it ends in [.png] with any
    mix of upper and lower case.  A file of the input tree that is not a
    PNG only raises the skipped count: the output tree, the temporary
    directories, the log and the processed count stay as they are.  A PNG
    goes through the pipeline: it gets its entry in the flat directory
    and, when its iteration ends normally, is not counted as skipped.  Of
    the files the splitter leaves behind, [gather_pngs] finds exactly those
    with a PNG name; when the splitter succeeds with a well-formed tree the
    Wii directory receives one entry for each of these and nothing else,
    and the scratch directories, with every other file of the tool, are
    gone. *)
Theorem only_pngs_are_taken (cfg : config) (env : environment)
    (mappings : gmap string string) (dirpath rel_dir wii_sub ps2_sub fname : string)
    (content : bytes) (st : state) :
  let o := process_file cfg env mappings dirpath rel_dir wii_sub ps2_sub fname content st in
  (is_png fname = true
   ↔ ∃ stem ext, fname = stem +:+ ext ∧ String.length ext = 4 ∧ Str.lower ext = ".png")
  ∧ (is_png fname = false →
     o = Next (State (outputs st) (temps st) (stdout st) (processed st) (S (skipped st))))
  ∧ (is_png fname = true →
     (∀ st', o = Next st' → skipped st' = skipped st)
     ∧ ∀ flat, outputs st !! ps2_sub = Some flat → wii_sub ≠ ps2_sub →
         ∃ n, flat !! n = None
              ∧ outputs (final o) !! ps2_sub = Some (<[n := filtered cfg env content]> flat))
  ∧ (∀ walk, gather_pngs walk
             = filter (λ p, is_png (basename p) = true) (walk_files walk))
  ∧ (is_png fname = true →
     ∀ flat files produced,
       outputs st !! ps2_sub = Some flat →
       outputs st !! wii_sub = Some files →
       wii_sub ≠ ps2_sub →
       splitter env fname (filtered cfg env content) = Exited 0 produced →
       well_formed produced →
       let asked := incoming cfg mappings (Str.lower (os_path.splitext fname).1)
                      (png_tiles produced) in
       ∃ st', o = Next st'
              ∧ temps st' = temps st
              ∧ outputs st' !! wii_sub = Some (place files asked).1
              ∧ files ⊆ (place files asked).1
              ∧ size (place files asked).1
                = size files + length (filter (λ fb : string * bytes, is_png fb.1 = true)
                                              (flat_map snd produced))).
Proof.
  intros o. split_and!.
  - apply is_png_suffix.
  - intros Hpng. unfold o. by rewrite process_file_skip.
  - intros Hpng. split.
    + intros st' Hnext.
      by destruct (process_file_next cfg env mappings dirpath rel_dir wii_sub ps2_sub
                     fname content st st' Hpng Hnext) as (_ & Hskip & _).
    + intros flat Hdir Hne.
      destruct (process_file_flat cfg env mappings dirpath rel_dir wii_sub ps2_sub
                  fname content st flat Hpng Hdir Hne) as (n & Hfree & Hout & _).
      by exists n.
  - apply gather_pngs_filter.
  - intros Hpng flat files produced Hdir Hwii Hne Hsplit Hwf asked.
    destruct (process_file_tiles cfg env mappings dirpath rel_dir wii_sub ps2_sub
                fname content st flat files produced Hpng Hdir Hwii Hne Hsplit Hwf)
      as (st' & Hrun & Htemps & Hout & _).
    exists st'. pose proof (place_spec asked files) as (Hsub & _ & Hsize & _).
    split_and!; [done | done | done | done |].
    rewrite Hsize. f_equal. unfold asked, incoming.
    by rewrite length_fmap, png_tiles_length.
Qed.

Lemma only_pngs_are_taken_witness :
  is_png "readme.txt" = false
  ∧ is_png "Rock.PNG" = true
  ∧ process_file demo.opaque_off demo.env ∅ "in/tex" "tex" "out/Wii/tex" "out/PS2/tex"
      "readme.txt" [] demo.fresh
    = Next (State (outputs demo.fresh) ∅ [] 0 1)
  ∧ ∃ st', process_file demo.opaque_off demo.env ∅ "in/tex" "tex" "out/Wii/tex" "out/PS2/tex"
             "Rock.PNG" demo.rock demo.fresh
           = Next st'
           ∧ outputs st' !! "out/Wii/tex"
             = Some {[ "Rock_0.png" := [x40]; "Rock_1.PNG" := [xff; x07] ]}.
Proof.
  assert (is_png "readme.txt" = false) as H1 by reflexivity.
  assert (is_png "Rock.PNG" = true) as H2 by reflexivity.
  split_and!; [exact H1 | exact H2 | |].
  - destruct (only_pngs_are_taken demo.opaque_off demo.env ∅ "in/tex" "tex" "out/Wii/tex"
                "out/PS2/tex" "readme.txt" [] demo.fresh) as (_ & Hskip & _).
    exact (Hskip H1).
  - destruct (only_pngs_are_taken demo.opaque_off demo.env ∅ "in/tex" "tex" "out/Wii/tex"
                "out/PS2/tex" "Rock.PNG" demo.rock demo.fresh) as (_ & _ & _ & _ & Htiles).
    destruct (Htiles H2 ∅ ∅
                [("", [("Rock_0.png", [x40]); ("Rock_1.PNG", [xff; x07]); ("notes.txt", [])])])
      as (st' & Hrun & _ & Hout & _).
    + reflexivity.
    + reflexivity.
    + discriminate.
    + reflexivity.
    + split; [by_computation|]. repeat constructor; by_computation.
    + exists st'. split; [exact Hrun|]. rewrite Hout. vm_compute. reflexivity.
Defined.

(** ** The mapping file (C8) *)

Section mapping_facts.

(** The loop of [read_mappings]: the last entry with a given non-empty
    normal key decides what is stored under it. *)
Lemma read_mappings_loop (entries : list (string * string)) (key val : string) :
  foldl (λ (m : gmap string string) kv,
           let key := Str.lower (Str.strip kv.1) in
           let val := Str.strip kv.2 in
           let val := (os_path.splitext val).1 in
           if negb (String.eqb key "") then <[key := val]> m else m) ∅ entries !! key
  = Some val
  ↔ key ≠ ""
    ∧ ∃ i k v, entries !! i = Some (k, v) ∧ normal_key k = key ∧ normal_value v = val
               ∧ ∀ j k' v', i < j → entries !! j = Some (k', v') → normal_key k' ≠ key.
Proof.
  induction entries as [|[k v] entries IH] using rev_ind.
  - simpl. rewrite lookup_empty. split; [done|]. by intros (_ & i & k & v & Hi & _).
  - rewrite foldl_snoc. simpl. fold (normal_key k) (normal_value v).
    set (M := foldl _ ∅ entries) in *.
    assert (normal_key k = key ∧ key ≠ "" ∨ (normal_key k ≠ key ∨ (normal_key k = "" ∧ key = "")))
      as [[Hk Hkey]|Hother].
    { destruct (decide (normal_key k = key)) as [<-|]; [|auto].
      destruct (decide (normal_key k = "")); auto. }
    + subst key. apply String.eqb_neq in Hkey as Hneq. rewrite Hneq. simpl.
      rewrite lookup_insert_eq. split.
      * intros [= <-]. split; [done|]. exists (length entries), k, v.
        split_and!; [by rewrite lookup_app_r, Nat.sub_diag | done | done |].
        intros j k' v' Hj Hlook. apply lookup_lt_Some in Hlook.
        rewrite length_app in Hlook. simpl in Hlook. lia.
      * intros (_ & i & k0 & v0 & Hi & Hk0 & Hv0 & Hlast).
        destruct (decide (i < length entries)) as [Hlt|Hge].
        -- exfalso. apply (Hlast (length entries) k v Hlt); [|done].
           by rewrite lookup_app_r, Nat.sub_diag.
        -- apply lookup_lt_Some in Hi as Hlen. rewrite length_app in Hlen. simpl in Hlen.
           assert (i = length entries) as -> by lia.
           rewrite lookup_app_r, Nat.sub_diag in Hi by lia. simpl in Hi.
           injection Hi as <- <-. by rewrite Hv0.
    + assert ((if negb (String.eqb (normal_key k) "") then <[normal_key k := normal_value v]> M
               else M) !! key = M !! key) as ->.
      { destruct (String.eqb_spec (normal_key k) "") as [Hempty|Hfull]; simpl; [done|].
        destruct Hother as [Hne|[Hempty _]]; [by rewrite lookup_insert_ne | done]. }
      rewrite IH. split.
      * intros (Hkey & i & k0 & v0 & Hi & Hk0 & Hv0 & Hlast). split; [done|].
        exists i, k0, v0. split_and!; [|done|done|].
        -- by apply lookup_app_l_Some.
        -- intros j k' v' Hj Hlook.
           destruct (decide (j < length entries)) as [Hlt|Hge].
           ++ rewrite lookup_app_l in Hlook by done. by eapply Hlast.
           ++ apply lookup_lt_Some in Hlook as Hlen. rewrite length_app in Hlen.
              simpl in Hlen. assert (j = length entries) as -> by lia.
              rewrite lookup_app_r, Nat.sub_diag in Hlook by lia. simpl in Hlook.
              injection Hlook as <- <-.
              destruct Hother as [Hne|[_ Hempty]]; [done | congruence].
      * intros (Hkey & i & k0 & v0 & Hi & Hk0 & Hv0 & Hlast). split; [done|].
        destruct (decide (i < length entries)) as [Hlt|Hge].
        -- exists i, k0, v0. rewrite lookup_app_l in Hi by done.
           split_and!; [done..|].
           intros j k' v' Hj Hlook. apply (Hlast j k' v' Hj).
           by apply lookup_app_l_Some.
        -- apply lookup_lt_Some in Hi as Hlen. rewrite length_app in Hlen. simpl in Hlen.
           assert (i = length entries) as -> by lia.
           rewrite lookup_app_r, Nat.sub_diag in Hi by lia. simpl in Hi.
           injection Hi as <- <-.
           destruct Hother as [Hne|[_ Hempty]]; [done | congruence].
Qed.

(** Once an option of the current section has been seen, the strict
    parser rejects a second line for it. *)
Lemma _read_second between :
  ∀ sectname optname optval after elements_added e cfg,
    Forall (λ l, is_option_line l = true) between →
    (sectname, Some (Str.lower (Str.rstrip optname))) ∈ elements_added →
    ∃ err, _read (between ++ OptionLine optname optval :: after) (Some sectname)
                 elements_added e cfg = inl err.
Proof.
  induction between as [|[header|k v] between IH];
    intros sectname optname optval after elements_added e cfg Hopts Hseen.
  - simpl. rewrite bool_decide_true by done. eauto.
  - apply Forall_cons in Hopts as [Hopt _]. done.
  - apply Forall_cons in Hopts as [_ Hopts]. simpl.
    case_bool_decide; [eauto|].
    apply IH; [done|]. by apply elem_of_cons; right.
Qed.

(** The strict parser rejects a section with two lines for one option. *)
Lemma _read_duplicate before :
  ∀ k1 v1 between k2 v2 after cursect elements_added e cfg,
    Forall (λ l, is_option_line l = true) between →
    Str.lower (Str.rstrip k1) = Str.lower (Str.rstrip k2) →
    ∃ err, _read (before ++ OptionLine k1 v1 :: between ++ OptionLine k2 v2 :: after)
                 cursect elements_added e cfg = inl err.
Proof.
  induction before as [|[header|k v] before IH];
    intros k1 v1 between k2 v2 after cursect elements_added e cfg Hopts Hsame.
  - simpl. destruct cursect as [sectname|]; [|eauto].
    case_bool_decide; [eauto|].
    apply _read_second; [done|]. rewrite <-Hsame. apply elem_of_cons; by left.
  - simpl. repeat case_match; eauto.
  - simpl. destruct cursect as [sectname|]; [|eauto].
    case_bool_decide; eauto.
Qed.

End mapping_facts.

(** C8, as the code has it.  Without a mapping file [read_mappings]
    returns the empty mapping.  With a file the parser accepts, the mapping
    holds, for the entries the parser delivers for section [Mappings]: under
    each non-empty lower-cased, trimmed key the trimmed value without its
    extension, taken from the last entry with that key; an entry whose key
    is empty after trimming is dropped.  A file in which one section has
    two lines for the same option, compared after lower-casing, is not
    accepted: [ConfigParser()] is strict, the error leaves [read_mappings],
    and no entry wins. *)
Theorem read_mappings_entries :
  read_mappings None = inr ∅
  ∧ (∀ lines m,
       read_mappings (Some lines) = inr m →
       ∃ cfg,
         ConfigParser_read lines = inr cfg
         ∧ ∀ key val,
             m !! key = Some val
             ↔ key ≠ ""
               ∧ ∃ i k v,
                   (if contains cfg "Mappings" then items cfg "Mappings" else []) !! i
                   = Some (k, v)
                   ∧ normal_key k = key ∧ normal_value v = val
                   ∧ ∀ j k' v',
                       i < j →
                       (if contains cfg "Mappings" then items cfg "Mappings" else []) !! j
                       = Some (k', v') →
                       normal_key k' ≠ key)
  ∧ (∀ before k1 v1 between k2 v2 after,
       Forall (λ l, is_option_line l = true) between →
       Str.lower (Str.rstrip k1) = Str.lower (Str.rstrip k2) →
       ∃ err, read_mappings
                (Some (before ++ OptionLine k1 v1 :: between ++ OptionLine k2 v2 :: after))
              = inl err).
Proof.
  split_and!.
  - reflexivity.
  - intros lines m Hread. unfold read_mappings in Hread.
    destruct (ConfigParser_read lines) as [err|cfg]; [done|].
    exists cfg. split; [done|]. intros key val.
    destruct (contains cfg "Mappings").
    + injection Hread as <-. apply read_mappings_loop.
    + injection Hread as <-. rewrite lookup_empty. split; [done|].
      by intros (_ & i & k & v & Hi & _).
  - intros before k1 v1 between k2 v2 after Hopts Hsame. unfold read_mappings, ConfigParser_read.
    destruct (_read_duplicate before k1 v1 between k2 v2 after None [] false (Parser [] [])
                Hopts Hsame) as [err ->].
    eauto.
Qed.

Lemma read_mappings_entries_witness :
  let lines := [SectionLine "Mappings"; OptionLine "Rock" " boulder.png ";
                OptionLine "moss " "lichen"] in
  read_mappings (Some lines) = inr {[ "rock" := "boulder"; "moss" := "lichen" ]}
  ∧ ∃ i k v, items (Parser [] [("Mappings", [("rock", "boulder.png"); ("moss", "lichen")])])
                   "Mappings" !! i = Some (k, v)
             ∧ normal_key k = "rock" ∧ normal_value v = "boulder".
Proof.
  intros lines.
  assert (read_mappings (Some lines) = inr {[ "rock" := "boulder"; "moss" := "lichen" ]})
    as Hread by (vm_compute; reflexivity).
  split; [exact Hread|].
  destruct read_mappings_entries as (_ & Hentries & _).
  destruct (Hentries lines _ Hread) as (cfg & Hcfg & Hiff).
  assert (cfg = Parser [] [("Mappings", [("rock", "boulder.png"); ("moss", "lichen")])]) as ->.
  { vm_compute in Hcfg. by injection Hcfg as <-. }
  destruct (proj1 (Hiff "rock" "boulder") eq_refl) as (_ & i & k & v & Hi & Hk & Hv & _).
  exists i, k, v. split_and!; [exact Hi | exact Hk | exact Hv].
Defined.

(** C8 as stated fails.  For a file whose section [Mappings] names the
    key [rock] twice, be it with different case, the last occurrence does
    not win: the parser raises [DuplicateOptionError] and [read_mappings]
    returns no mapping at all. *)
Lemma read_mappings_counterexample :
  read_mappings (Some [SectionLine "Mappings"; OptionLine "rock" "stone";
                       OptionLine "Rock" "boulder"])
  = inl DuplicateOptionError
  ∧ read_mappings (Some [SectionLine "Mappings"; OptionLine "rock" "stone";
                         OptionLine "Rock" "boulder"])
    ≠ inr {[ "rock" := "boulder" ]}.
Proof. split; [vm_compute; reflexivity | vm_compute; discriminate]. Qed.

(** * Further properties *)

(** ** What is kept in the output tree *)

Section keep_facts.

Implicit Types (st : state) (p q : path) (b : bytes).

Lemma keeps_files_refl st : keeps_files st st.
Proof. by intros q b. Qed.

Lemma keeps_files_trans st1 st2 st3 :
  keeps_files st1 st2 → keeps_files st2 st3 → keeps_files st1 st3.
Proof. intros H12 H23 q b Hq. by apply H23, H12. Qed.

Lemma read_write_ne st st' p q b :
  write_output p b st = Some st' → q ≠ p → read_output q st' = read_output q st.
Proof.
  unfold write_output, read_output.
  destruct (outputs st !! dirname p) as [files|] eqn:Hdir; [|done].
  intros [= <-] Hne. simpl.
  destruct (decide (dirname q = dirname p)) as [Heq|Hdiff].
  - rewrite Heq, lookup_insert_eq, Hdir.
    rewrite lookup_insert_ne; [done|]. intros Hname. apply Hne.
    destruct p, q; simpl in *; congruence.
  - by rewrite lookup_insert_ne.
Qed.

Lemma write_output_frame st st' p b :
  write_output p b st = Some st' →
  dom (outputs st') = dom (outputs st) ∧ temps st' = temps st ∧ stdout st' = stdout st
  ∧ processed st' = processed st ∧ skipped st' = skipped st.
Proof.
  unfold write_output.
  destruct (outputs st !! dirname p) as [files|] eqn:Hdir; [|done].
  intros [= <-]. simpl. split_and!; try done.
  by apply dom_insert_lookup_L.
Qed.

Lemma read_remove_ne st p q :
  q ≠ p → read_output q (remove_output p st) = read_output q st.
Proof.
  intros Hne. unfold read_output, remove_output. simpl.
  destruct (decide (dirname q = dirname p)) as [Heq|Hdiff].
  - rewrite Heq, lookup_alter_eq.
    destruct (outputs st !! dirname p) as [files|]; simpl; [|done].
    rewrite lookup_delete_ne; [done|]. intros Hname. apply Hne.
    destruct p, q; simpl in *; congruence.
  - by rewrite lookup_alter_ne.
Qed.

(** Writing where [unique_dest] says keeps every file. *)
Lemma write_unique_keeps st st' d f b :
  write_output (unique_dest (outputs st) d f) b st = Some st' → keeps_files st st'.
Proof.
  intros Hw q c Hq.
  destruct (unique_dest_spec (outputs st) d f) as (n & Heq & Hfree & _).
  rewrite Heq in Hw.
  rewrite (write_output_fresh st st' _ q b Hfree Hw); [done|].
  rewrite exists_read. apply bool_decide_eq_true. by rewrite Hq.
Qed.

End keep_facts.

Section keep_pipeline.

Variables (cfg : config) (env : environment) (mappings : gmap string string).

Implicit Types (st : state) (p q : path) (b : bytes).

(** However the loop of step 3 ends, no file and no directory of the
    output tree is lost. *)
Lemma move_pngs_keeps base_key wii_sub temp_out pngs :
  ∀ acc st,
    let st' := moved_state (move_pngs cfg mappings base_key wii_sub temp_out pngs acc st) in
    keeps_files st st' ∧ dom (outputs st') = dom (outputs st).
Proof.
  induction pngs as [|p pngs IH]; intros acc st; simpl.
  - split; [apply keeps_files_refl | done].
  - set (dest := unique_dest _ _ _).
    unfold shutil_move.
    destruct (temp_read temp_out p st) as [b|]; simpl;
      [|split; [apply keeps_files_refl | done]].
    destruct (write_output dest b st) as [sw|] eqn:Hw; simpl;
      [|split; [apply keeps_files_refl | done]].
    specialize (IH (acc ++ [basename dest]) (temp_remove temp_out p sw)).
    simpl in IH. destruct IH as [Hkeep Hdom].
    pose proof (write_unique_keeps _ _ _ _ _ Hw) as Hkeep1.
    apply write_output_frame in Hw as (Hdom1 & _).
    split.
    + eapply keeps_files_trans; [|exact Hkeep]. exact Hkeep1.
    + by rewrite Hdom.
Qed.

Lemma move_tiles_keeps src_path wii_sub base_key temp_out st :
  let st' := moved_state (move_tiles cfg mappings src_path wii_sub base_key temp_out st) in
  keeps_files st st' ∧ dom (outputs st') = dom (outputs st).
Proof.
  unfold move_tiles.
  destruct (gather_pngs (os_walk temp_out st)) as [|p pngs].
  - simpl. split; [by intros q b | done].
  - apply move_pngs_keeps.
Qed.

(** Step 4 removes at most the flat copy it is asked to rename, and
    touches nothing but the output tree and the log. *)
Lemma rename_ps2_frame ps2_sub base_key src st :
  let st' := (rename_ps2 env mappings ps2_sub base_key src st).2 in
  (∀ q b, q ≠ src → read_output q st = Some b → read_output q st' = Some b)
  ∧ dom (outputs st') = dom (outputs st)
  ∧ temps st' = temps st ∧ processed st' = processed st ∧ skipped st' = skipped st.
Proof.
  unfold rename_ps2.
  destruct (mappings !! base_key) as [mapped_base|]; simpl; [|done].
  set (dst := unique_dest _ _ _).
  unfold os_replace.
  destruct (replace_refused env src dst); simpl; [done|].
  destruct (read_output src st) as [c|] eqn:Hsrc; simpl; [|done].
  destruct (write_output dst c (remove_output src st)) as [sw|] eqn:Hw; simpl; [|done].
  pose proof (write_output_frame _ _ _ _ Hw) as (Hdom & Htmp & _ & Hnp & Hns).
  split_and!; try done.
  - intros q b Hne Hq.
    rewrite (read_write_ne _ _ _ _ _ Hw), read_remove_ne by
      (try done; intros ->;
       destruct (unique_dest_spec (outputs st) ps2_sub (mapped_base +:+ ".png"))
         as (n & Heq & Hfree & _);
       fold dst in Heq; rewrite <-Heq, exists_read, Hq in Hfree;
       by apply bool_decide_eq_false in Hfree as []).
    done.
  - rewrite Hdom. unfold remove_output. simpl. apply dom_alter_L.
Qed.

(** Steps 3 and 4, however they end. *)
Lemma place_outputs_frame src_path rel_dir wii_sub ps2_sub fname base_key temp_out src st :
  let st' := completed (place_outputs cfg env mappings src_path rel_dir wii_sub ps2_sub
                          fname base_key temp_out src st) in
  (∀ q b, q ≠ src → read_output q st = Some b → read_output q st' = Some b)
  ∧ dom (outputs st') = dom (outputs st)
  ∧ (∀ k, k ≠ temp_out → temps st' !! k = temps st !! k)
  ∧ skipped st' = skipped st.
Proof.
  unfold place_outputs.
  pose proof (move_tiles_keeps src_path wii_sub base_key temp_out st) as [Hkeep Hdom].
  pose proof (move_tiles_frame cfg mappings wii_sub src_path base_key temp_out st)
    as (_ & Htmp & _ & _ & Hns).
  destruct (move_tiles _ _ _ _ _ _ _) as [[e sm]|[sm names]]; simpl in *.
  - split_and!; try done. intros q b _. apply Hkeep.
  - pose proof (rename_ps2_frame ps2_sub base_key src (rmtree temp_out sm))
      as (Hkeep2 & Hdom2 & Htmp2 & _ & Hns2).
    destruct (rename_ps2 _ _ _ _ _ _) as [dest sr]. simpl in *.
    split_and!.
    + intros q b Hne Hq. apply Hkeep2; [done|]. by apply Hkeep.
    + by rewrite Hdom2.
    + intros k Hk. rewrite Htmp2, lookup_delete_ne by done. by apply Htmp.
    + by rewrite Hns2.
Qed.

Variables (dirpath rel_dir wii_sub ps2_sub : string).

(** A PNG whose mirror directory is missing: the copy fails, the scratch
    directory is released and only the opacity warning, if any, has been
    printed. *)
Lemma process_file_no_dir_state fname content st :
  is_png fname = true →
  outputs st !! ps2_sub = None →
  process_file cfg env mappings dirpath rel_dir wii_sub ps2_sub fname content st
  = Raise FileNotFoundError
      (State (outputs st) (temps st)
         (stdout st ++ filter_warning cfg env
                         (os_path.join (mkdtemp "dte_src_" st).1 fname) content)
         (processed st) (skipped st)).
Proof.
  intros Hpng Hdir. unfold process_file. fold (is_png fname). rewrite Hpng. simpl.
  unfold process_body.
  rewrite scratch_copy_filtered by apply fresh_string_fresh.
  unfold copy2_out, temp_read. simpl.
  rewrite lookup_insert_eq, listing_get_single.
  unfold write_output. simpl.
  rewrite unique_dest_dirname, Hdir. simpl.
  unfold rmtree, set_temps. simpl.
  rewrite delete_insert_eq, delete_id by apply fresh_string_fresh. done.
Qed.

(** One input file, however its iteration ends: the output tree keeps
    its directories and every file it had; the temporary area keeps what
    it had, the scratch source directory is gone and at most the
    splitter's directory is added. *)
Lemma process_file_frame fname content st :
  let o := process_file cfg env mappings dirpath rel_dir wii_sub ps2_sub fname content st in
  keeps_files st (final o)
  ∧ dom (outputs (final o)) = dom (outputs st)
  ∧ temps st ⊆ temps (final o)
  ∧ (∀ k, is_Some (temps (final o) !! k) → is_Some (temps st !! k) ∨
       ∃ flat, outputs st !! ps2_sub = Some flat
               ∧ k = (mkdtemp "dte_out_" (flat_copied cfg env ps2_sub fname content flat st)).1)
  ∧ temps (final o) !! (mkdtemp "dte_src_" st).1 = None.
Proof.
  intros o. unfold o.
  assert (temps st !! (mkdtemp "dte_src_" st).1 = None) as Hd by apply fresh_string_fresh.
  destruct (is_png fname) eqn:Hpng; cycle 1.
  { rewrite process_file_skip by done. simpl.
    split_and!; [by intros q b | done | done | auto | done]. }
  destruct (outputs st !! ps2_sub) as [flat|] eqn:Hdir; cycle 1.
  { rewrite process_file_no_dir_state by done. simpl.
    split_and!; [by intros q b | done | done | auto | done]. }
  rewrite (process_file_png cfg env mappings dirpath rel_dir wii_sub ps2_sub
             fname content st flat Hpng Hdir).
  set (c := filtered cfg env content).
  set (d := (mkdtemp "dte_src_" st).1) in *.
  set (st2 := flat_copied cfg env ps2_sub fname content flat st).
  set (d2 := (mkdtemp "dte_out_" st2).1).
  assert (temps st2 !! d2 = None) as Hd2 by apply fresh_string_fresh.
  assert (temps st2 = <[d := [(d, [(fname, c)])]]> (temps st)) as Ht2 by reflexivity.
  assert (d2 ≠ d) as Hne.
  { intros Heq. rewrite Heq, Ht2, lookup_insert_eq in Hd2. done. }
  assert (temps st !! d2 = None) as Hd2'.
  { rewrite Ht2, lookup_insert_ne in Hd2; done. }
  pose proof (free_name_fresh flat fname) as Hn1.
  set (n1 := free_name flat fname) in *.
  assert (keeps_files st st2) as Hkeep2.
  { intros q b. unfold read_output, st2, flat_copied. simpl.
    destruct (decide (dirname q = ps2_sub)) as [->|Hq].
    - rewrite lookup_insert_eq, Hdir. intros Hb.
      rewrite lookup_insert_ne; [done|]. intros Heq. rewrite <-Heq in Hb.
      unfold n1 in Hn1. congruence.
    - by rewrite lookup_insert_ne. }
  assert (dom (outputs st2) = dom (outputs st)) as Hdom2.
  { unfold st2, flat_copied. simpl. by apply dom_insert_lookup_L. }
  destruct (splitter env fname c) as [returncode produced|] eqn:Hsplit.
  - destruct (returncode =? 0)%Z eqn:Hrc.
    + set (st3 := set_temps _ st2).
      pose proof (place_outputs_frame (os_path.join dirpath fname) rel_dir wii_sub ps2_sub
                    fname (Str.lower (os_path.splitext fname).1) d2
                    (os_path.join ps2_sub n1) st3) as (Hkeep & Hdom & Htmp & _).
      simpl in Hkeep, Hdom, Htmp.
      set (pl := place_outputs _ _ _ _ _ _ _ _ _ _ _ _) in *.
      assert (final (finally d pl) = rmtree d (completed pl)) as -> by by destruct pl.
      simpl. split_and!.
      * intros q b Hq. apply Hkeep; [|by apply Hkeep2].
        intros ->. unfold read_output in Hq. simpl in Hq. rewrite Hdir in Hq. congruence.
      * by rewrite Hdom.
      * apply map_subseteq_spec. intros k l Hk.
        assert (k ≠ d) by (intros ->; congruence).
        assert (k ≠ d2) by (intros ->; congruence).
        rewrite lookup_delete_ne, Htmp by done. unfold st3. simpl.
        rewrite !lookup_insert_ne by done. done.
      * intros k Hk.
        destruct (decide (k = d)) as [->|Hkd]; [by rewrite lookup_delete_eq in Hk; destruct Hk|].
        rewrite lookup_delete_ne in Hk by done.
        destruct (decide (k = d2)) as [->|Hkd2]; [right; eauto|].
        rewrite Htmp in Hk by done. unfold st3 in Hk. simpl in Hk.
        rewrite !lookup_insert_ne in Hk by done. auto.
      * apply lookup_delete_eq.
    + simpl. split_and!; [exact Hkeep2 | done | done | auto | done].
  - simpl. split_and!; [exact Hkeep2 | done | | | ].
    + by apply insert_subseteq.
    + intros k Hk. destruct (decide (k = d2)) as [->|Hkd2]; [right; eauto|].
      rewrite lookup_insert_ne in Hk by done. auto.
    + by rewrite lookup_insert_ne.
Qed.

End keep_pipeline.

Section keep_runs.

Variables (cfg : config) (env : environment) (mappings : gmap string string).

Implicit Types (st : state) (walk : list (string * list (string * bytes))).

(** The temporary area after one input file. *)
Lemma process_file_temps dirpath rel_dir wii_sub ps2_sub fname content st :
  let o := process_file cfg env mappings dirpath rel_dir wii_sub ps2_sub fname content st in
  temps st ⊆ temps (final o)
  ∧ size (temps (final o)) ≤ S (size (temps st))
  ∧ ∀ st', o = Next st' → temps st' = temps st.
Proof.
  intros o.
  pose proof (process_file_frame cfg env mappings dirpath rel_dir wii_sub ps2_sub
                fname content st) as (_ & _ & Hsub & Hnew & _).
  fold o in Hsub, Hnew. split_and!; [done | |].
  - destruct (outputs st !! ps2_sub) as [flat|] eqn:Hdir.
    + set (k := (mkdtemp "dte_out_" (flat_copied cfg env ps2_sub fname content flat st)).1).
      assert (dom (temps (final o)) ⊆@{gset string} dom (temps st) ∪ {[k]}) as Hdom.
      { intros k' Hk'%elem_of_dom. apply Hnew in Hk' as [Hold|(flat' & [= <-] & ->)].
        - apply elem_of_union_l. by apply elem_of_dom.
        - apply elem_of_union_r. by apply elem_of_singleton. }
      apply subseteq_size in Hdom. rewrite !size_dom in Hdom.
      etrans; [exact Hdom|]. rewrite size_union_alt.
      pose proof (subseteq_size ({[k]} ∖ dom (temps st)) ({[k]} : gset string)) as Hle.
      rewrite size_singleton, size_dom in *. 
      assert (size ({[k]} ∖ dom (temps st) : gset string) ≤ 1)
        by (apply Hle; by apply subseteq_difference_l).
      lia.
    + assert (dom (temps (final o)) ⊆@{gset string} dom (temps st)) as Hdom.
      { intros k' Hk'%elem_of_dom. apply Hnew in Hk' as [Hold|(flat' & [=] & _)].
        by apply elem_of_dom. }
      apply subseteq_size in Hdom. rewrite !size_dom in Hdom. lia.
  - intros st' Hrun. unfold o in Hrun.
    destruct (is_png fname) eqn:Hpng.
    + by apply (process_file_next cfg env mappings dirpath rel_dir wii_sub ps2_sub
                  fname content st st' Hpng) in Hrun as (-> & _).
    + rewrite process_file_skip in Hrun by done. by injection Hrun as <-.
Qed.

Lemma process_files_frame dirpath rel_dir wii_sub ps2_sub files :
  ∀ st,
    let o := process_files cfg env mappings dirpath rel_dir wii_sub ps2_sub files st in
    keeps_files st (final o)
    ∧ dom (outputs (final o)) = dom (outputs st)
    ∧ temps st ⊆ temps (final o)
    ∧ size (temps (final o)) ≤ S (size (temps st))
    ∧ ∀ st', o = Next st' → temps st' = temps st.
Proof.
  induction files as [|[fname content] files IH]; intros st; simpl.
  - split_and!; [apply keeps_files_refl | done | done | lia |].
    by intros st' [= <-].
  - pose proof (process_file_frame cfg env mappings dirpath rel_dir wii_sub ps2_sub
                  fname content st) as (Hkeep & Hdom & _).
    pose proof (process_file_temps dirpath rel_dir wii_sub ps2_sub fname content st)
      as (Hsub & Hsize & Hnext).
    destruct (process_file _ _ _ _ _ _ _ _ _ _) as [st1|e st1]; simpl in *.
    + specialize (IH st1). simpl in IH.
      destruct IH as (Hkeep' & Hdom' & Hsub' & Hsize' & Hnext').
      rewrite (Hnext st1 eq_refl) in *.
      split_and!; [by eapply keeps_files_trans | by rewrite Hdom' | done | done | done].
    + split_and!; [done | done | done | done | done].
Qed.

Lemma makedirs_keeps d st :
  keeps_files st (makedirs d st)
  ∧ dom (outputs (makedirs d st)) = {[d]} ∪ dom (outputs st)
  ∧ temps (makedirs d st) = temps st.
Proof.
  unfold makedirs.
  destruct (outputs st !! d) as [files|] eqn:Hd; simpl.
  - split_and!; [apply keeps_files_refl | | done].
    apply elem_of_dom_2 in Hd. symmetry. apply subseteq_union_1_L.
    by apply singleton_subseteq_l.
  - split_and!; [| by rewrite dom_insert_L | done].
    intros q b. unfold read_output. simpl.
    destruct (decide (dirname q = d)) as [->|Hne].
    + by rewrite Hd.
    + by rewrite lookup_insert_ne.
Qed.

Lemma makedirs_temps d st : temps (makedirs d st) = temps st.
Proof. apply makedirs_keeps. Qed.

Lemma process_walk_frame INPUT_ROOT wii_root ps2_root walk :
  ∀ st,
    let o := process_walk cfg env mappings INPUT_ROOT wii_root ps2_root walk st in
    keeps_files st (final o)
    ∧ dom (outputs st) ⊆ dom (outputs (final o))
    ∧ (∀ st', o = Next st' →
         ∀ rel, rel ∈ walk.*1 →
           mirror wii_root rel ∈ dom (outputs st') ∧ mirror ps2_root rel ∈ dom (outputs st'))
    ∧ temps st ⊆ temps (final o)
    ∧ size (temps (final o)) ≤ S (size (temps st))
    ∧ ∀ st', o = Next st' → temps st' = temps st.
Proof.
  induction walk as [|[rel files] walk IH]; intros st; simpl.
  - split_and!; [apply keeps_files_refl | done | | done | lia |].
    + intros st' _ rel Hin. by apply elem_of_nil in Hin.
    + by intros st' [= <-].
  - fold (mirror wii_root rel) (mirror ps2_root rel).
    set (dirpath := if String.eqb rel "." then _ else _).
    set (rel_dir := if String.eqb rel "." then _ else _).
    pose proof (makedirs_keeps (mirror wii_root rel) st) as (Hk1 & Hd1 & Ht1).
    set (st1 := makedirs (mirror wii_root rel) st) in *.
    pose proof (makedirs_keeps (mirror ps2_root rel) st1) as (Hk2 & Hd2 & Ht2).
    set (st2 := makedirs (mirror ps2_root rel) st1) in *.
    pose proof (process_files_frame dirpath rel_dir (mirror wii_root rel)
                  (mirror ps2_root rel) files st2) as (Hk3 & Hd3 & Hs3 & Hz3 & Hn3).
    simpl in Hk3, Hd3, Hs3, Hz3, Hn3.
    destruct (process_files _ _ _ _ _ _ _ _ _) as [st3|e st3]; simpl in *.
    + specialize (IH st3). simpl in IH.
      destruct IH as (Hk4 & Hd4 & Hm4 & Hs4 & Hz4 & Hn4).
      rewrite (Hn3 st3 eq_refl), Ht2, Ht1 in *.
      split_and!; [| | | done | done | done].
      * eapply keeps_files_trans; [exact Hk1|].
        eapply keeps_files_trans; [exact Hk2|].
        eapply keeps_files_trans; [exact Hk3 | exact Hk4].
      * etrans; [|exact Hd4]. rewrite Hd3, Hd2, Hd1.
        intros d Hd. rewrite !elem_of_union. auto.
      * intros st' Hrun rel' [->|Hin]%elem_of_cons.
        -- assert (dom (outputs st3) ⊆ dom (outputs st')) as Hsub.
           { rewrite Hrun in Hd4. exact Hd4. }
           rewrite Hd3, Hd2, Hd1 in Hsub.
           split; apply Hsub; rewrite !elem_of_union, !elem_of_singleton; auto.
        -- by apply Hm4.
    + rewrite Ht2, Ht1 in *.
      split_and!; [| | done | done | done | done].
      * eapply keeps_files_trans; [exact Hk1|].
        eapply keeps_files_trans; [exact Hk2 | exact Hk3].
      * rewrite Hd3, Hd2, Hd1. intros d Hd. rewrite !elem_of_union. auto.
Qed.

End keep_runs.

(** X1.  Within a run, nothing that is in the output tree is overwritten or
    removed: however the walk over the input tree ends, every file the
    output tree held before it is still there with the same bytes, and so is
    every directory. *)
Theorem walk_keeps_outputs (cfg : config) (env : environment) (mappings : gmap string string)
    (INPUT_ROOT wii_root ps2_root : string) (walk : list (string * list (string * bytes)))
    (st : state) :
  let st' := final (process_walk cfg env mappings INPUT_ROOT wii_root ps2_root walk st) in
  (∀ q b, read_output q st = Some b → read_output q st' = Some b)
  ∧ ∀ d, is_Some (outputs st !! d) → is_Some (outputs st' !! d).
Proof.
  pose proof (process_walk_frame cfg env mappings INPUT_ROOT wii_root ps2_root walk st)
    as (Hkeep & Hdom & _).
  split; [exact Hkeep|].
  intros d Hd%elem_of_dom. apply elem_of_dom. by apply Hdom.
Qed.

(** X2.  Every directory of the walk has its two mirrors when the walk is
    over, whether it holds a PNG or not: the mirrors are made before the
    files are looked at, and nothing removes a directory afterwards. *)
Theorem walk_mirrors_directories (cfg : config) (env : environment)
    (mappings : gmap string string) (INPUT_ROOT wii_root ps2_root : string)
    (walk : list (string * list (string * bytes))) (st st' : state) :
  process_walk cfg env mappings INPUT_ROOT wii_root ps2_root walk st = Next st' →
  ∀ rel files, (rel, files) ∈ walk →
    is_Some (outputs st' !! mirror wii_root rel)
    ∧ is_Some (outputs st' !! mirror ps2_root rel).
Proof.
  intros Hrun rel files Hin.
  pose proof (process_walk_frame cfg env mappings INPUT_ROOT wii_root ps2_root walk st)
    as (_ & _ & Hm & _).
  destruct (Hm st' Hrun rel) as [Hw Hp].
  { apply list_elem_of_fmap. by exists (rel, files). }
  split; by apply elem_of_dom.
Qed.

Lemma walk_mirrors_directories_witness :
  let walk := [(".", [("rock.png", demo.rock)]); ("tex", [("readme.txt", [])])] in
  let o := process_walk demo.opaque_off demo.env ∅ "in" "out/Wii" "out/PS2" walk
             (State ∅ ∅ [] 0 0) in
  o = Next (final o)
  ∧ ("tex", [("readme.txt", [])]) ∈ walk
  ∧ is_Some (outputs (final o) !! "out/Wii/tex")
  ∧ is_Some (outputs (final o) !! "out/PS2/tex").
Proof.
  intros walk o.
  assert (o = Next (final o)) as Hrun by (vm_compute; reflexivity).
  assert (("tex", [("readme.txt", [])]) ∈ walk) as Hin
    by apply list_elem_of_further, list_elem_of_here.
  split_and!; [exact Hrun | exact Hin | |];
    apply (walk_mirrors_directories demo.opaque_off demo.env ∅ "in" "out/Wii" "out/PS2"
             walk (State ∅ ∅ [] 0 0) (final o) Hrun "tex" [("readme.txt", [])] Hin).
Defined.

(** X3.  The temporary area after a run.  Whatever was there is still there.
    A run that reaches its end leaves the area exactly as it found it; a run
    that an exception ends leaves at most one directory behind. *)
Theorem main_scratch (cfg : config) (env : environment) (BASE_DIR : string)
    (tool_folder : option (list string)) (mappings_file : option (list ini_line))
    (walk : list (string * list (string * bytes))) (st : state) :
  let o := main cfg env BASE_DIR tool_folder mappings_file walk st in
  temps st ⊆ temps (final o)
  ∧ size (temps (final o)) ≤ S (size (temps st))
  ∧ ∀ st', o = Next st' → temps st' = temps st.
Proof.
  unfold main.
  destruct (find_tool_exe _ _) as [e|tool_exe]; simpl.
  { split_and!; [done | lia | done]. }
  destruct (read_mappings mappings_file) as [e|mappings]; simpl.
  { split_and!; [done | lia | done]. }
  set (st0 := State _ _ _ 0 0).
  assert (temps st0 = temps st) as Ht.
  { unfold st0. simpl. by rewrite !makedirs_temps. }
  pose proof (process_walk_frame cfg env mappings
                (os_path.join_dir BASE_DIR "RemadeTextures")
                (os_path.join_dir (os_path.join_dir BASE_DIR "GeneratedTextures") "Wii")
                (os_path.join_dir (os_path.join_dir BASE_DIR "GeneratedTextures") "PS2")
                walk st0) as (_ & _ & _ & Hsub & Hsize & Hnext).
  cbv zeta in Hsub, Hsize, Hnext. rewrite Ht in Hsub, Hsize, Hnext.
  destruct (process_walk _ _ _ _ _ _ _ _) as [st1|e st1]; simpl in *.
  - split_and!; [done | done |]. intros st' [= <-]. simpl. by apply Hnext.
  - split_and!; [done | done | done].
Qed.

(** ** How a run ends *)

Section end_facts.

Variables (cfg : config) (env : environment) (mappings : gmap string string).

Implicit Types (st : state) (f : string * bytes).




End end_facts.



(** ** A file on which the splitter succeeds *)

Section success_facts.

Variables (cfg : config) (env : environment) (mappings : gmap string string).
Variables (dirpath rel_dir wii_sub ps2_sub : string).

Implicit Types (files flat : gmap string bytes) (produced : listing).

Lemma png_tiles_found_in_nil d produced :
  png_tiles (found_in d produced) = [] ↔ png_tiles produced = [].
Proof.
  pose proof (incoming_found_in cfg mappings "" d produced) as Heq.
  apply (f_equal length) in Heq. unfold incoming in Heq. rewrite !length_fmap in Heq.
  split; intros Hnil; rewrite Hnil in Heq; simpl in Heq.
  - by destruct (png_tiles produced).
  - by destruct (png_tiles (found_in d produced)).
Qed.

(** The store after the iteration for a PNG on which the splitter exits
    with status zero, leaving a well-formed tree. *)
Lemma process_file_success fname content st flat files produced :
  is_png fname = true →
  outputs st !! ps2_sub = Some flat →
  outputs st !! wii_sub = Some files →
  wii_sub ≠ ps2_sub →
  splitter env fname (filtered cfg env content) = Exited 0 produced →
  well_formed produced →
  let c := filtered cfg env content in
  let n1 := free_name flat fname in
  let key := Str.lower (os_path.splitext fname).1 in
  let placed := place files (incoming cfg mappings key (png_tiles produced)) in
  let r := renamed env mappings ps2_sub key n1 c (<[n1 := c]> flat) in
  process_file cfg env mappings dirpath rel_dir wii_sub ps2_sub fname content st
  = Next (State (<[ps2_sub := r.1.2]> (<[wii_sub := placed.1]> (outputs st)))
                (temps st)
                (stdout st
                   ++ filter_warning cfg env
                        (os_path.join (mkdtemp "dte_src_" st).1 fname) content
                   ++ (if decide (png_tiles produced = [])
                       then [WarnNoPngs (os_path.join dirpath fname)] else [])
                   ++ r.2 ++ [Processed rel_dir fname r.1.1 placed.2])
                (S (processed st)) (skipped st)).
Proof.
  intros Hpng Hdir Hwii Hne Hsplit Hwf c n1 key placed r.
  pose proof (process_file_png cfg env mappings dirpath rel_dir wii_sub ps2_sub
                fname content st flat Hpng Hdir) as Hrun.
  cbv zeta in Hrun. rewrite Hsplit, Z.eqb_refl in Hrun.
  set (st2 := flat_copied cfg env ps2_sub fname content flat st) in *.
  set (d2 := (mkdtemp "dte_out_" st2).1) in *.
  set (st3 := set_temps _ st2) in *.
  fold key n1 in Hrun.
  destruct (move_tiles_exact cfg mappings (os_path.join dirpath fname) wii_sub key d2 st3
              (found_in d2 produced) files) as (l' & ws & Hmove & Hws).
  { unfold st3. simpl. apply lookup_insert_eq. }
  { by apply found_in_well_formed. }
  { unfold st3, st2, flat_copied. simpl. by rewrite lookup_insert_ne. }
  rewrite incoming_found_in in Hmove. fold placed in Hmove.
  assert (ws = if decide (png_tiles produced = [])
               then [WarnNoPngs (os_path.join dirpath fname)] else []) as Hws'.
  { rewrite Hws. destruct (decide (png_tiles produced = [])) as [Hnil|Hsome].
    - apply decide_True. by apply png_tiles_found_in_nil.
    - apply decide_False. by rewrite png_tiles_found_in_nil. }
  clear Hws. subst ws.
  unfold place_outputs in Hrun. rewrite Hmove in Hrun.
  rewrite (rename_ps2_spec env mappings ps2_sub key n1 c (<[n1 := c]> flat)) in Hrun; cycle 1.
  { unfold rmtree, st3, st2, flat_copied. simpl.
    rewrite lookup_insert_ne by done. apply lookup_insert_eq. }
  { apply lookup_insert_eq. }
  fold r in Hrun. clearbody r. destruct r as [[n' flat'] wr]. simpl in Hrun |- *.
  destruct (process_file_next cfg env mappings dirpath rel_dir wii_sub ps2_sub
              fname content st _ Hpng Hrun) as (Htemps & _).
  rewrite Hrun. f_equal.
  unfold rmtree, print, incr_processed, set_temps in Htemps |- *. simpl in Htemps |- *.
  f_equal.
  - rewrite (insert_insert_ne _ wii_sub ps2_sub) by done.
    by rewrite insert_insert_eq.
  - exact Htemps.
  - by rewrite <-!(assoc_L (++)).
Qed.


(** Names that are free and distinct are taken as they are. *)
Lemma place_free incoming :
  ∀ files,
    NoDup incoming.*1 →
    Forall (λ n, files !! n = None) incoming.*1 →
    place files incoming = (list_to_map incoming ∪ files, incoming.*1).
Proof.
  induction incoming as [|[name b] rest IH]; intros files Hnodup Hfree.
  - simpl. by rewrite (left_id_L ∅ (∪)).
  - simpl in Hnodup, Hfree.
    apply NoDup_cons in Hnodup as [Hnotin Hnodup].
    apply Forall_cons in Hfree as [Hname Hfree].
    rewrite place_cons, (free_name_id files name Hname), IH; [| done |].
    + simpl. f_equal.
      rewrite <-insert_union_r, insert_union_l; [done|].
      by apply not_elem_of_list_to_map_1.
    + rewrite Forall_forall in Hfree |- *. intros n Hn.
      rewrite lookup_insert_ne; [by apply Hfree|]. by intros ->.
Qed.


End success_facts.

(** Regrouping what was printed. *)
Lemma app_mid2 {A} (a b c e : list A) : a ++ b ++ c ++ e = a ++ (b ++ c) ++ e.
Proof. by rewrite <-!(assoc_L (++)). Qed.

Lemma app_mid3 {A} (a b c d e : list A) :
  a ++ b ++ c ++ d ++ e = a ++ (b ++ c ++ d) ++ e.
Proof. by rewrite <-!(assoc_L (++)). Qed.

Lemma app_front3 {A} (a b c e : list A) : a ++ b ++ c ++ e = (a ++ b ++ c) ++ e.
Proof. by rewrite <-!(assoc_L (++)). Qed.


(** * Names, paths and the claims that depend on them *)

(** ** Plain names *)

Section plain_facts.








Lemma rfind_app (c : ascii) (s1 s2 : string) :
  Str.rfind c (s1 +:+ s2)
  = match Str.rfind c s2 with
    | Some i => Some (String.length s1 + i)
    | None => Str.rfind c s1
    end.
Proof.
  induction s1 as [|a s1 IH].
  { rewrite str_app_nil_l. simpl. by destruct (Str.rfind c s2). }
  rewrite str_app_cons. simpl. rewrite IH.
  by destruct (Str.rfind c s2).
Qed.

Lemma take_app_length (s1 s2 : string) : Str.take (String.length s1) (s1 +:+ s2) = s1.
Proof.
  induction s1 as [|a s1 IH]; [rewrite str_app_nil_l; by destruct s2|].
  rewrite str_app_cons. simpl. by rewrite IH.
Qed.




Lemma all_sep_last (s : string) (c : ascii) :
  c ≠ "/"%char → all_sep ((s +:+ String c "") +:+ "/") = false.
Proof.
  intros Hc. induction s as [|a s IH].
  - rewrite str_app_nil_l. simpl. by destruct (Ascii.eqb_spec c "/").
  - rewrite !str_app_cons. simpl. by rewrite IH, andb_false_r.
Qed.






(** ** Directories and their entries *)






End plain_facts.

(** ** The path [unique_dest] returns (C2) *)



(** C2 as stated fails for a desired name that is not a plain file
    name, such as a mapped name made from a mapping value with a separator.
    [os.path.join] drops the directory before an absolute name and keeps
    the dots of a relative one, so the path [unique_dest] returns for
    [/abs/rock.png] or [../rock.png] in the directory [out/PS2] has the
    parent [/abs] or [out/PS2/..], not [out/PS2]. *)
Lemma unique_dest_parent_counterexample :
  let st := State {[ "out/PS2" := ∅ ]} ∅ [] 0 0 in
  outputs st !! "out/PS2" = Some ∅
  ∧ full_path (unique_dest (outputs st) "out/PS2" "/abs/rock.png") = "/abs/rock.png"
  ∧ posix_dirname (full_path (unique_dest (outputs st) "out/PS2" "/abs/rock.png")) = "/abs"
  ∧ full_path (unique_dest (outputs st) "out/PS2" "../rock.png") = "out/PS2/../rock.png"
  ∧ posix_dirname (full_path (unique_dest (outputs st) "out/PS2" "../rock.png"))
    = "out/PS2/.."
  ∧ "/abs" ≠ "out/PS2"
  ∧ "out/PS2/.." ≠ "out/PS2".
Proof. vm_compute. split_and!; (reflexivity || discriminate). Qed.

(** ** The flat copy (C1) *)

Section flat_name_facts.


End flat_name_facts.






(** X6.  A splitter that succeeds without leaving a PNG. The file still
    counts as processed: its flat copy is kept, the Wii directory stays as
    it was, the warning about the missing PNGs is printed, and the
    [Processed] line lists no tile. *)
Theorem no_tiles_still_processed (cfg : config) (env : environment)
    (mappings : gmap string string) (dirpath rel_dir wii_sub ps2_sub fname : string)
    (content : bytes) (st : state) (flat files : gmap string bytes) (produced : listing) :
  is_png fname = true →
  outputs st !! ps2_sub = Some flat →
  outputs st !! wii_sub = Some files →
  wii_sub ≠ ps2_sub →
  splitter env fname (filtered cfg env content) = Exited 0 produced →
  well_formed produced →
  png_tiles produced = [] →
  ∃ st' printed ps2_name,
    process_file cfg env mappings dirpath rel_dir wii_sub ps2_sub fname content st = Next st'
    ∧ outputs st' !! wii_sub = Some files
    ∧ read_output (os_path.join ps2_sub ps2_name) st' = Some (filtered cfg env content)
    ∧ processed st' = S (processed st)
    ∧ WarnNoPngs (os_path.join dirpath fname) ∈ printed
    ∧ stdout st' = stdout st ++ printed ++ [Processed rel_dir fname ps2_name []].
Proof.
  intros Hpng Hdir Hwii Hne Hsplit Hwf Hnil.
  pose proof (process_file_success cfg env mappings dirpath rel_dir wii_sub ps2_sub
                fname content st flat files produced Hpng Hdir Hwii Hne Hsplit Hwf) as Hrun.
  cbv zeta in Hrun. rewrite Hnil in Hrun. simpl in Hrun.
  set (c := filtered cfg env content) in *.
  set (key := Str.lower (os_path.splitext fname).1) in *.
  set (n1 := free_name flat fname) in *.
  assert (let r := renamed env mappings ps2_sub key n1 c (<[n1 := c]> flat) in
          r.1.2 !! r.1.1 = Some c) as Hthere.
  { unfold renamed. destruct (mappings !! key) as [mapped_base|]; simpl.
    - destruct (replace_refused env _ _); simpl; by rewrite lookup_insert_eq.
    - by rewrite lookup_insert_eq. }
  eexists _, _, _. split; [exact Hrun|]. simpl.
  split_and!.
  5: exact (app_mid3 _ _ [_] _ _).
  - rewrite lookup_insert_ne by done. by rewrite lookup_insert_eq.
  - unfold read_output. simpl. by rewrite lookup_insert_eq.
  - done.
  - apply elem_of_app. right. apply elem_of_app. left. apply list_elem_of_here.
Qed.

Lemma no_tiles_still_processed_witness :
  let env := Environment (λ _ _, Exited 0 [("", [("notes.txt", [])])])
                         demo.decode demo.encode (λ _ _, false) in
  is_png "rock.png" = true
  ∧ png_tiles [("", [("notes.txt", [] : bytes)])] = []
  ∧ ∃ st' printed ps2_name,
      process_file demo.opaque_off env ∅ "in/tex" "tex" "out/Wii/tex" "out/PS2/tex"
        "rock.png" demo.rock demo.fresh = Next st'
      ∧ outputs st' !! "out/Wii/tex" = Some ∅
      ∧ processed st' = 1
      ∧ stdout st' = printed ++ [Processed "tex" "rock.png" ps2_name []].
Proof.
  intros env.
  assert (is_png "rock.png" = true) as H1 by reflexivity.
  assert (outputs demo.fresh !! "out/PS2/tex" = Some ∅) as H2 by reflexivity.
  assert (outputs demo.fresh !! "out/Wii/tex" = Some ∅) as H3 by reflexivity.
  assert ("out/Wii/tex" ≠ "out/PS2/tex") as H4 by discriminate.
  assert (splitter env "rock.png" (filtered demo.opaque_off env demo.rock)
          = Exited 0 [("", [("notes.txt", [])])]) as H5 by reflexivity.
  assert (well_formed [("", [("notes.txt", [] : bytes)])]) as H6.
  { split; [by_computation|]. repeat constructor; by_computation. }
  assert (png_tiles [("", [("notes.txt", [] : bytes)])] = []) as H7 by reflexivity.
  split_and!; [exact H1 | exact H7 |].
  destruct (no_tiles_still_processed demo.opaque_off env ∅ "in/tex" "tex"
              "out/Wii/tex" "out/PS2/tex" "rock.png" demo.rock demo.fresh ∅ ∅ _
              H1 H2 H3 H4 H5 H6 H7)
    as (st' & printed & ps2_name & Hrun & Hwii & _ & Hcount & _ & Hlog).
  exists st', printed, ps2_name.
  split_and!; [exact Hrun | exact Hwii | exact Hcount | exact Hlog].
Defined.

(** X7.  A rename that the operating system refuses.  The flat copy stays
    under the name it was written with, a warning names both paths, and the
    file is counted and reported under that first name. *)
Theorem refused_rename_keeps_first_name (cfg : config) (env : environment)
    (mappings : gmap string string) (dirpath rel_dir wii_sub ps2_sub fname : string)
    (content : bytes) (st : state) (flat files : gmap string bytes) (produced : listing)
    (mapped_base : string) :
  is_png fname = true →
  outputs st !! ps2_sub = Some flat →
  outputs st !! wii_sub = Some files →
  wii_sub ≠ ps2_sub →
  splitter env fname (filtered cfg env content) = Exited 0 produced →
  well_formed produced →
  mappings !! Str.lower (os_path.splitext fname).1 = Some mapped_base →
  let c := filtered cfg env content in
  let n1 := free_name flat fname in
  let n2 := free_name (<[n1 := c]> flat) (mapped_base +:+ ".png") in
  replace_refused env (os_path.join ps2_sub n1) (os_path.join ps2_sub n2) = true →
  ∃ st' printed moved_names,
    process_file cfg env mappings dirpath rel_dir wii_sub ps2_sub fname content st = Next st'
    ∧ outputs st' !! ps2_sub = Some (<[n1 := c]> flat)
    ∧ processed st' = S (processed st)
    ∧ stdout st'
      = stdout st ++ printed
          ++ [WarnRename (os_path.join ps2_sub n1) (os_path.join ps2_sub n2);
              Processed rel_dir fname n1 moved_names].
Proof.
  intros Hpng Hdir Hwii Hne Hsplit Hwf Hmap c n1 n2 Hrefused.
  pose proof (process_file_success cfg env mappings dirpath rel_dir wii_sub ps2_sub
                fname content st flat files produced Hpng Hdir Hwii Hne Hsplit Hwf) as Hrun.
  cbv zeta in Hrun. fold c n1 in Hrun.
  unfold renamed in Hrun. rewrite Hmap in Hrun. fold n2 in Hrun.
  rewrite Hrefused in Hrun. simpl in Hrun.
  eexists _, _, _. split; [exact Hrun|]. simpl.
  split_and!; [by rewrite lookup_insert_eq | done |].
  apply app_mid2.
Qed.

Lemma refused_rename_keeps_first_name_witness :
  let env := Environment demo.split demo.decode demo.encode (λ _ _, true) in
  let mappings : gmap string string := {[ "rock" := "boulder" ]} in
  mappings !! Str.lower (os_path.splitext "rock.png").1 = Some "boulder"
  ∧ replace_refused env (os_path.join "out/PS2/tex" "rock.png")
      (os_path.join "out/PS2/tex" "boulder.png") = true
  ∧ ∃ st' printed moved_names,
      process_file demo.opaque_off env mappings "in/tex" "tex" "out/Wii/tex" "out/PS2/tex"
        "rock.png" demo.rock demo.fresh = Next st'
      ∧ outputs st' !! "out/PS2/tex" = Some {[ "rock.png" := demo.rock ]}
      ∧ stdout st'
        = stdout demo.fresh ++ printed
            ++ [WarnRename (os_path.join "out/PS2/tex" "rock.png")
                           (os_path.join "out/PS2/tex" "boulder.png");
                Processed "tex" "rock.png" "rock.png" moved_names].
Proof.
  intros env mappings.
  assert (is_png "rock.png" = true) as H1 by reflexivity.
  assert (outputs demo.fresh !! "out/PS2/tex" = Some ∅) as H2 by reflexivity.
  assert (outputs demo.fresh !! "out/Wii/tex" = Some ∅) as H3 by reflexivity.
  assert ("out/Wii/tex" ≠ "out/PS2/tex") as H4 by discriminate.
  assert (splitter env "rock.png" (filtered demo.opaque_off env demo.rock)
          = Exited 0 [("", [("rock_0.png", [x40]); ("rock_1.PNG", [xff; x07]);
                            ("notes.txt", [])])]) as H5 by reflexivity.
  assert (well_formed [("", [("rock_0.png", [x40]); ("rock_1.PNG", [xff; x07]);
                             ("notes.txt", [] : bytes)])]) as H6.
  { split; [by_computation|]. repeat constructor; by_computation. }
  assert (mappings !! Str.lower (os_path.splitext "rock.png").1 = Some "boulder") as H7
    by reflexivity.
  assert (replace_refused env (os_path.join "out/PS2/tex" "rock.png")
            (os_path.join "out/PS2/tex" "boulder.png") = true) as H8 by reflexivity.
  split_and!; [exact H7 | exact H8 |].
  destruct (refused_rename_keeps_first_name demo.opaque_off env mappings "in/tex" "tex"
              "out/Wii/tex" "out/PS2/tex" "rock.png" demo.rock demo.fresh ∅ ∅ _ "boulder"
              H1 H2 H3 H4 H5 H6 H7 H8)
    as (st' & printed & moved_names & Hrun & Hflat & _ & Hlog).
  exists st', printed, moved_names.
  split_and!; [exact Hrun | exact Hflat | exact Hlog].
Defined.

(** X8.  When nothing collides nothing is renamed.  A PNG without mapping
    entry whose name is free in the flat directory, and whose tiles have
    pairwise distinct names that are free in the Wii directory, adds exactly
    these files under exactly these names. *)
Theorem free_names_are_kept (cfg : config) (env : environment)
    (mappings : gmap string string) (dirpath rel_dir wii_sub ps2_sub fname : string)
    (content : bytes) (st : state) (flat files : gmap string bytes) (produced : listing) :
  is_png fname = true →
  outputs st !! ps2_sub = Some flat →
  outputs st !! wii_sub = Some files →
  wii_sub ≠ ps2_sub →
  splitter env fname (filtered cfg env content) = Exited 0 produced →
  well_formed produced →
  mappings !! Str.lower (os_path.splitext fname).1 = None →
  flat !! fname = None →
  let tiles := (λ t : path * bytes, (basename t.1, t.2)) <$> png_tiles produced in
  NoDup tiles.*1 →
  Forall (λ n, files !! n = None) tiles.*1 →
  ∃ st',
    process_file cfg env mappings dirpath rel_dir wii_sub ps2_sub fname content st = Next st'
    ∧ outputs st'
      = <[ps2_sub := <[fname := filtered cfg env content]> flat]>
          (<[wii_sub := list_to_map tiles ∪ files]> (outputs st)).
Proof.
  intros Hpng Hdir Hwii Hne Hsplit Hwf Hmap Hfree tiles Hnodup Hnew.
  pose proof (process_file_success cfg env mappings dirpath rel_dir wii_sub ps2_sub
                fname content st flat files produced Hpng Hdir Hwii Hne Hsplit Hwf) as Hrun.
  cbv zeta in Hrun.
  unfold renamed in Hrun. rewrite Hmap in Hrun. simpl in Hrun.
  rewrite (free_name_id flat fname Hfree) in Hrun.
  assert (incoming cfg mappings (Str.lower (os_path.splitext fname).1) (png_tiles produced)
          = tiles) as Hasked.
  { unfold incoming, tiles, tile_name. rewrite Hmap.
    apply list_fmap_ext. intros i t _. by destruct (APPLY_MAPPING_TO_WII cfg). }
  rewrite Hasked, (place_free tiles files Hnodup Hnew) in Hrun. simpl in Hrun.
  eexists. split; [exact Hrun|]. done.
Qed.

Lemma free_names_are_kept_witness :
  let produced := [("", [("rock_0.png", [x40]); ("rock_1.PNG", [xff; x07]); ("notes.txt", [])])] in
  let tiles := (λ t : path * bytes, (basename t.1, t.2)) <$> png_tiles produced in
  NoDup tiles.*1
  ∧ Forall (λ n, (∅ : gmap string bytes) !! n = None) tiles.*1
  ∧ ∃ st',
      process_file demo.opaque_off demo.env ∅ "in/tex" "tex" "out/Wii/tex" "out/PS2/tex"
        "rock.png" demo.rock demo.fresh = Next st'
      ∧ outputs st'
        = {[ "out/PS2/tex" := {[ "rock.png" := demo.rock ]};
             "out/Wii/tex" := {[ "rock_0.png" := [x40]; "rock_1.PNG" := [xff; x07] ]} ]}.
Proof.
  intros produced tiles.
  assert (is_png "rock.png" = true) as H1 by reflexivity.
  assert (outputs demo.fresh !! "out/PS2/tex" = Some ∅) as H2 by reflexivity.
  assert (outputs demo.fresh !! "out/Wii/tex" = Some ∅) as H3 by reflexivity.
  assert ("out/Wii/tex" ≠ "out/PS2/tex") as H4 by discriminate.
  assert (splitter demo.env "rock.png" (filtered demo.opaque_off demo.env demo.rock)
          = Exited 0 produced) as H5 by reflexivity.
  assert (well_formed produced) as H6.
  { split; [by_computation|]. repeat constructor; by_computation. }
  assert ((∅ : gmap string string) !! Str.lower (os_path.splitext "rock.png").1 = None) as H7
    by reflexivity.
  assert ((∅ : gmap string bytes) !! "rock.png" = None) as H8 by reflexivity.
  assert (NoDup tiles.*1) as H9 by by_computation.
  assert (Forall (λ n, (∅ : gmap string bytes) !! n = None) tiles.*1) as H10
    by (repeat constructor).
  split_and!; [exact H9 | exact H10 |].
  destruct (free_names_are_kept demo.opaque_off demo.env ∅ "in/tex" "tex"
              "out/Wii/tex" "out/PS2/tex" "rock.png" demo.rock demo.fresh ∅ ∅ produced
              H1 H2 H3 H4 H5 H6 H7 H8 H9 H10) as (st' & Hrun & Hout).
  exists st'. split; [exact Hrun|].
  rewrite Hout. vm_compute. reflexivity.
Defined.



(** ** Finding the tool *)

Section tool_facts.

Lemma filter_head {A} (P : A → Prop) `{!∀ x, Decision (P x)} (l : list A) x rest :
  filter P l = x :: rest →
  ∃ before after, l = before ++ x :: after ∧ Forall (λ y, ¬ P y) before ∧ P x.
Proof.
  induction l as [|y l IH]; [done|].
  rewrite filter_cons. destruct (decide (P y)) as [Hy|Hy].
  - intros [= -> _]. by exists [], l.
  - intros (before & after & -> & Hbefore & Hx)%IH.
    exists (y :: before), after. split_and!; [done | by constructor | done].
Qed.

Lemma filter_none {A} (P : A → Prop) `{!∀ x, Decision (P x)} (l : list A) :
  filter P l = [] → Forall (λ y, ¬ P y) l.
Proof.
  induction l as [|y l IH]; [constructor|].
  rewrite filter_cons. destruct (decide (P y)); [done|].
  intros Hnil. constructor; [done | by apply IH].
Qed.

End tool_facts.

(** X10.  [find_tool_exe] fails exactly when the folder is missing or lists
    no name ending in [.exe], whatever the case of the letters, and then
    with [FileNotFoundError]. Otherwise it answers with an entry of the
    folder that is such a name: the first one that also starts with
    [dolphintextureextraction] if there is one, and the first one of all if
    there is none. *)
Theorem find_tool_exe_choice (folder : string) (entries : option (list string)) :
  match find_tool_exe folder entries with
  | inl e =>
      e = FileNotFoundError
      ∧ ∀ names, entries = Some names → Forall (λ f, is_exe f = false) names
  | inr tool_exe =>
      ∃ names before after,
        entries = Some names
        ∧ dirname tool_exe = folder
        ∧ names = before ++ basename tool_exe :: after
        ∧ is_exe (basename tool_exe) = true
        ∧ Forall (λ f, is_exe f && is_named_tool f = false) before
        ∧ (is_named_tool (basename tool_exe) = true
           ∨ Forall (λ f, is_exe f = false) before
             ∧ Forall (λ f, is_exe f && is_named_tool f = false) after)
  end.
Proof.
  unfold find_tool_exe. destruct entries as [names|]; [|simpl; by split].
  cbv zeta.
  change (λ f, Str.endswith (Str.lower f) ".exe" = true) with (λ f, is_exe f = true).
  change (λ e, Str.startswith (Str.lower e) "dolphintextureextraction" = true)
    with (λ e, is_named_tool e = true).
  rewrite list_filter_filter.
  destruct (filter (λ f, is_exe f = true) names) as [|first exes] eqn:Hexes.
  { split; [done|]. intros ? [= <-]. apply filter_none in Hexes.
    eapply Forall_impl; [exact Hexes|]. intros f Hf. by apply not_true_is_false. }
  destruct (filter (λ x, is_named_tool x = true ∧ is_exe x = true) names)
    as [|e rest] eqn:Hnamed.
  - apply filter_head in Hexes as (before & after & -> & Hbefore & Hfirst).
    apply filter_none in Hnamed.
    assert (Forall (λ f, is_exe f && is_named_tool f = false) (before ++ first :: after))
      as [Hb [_ Ha]%Forall_cons]%Forall_app.
    { eapply Forall_impl; [exact Hnamed|]. intros f Hf. simpl in Hf.
      destruct (is_exe f), (is_named_tool f); simpl; try done. by destruct Hf. }
    exists (before ++ first :: after), before, after. simpl.
    split_and!; [done | done | done | done | done |].
    right. split; [|done].
    eapply Forall_impl; [exact Hbefore|]. intros f Hf. by apply not_true_is_false.
  - apply filter_head in Hnamed as (before & after & -> & Hbefore & [Hnamed He]).
    exists (before ++ e :: after), before, after. simpl.
    split_and!; [done | done | done | done | | by left].
    eapply Forall_impl; [exact Hbefore|]. intros f Hf. simpl in Hf.
    destruct (is_exe f), (is_named_tool f); simpl; try done. by destruct Hf.
Qed.

(** ** The output tree at the start of a run *)

Section root_facts.

Lemma str_app_last (s1 s2 : string) (c1 c2 : ascii) :
  s1 +:+ String c1 "" = s2 +:+ String c2 "" → c1 = c2.
Proof.
  revert s2. induction s1 as [|a s1 IH]; intros [|b s2] Heq.
  - by injection Heq.
  - apply (f_equal String.length) in Heq.
    rewrite str_app_cons in Heq. simpl in Heq. rewrite str_length_app in Heq.
    simpl in Heq. lia.
  - apply (f_equal String.length) in Heq.
    rewrite str_app_cons in Heq. simpl in Heq. rewrite str_length_app in Heq.
    simpl in Heq. lia.
  - rewrite !str_app_cons in Heq. injection Heq as _ Heq. by apply IH in Heq.
Qed.

Lemma endswith_last (s : string) (c : ascii) :
  c ≠ "/"%char → Str.endswith (s +:+ String c "") "/" = false.
Proof.
  intros Hc. apply not_true_is_false. intros [front Heq]%endswith_suffix.
  apply str_app_last in Heq. done.
Qed.

Lemma str_app_neq_l (a s : string) : s ≠ "" → a +:+ s ≠ a.
Proof.
  intros Hs Heq. apply (f_equal String.length) in Heq.
  rewrite str_length_app in Heq. destruct s; [done|]. simpl in Heq. lia.
Qed.

(** The two roots are different directories, neither of them the output
    root, and neither ends in a separator. *)
Lemma roots_distinct (root : string) :
  let w := os_path.join_dir root "Wii" in
  let p := os_path.join_dir root "PS2" in
  w ≠ p ∧ w ≠ root ∧ p ≠ root
  ∧ ∃ sep, w = (root +:+ sep +:+ "Wi") +:+ "i" ∧ p = (root +:+ sep +:+ "PS") +:+ "2".
Proof.
  unfold os_path.join_dir. simpl.
  destruct (_ || _).
  - split_and!.
    + by intros [=]%(inj (String.append _)).
    + by apply str_app_neq_l.
    + by apply str_app_neq_l.
    + exists "". by rewrite !str_app_assoc.
  - split_and!.
    + by intros [=]%(inj (String.append _)).
    + by apply str_app_neq_l.
    + by apply str_app_neq_l.
    + exists "/". by rewrite !str_app_assoc.
Qed.

(** Joining a relative path to a directory that does not end in a
    separator. *)
Lemma join_dir_sub (a : string) (c : ascii) (rel : string) :
  c ≠ "/"%char →
  Str.startswith rel "/" = false →
  os_path.join_dir (a +:+ String c "") rel = (a +:+ String c "") +:+ "/" +:+ rel.
Proof.
  intros Hc Hrel. unfold os_path.join_dir.
  rewrite Hrel, endswith_last by done.
  assert (String.eqb (a +:+ String c "") "" = false) as ->.
  { apply String.eqb_neq. by destruct a. }
  done.
Qed.

Lemma makedirs_new d st :
  outputs st !! d = None → makedirs d st = set_outputs (<[d := ∅]> (outputs st)) st.
Proof. intros Hd. unfold makedirs. by rewrite Hd. Qed.

End root_facts.

(** X11.  [ensure_clean_output] leaves an output tree that consists of three
    empty directories, the root and its two mirrors, which are pairwise
    different; whatever the tree held before is gone.  The temporary area
    and the log are not touched. *)
Theorem ensure_clean_output_resets (root : string) (st : state) :
  let r := ensure_clean_output root st in
  let w := os_path.join_dir root "Wii" in
  let p := os_path.join_dir root "PS2" in
  r.1 = (w, p)
  ∧ w ≠ p ∧ w ≠ root ∧ p ≠ root
  ∧ outputs r.2 = {[ root := ∅; w := ∅; p := ∅ ]}
  ∧ (∀ q, read_output q r.2 = None)
  ∧ temps r.2 = temps st ∧ stdout r.2 = stdout st.
Proof.
  intros r w p.
  destruct (roots_distinct root) as (Hwp & Hw & Hp & _). fold w p in Hwp, Hw, Hp.
  assert (outputs r.2 = <[p := ∅]> (<[w := ∅]> (<[root := ∅]> ∅))
          ∧ temps r.2 = temps st ∧ stdout r.2 = stdout st) as (Hout & Htmp & Hlog).
  { unfold r, ensure_clean_output. fold w p. simpl.
    rewrite (makedirs_new root) by apply lookup_empty. simpl.
    rewrite (makedirs_new w) by (simpl; by rewrite lookup_insert_ne).
    rewrite (makedirs_new p)
      by (simpl; rewrite !lookup_insert_ne by done; apply lookup_empty).
    done. }
  split_and!; [done | done | done | done | | | done | done].
  - rewrite Hout. apply map_eq. intros d.
    destruct (decide (d = p)) as [->|Hdp].
    { rewrite lookup_insert_eq, !lookup_insert_ne, lookup_singleton_eq by done. done. }
    rewrite (lookup_insert_ne _ p) by done.
    destruct (decide (d = w)) as [->|Hdw].
    { rewrite lookup_insert_eq, lookup_insert_ne, lookup_insert_eq by done. done. }
    rewrite (lookup_insert_ne _ w) by done.
    destruct (decide (d = root)) as [->|Hdr].
    { by rewrite !lookup_insert_eq. }
    rewrite !lookup_insert_ne by done. by rewrite lookup_singleton_ne.
  - intros q. unfold read_output. rewrite Hout.
    destruct (decide (dirname q = p)) as [->|Hdp]; [by rewrite lookup_insert_eq|].
    rewrite lookup_insert_ne by done.
    destruct (decide (dirname q = w)) as [->|Hdw]; [by rewrite lookup_insert_eq|].
    rewrite lookup_insert_ne by done.
    destruct (decide (dirname q = root)) as [->|Hdr]; [by rewrite lookup_insert_eq|].
    by rewrite lookup_insert_ne.
Qed.

(** X12.  In the loop of [main] the two mirrors of a directory are different
    directories, as long as the walk reports the directory by a relative
    path. *)
Theorem mirrors_are_distinct (OUTPUT_ROOT rel : string) :
  Str.startswith rel "/" = false →
  mirror (os_path.join_dir OUTPUT_ROOT "Wii") rel
  ≠ mirror (os_path.join_dir OUTPUT_ROOT "PS2") rel.
Proof.
  intros Hrel. unfold mirror.
  destruct (roots_distinct OUTPUT_ROOT) as (_ & _ & _ & sep & -> & ->).
  set (rel_dir := if String.eqb rel "." then "" else rel).
  assert (Str.startswith rel_dir "/" = false) as Hrel_dir.
  { unfold rel_dir. by destruct (String.eqb rel "."). }
  rewrite !join_dir_sub by done.
  rewrite !str_app_assoc.
  intros Heq%(inj (String.append _))%(inj (String.append _)).
  rewrite !str_app_cons in Heq. discriminate Heq.
Qed.

Lemma mirrors_are_distinct_witness :
  Str.startswith "tex/rocks" "/" = false
  ∧ mirror (os_path.join_dir "/repo/GeneratedTextures" "Wii") "tex/rocks"
    = "/repo/GeneratedTextures/Wii/tex/rocks"
  ∧ mirror (os_path.join_dir "/repo/GeneratedTextures" "Wii") "tex/rocks"
    ≠ mirror (os_path.join_dir "/repo/GeneratedTextures" "PS2") "tex/rocks".
Proof.
  assert (Str.startswith "tex/rocks" "/" = false) as H1 by reflexivity.
  split_and!; [exact H1 | reflexivity |].
  exact (mirrors_are_distinct "/repo/GeneratedTextures" "tex/rocks" H1).
Defined.

(** ** The start of a run *)

Section start_facts.

Lemma ensure_clean_output_state (root : string) (st : state) :
  (ensure_clean_output root st).2
  = State (<[os_path.join_dir root "PS2" := ∅]>
             (<[os_path.join_dir root "Wii" := ∅]> (<[root := ∅]> ∅)))
          (temps st) (stdout st) (processed st) (skipped st).
Proof.
  destruct (roots_distinct root) as (Hwp & Hw & Hp & _). cbv zeta in Hwp, Hw, Hp.
  unfold ensure_clean_output. simpl.
  rewrite (makedirs_new root) by apply lookup_empty. simpl.
  rewrite (makedirs_new (os_path.join_dir root "Wii"))
    by (simpl; by rewrite lookup_insert_ne).
  rewrite (makedirs_new (os_path.join_dir root "PS2"))
    by (simpl; rewrite !lookup_insert_ne by done; apply lookup_empty).
  done.
Qed.

End start_facts.

(** X13.  The output tree is wiped late.  When the tool is missing or the
    mapping file is rejected, the exception leaves [main] before anything is
    touched: the output tree of an earlier run is still there.  Once both
    are accepted, nothing of what the output tree held, and nothing of the
    two counters, has any influence on the run. *)
Theorem main_resets_outputs_late (cfg : config) (env : environment) (BASE_DIR : string)
    (tool_folder : option (list string)) (mappings_file : option (list ini_line))
    (walk : list (string * list (string * bytes))) (st : state) :
  let TOOL_FOLDER := os_path.join_dir BASE_DIR "DolphinTextureExtractionTool" in
  (∀ e, find_tool_exe TOOL_FOLDER tool_folder = inl e →
        main cfg env BASE_DIR tool_folder mappings_file walk st = Raise e st)
  ∧ (∀ tool_exe e,
       find_tool_exe TOOL_FOLDER tool_folder = inr tool_exe →
       read_mappings mappings_file = inl e →
       main cfg env BASE_DIR tool_folder mappings_file walk st = Raise e st)
  ∧ (∀ tool_exe mappings,
       find_tool_exe TOOL_FOLDER tool_folder = inr tool_exe →
       read_mappings mappings_file = inr mappings →
       ∀ st0, temps st0 = temps st → stdout st0 = stdout st →
         main cfg env BASE_DIR tool_folder mappings_file walk st0
         = main cfg env BASE_DIR tool_folder mappings_file walk st).
Proof.
  intros TOOL_FOLDER. unfold main. fold TOOL_FOLDER. split_and!.
  - by intros e ->.
  - by intros tool_exe e -> ->.
  - intros tool_exe mappings -> -> st0 Htmp Hlog.
    set (OUTPUT_ROOT := os_path.join_dir BASE_DIR "GeneratedTextures").
    pose proof (ensure_clean_output_state OUTPUT_ROOT st) as Hst.
    pose proof (ensure_clean_output_state OUTPUT_ROOT st0) as Hst0.
    unfold ensure_clean_output in Hst, Hst0 |- *. simpl in Hst, Hst0 |- *.
    rewrite Hst, Hst0. simpl. by rewrite Htmp, Hlog.
Qed.

Lemma main_resets_outputs_late_witness :
  let old := State {[ "/repo/GeneratedTextures/PS2/" := {[ "rock.png" := demo.rock ]} ]}
                   ∅ [] 7 3 in
  find_tool_exe (os_path.join_dir "/repo" "DolphinTextureExtractionTool") (Some ["readme.txt"])
  = inl FileNotFoundError
  ∧ main demo.opaque_off demo.env "/repo" (Some ["readme.txt"]) None [] old
    = Raise FileNotFoundError old
  ∧ main demo.opaque_off demo.env "/repo" (Some ["Tool.EXE"]) None [] old
    = main demo.opaque_off demo.env "/repo" (Some ["Tool.EXE"]) None [] (State ∅ ∅ [] 0 0).
Proof.
  intros old.
  assert (find_tool_exe (os_path.join_dir "/repo" "DolphinTextureExtractionTool")
            (Some ["readme.txt"]) = inl FileNotFoundError) as H1 by reflexivity.
  assert (find_tool_exe (os_path.join_dir "/repo" "DolphinTextureExtractionTool")
            (Some ["Tool.EXE"])
          = inr (os_path.join "/repo/DolphinTextureExtractionTool" "Tool.EXE")) as H2
    by reflexivity.
  assert (read_mappings None = inr ∅) as H3 by reflexivity.
  split_and!; [exact H1 | |].
  - exact (proj1 (main_resets_outputs_late demo.opaque_off demo.env "/repo"
                    (Some ["readme.txt"]) None [] old) FileNotFoundError H1).
  - exact (proj2 (proj2 (main_resets_outputs_late demo.opaque_off demo.env "/repo"
                           (Some ["Tool.EXE"]) None [] (State ∅ ∅ [] 0 0)))
             _ _ H2 H3 old eq_refl eq_refl).
Defined.

(** ** The opacity filter on its own *)

Section filter_facts.

Implicit Types (l : listing) (p q : path) (b : bytes).

Lemma listing_get_put l p b :
  is_Some (listing_get l p) → listing_get (listing_put l p b) p = Some b.
Proof.
  unfold listing_get, listing_put.
  destruct (assoc (dirname p) l) as [files|] eqn:Hdir; [|by intros [? ?]].
  intros Hname. rewrite assoc_set_eq by (by rewrite Hdir).
  by apply assoc_set_eq.
Qed.

Lemma listing_get_put_ne l p q b :
  q ≠ p → listing_get (listing_put l p b) q = listing_get l q.
Proof.
  intros Hne. unfold listing_get, listing_put.
  destruct (assoc (dirname p) l) as [files|] eqn:Hdir; [|done].
  destruct (decide (dirname p = dirname q)) as [Heq|Hdiff].
  - rewrite <-Heq, assoc_set_eq, Hdir by (by rewrite Hdir).
    apply assoc_set_ne. intros Hname. apply Hne.
    destruct p, q; simpl in *; congruence.
  - by rewrite assoc_set_ne.
Qed.

End filter_facts.

(** X14.  [apply_half_opacity] never raises and is confined to the file it
    is given.  With the switch off it does nothing.  Otherwise either the
    file ends up holding what [Image.save] wrote for the image with the
    alpha band halved, and nothing is printed, or one warning is printed;
    when the file cannot be read or opened the store is then exactly as it
    was.  The output tree, the other temporary directories and the other
    files of the directory are never touched. *)
Theorem apply_half_opacity_contained (cfg : config) (env : environment)
    (tmp : string) (p : path) (st : state) :
  let st' := apply_half_opacity cfg env tmp p st in
  (APPLY_OPACITY cfg = false → st' = st)
  ∧ (APPLY_OPACITY cfg = true →
       (∃ content im saved,
          temp_read tmp p st = Some content
          ∧ Image_open env content = Some im
          ∧ Image_save env (halved im) = Some saved
          ∧ temp_read tmp p st' = Some saved
          ∧ stdout st' = stdout st)
       ∨ stdout st' = stdout st ++ [WarnOpacity p])
  ∧ (APPLY_OPACITY cfg = true →
       default None (Image_open env <$> temp_read tmp p st) = None →
       st' = print (WarnOpacity p) st)
  ∧ outputs st' = outputs st
  ∧ processed st' = processed st ∧ skipped st' = skipped st
  ∧ (∀ k, k ≠ tmp → temps st' !! k = temps st !! k)
  ∧ (∀ q, q ≠ p → temp_read tmp q st' = temp_read tmp q st).
Proof.
  intros st'. unfold st', apply_half_opacity.
  destruct (APPLY_OPACITY cfg); simpl; [|by split_and!].
  destruct (temp_read tmp p st) as [content|] eqn:Hread;
    [|split_and!; try done; by right].
  simpl.
  destruct (Image_open env content) as [im|] eqn:Hopen;
    [|split_and!; try done; by right].
  change (Image_merge (map red im) (map green im) (map blue im)
            (Image_point (λ i, int (inject_Z i * (1 # 2))) (map alpha im)))
    with (halved im).
  destruct (Image_save env (halved im)) as [saved|] eqn:Hsave;
    [|split_and!; try done; by right].
  unfold temp_read in Hread |- *. unfold temp_write. simpl.
  destruct (temps st !! tmp) as [l|] eqn:Htmp; [|done].
  split_and!; try done.
  - intros _. left. exists content, im, saved. split_and!; try done.
    rewrite lookup_alter_eq, Htmp. simpl. apply listing_get_put. by rewrite Hread.
  - intros k Hk. by rewrite lookup_alter_ne.
  - intros q Hq. rewrite lookup_alter_eq, Htmp. simpl. by apply listing_get_put_ne.
Qed.

Lemma apply_half_opacity_contained_witness :
  let st := State ∅ {[ "/tmp/dte_src_" := [("/tmp/dte_src_", [("rock.png", demo.rock)])] ]}
                  [] 0 0 in
  let p := os_path.join "/tmp/dte_src_" "rock.png" in
  let broken := Environment demo.split (λ _, None) demo.encode (λ _ _, false) in
  APPLY_OPACITY demo.opaque_on = true
  ∧ default None (Image_open broken <$> temp_read "/tmp/dte_src_" p st) = None
  ∧ temp_read "/tmp/dte_src_" p (apply_half_opacity demo.opaque_on demo.env "/tmp/dte_src_" p st)
    = Some [x20; x7f; x03]
  ∧ apply_half_opacity demo.opaque_on broken "/tmp/dte_src_" p st = print (WarnOpacity p) st.
Proof.
  intros st p broken.
  assert (APPLY_OPACITY demo.opaque_on = true) as H1 by reflexivity.
  assert (default None (Image_open broken <$> temp_read "/tmp/dte_src_" p st) = None) as H2
    by reflexivity.
  split_and!; [exact H1 | exact H2 | |].
  - destruct (apply_half_opacity_contained demo.opaque_on demo.env "/tmp/dte_src_" p st)
      as (_ & Hon & _).
    destruct (Hon H1) as [(content & im & saved & Hread & Hopen & Hsave & Hres & _)|Hwarn].
    + rewrite Hres. f_equal.
      vm_compute in Hread. injection Hread as <-.
      vm_compute in Hopen. injection Hopen as <-.
      vm_compute in Hsave. injection Hsave as <-. reflexivity.
    + exfalso. vm_compute in Hwarn. discriminate Hwarn.
  - destruct (apply_half_opacity_contained demo.opaque_on broken "/tmp/dte_src_" p st)
      as (_ & _ & Hfail & _).
    exact (Hfail H1 H2).
Defined.

(** ** Names and letter case *)

Section case_facts.

Lemma lower_char_idem (c : ascii) : Str.lower_char (Str.lower_char c) = Str.lower_char c.
Proof. destruct c as [[] [] [] [] [] [] [] []]; vm_compute; reflexivity. Qed.

Lemma lower_char_dot (c : ascii) : Ascii.eqb (Str.lower_char c) "." = Ascii.eqb c ".".
Proof. destruct c as [[] [] [] [] [] [] [] []]; vm_compute; reflexivity. Qed.

Lemma lower_char_slash (c : ascii) : Ascii.eqb (Str.lower_char c) "/" = Ascii.eqb c "/".
Proof. destruct c as [[] [] [] [] [] [] [] []]; vm_compute; reflexivity. Qed.

Lemma lower_idem (s : string) : Str.lower (Str.lower s) = Str.lower s.
Proof. induction s as [|c s IH]; simpl; [done|]. by rewrite lower_char_idem, IH. Qed.








End case_facts.



(** X16.  Every key of the mapping that [read_mappings] returns is non-empty
    and in lower case, which is the form in which [main] looks a file up. *)
Theorem mapping_keys_lower_case (file : option (list ini_line)) (m : gmap string string)
    (key val : string) :
  read_mappings file = inr m →
  m !! key = Some val →
  key ≠ "" ∧ Str.lower key = key.
Proof.
  unfold read_mappings.
  destruct file as [lines|]; [|by intros [= <-]].
  destruct (ConfigParser_read lines) as [e|cfg]; [done|].
  destruct (contains cfg "Mappings"); [|by intros [= <-]].
  intros [= <-].
  generalize (items cfg "Mappings"). intros entries.
  assert (∀ (m0 : gmap string string),
            (∀ k v, m0 !! k = Some v → k ≠ "" ∧ Str.lower k = k) →
            ∀ k v,
              foldl (λ (m : gmap string string) kv,
                       let key := Str.lower (Str.strip kv.1) in
                       let val := Str.strip kv.2 in
                       let val := (os_path.splitext val).1 in
                       if negb (String.eqb key "") then <[key := val]> m else m)
                    m0 entries !! k = Some v →
              k ≠ "" ∧ Str.lower k = k) as Hinv.
  { induction entries as [|[k0 v0] entries IH]; intros m0 Hm0 k v; simpl; [apply Hm0|].
    apply IH. intros k' v'.
    destruct (String.eqb_spec (Str.lower (Str.strip k0)) "") as [Hempty|Hfull]; simpl;
      [apply Hm0|].
    destruct (decide (Str.lower (Str.strip k0) = k')) as [<-|Hne].
    - intros _. split; [done | apply lower_idem].
    - rewrite lookup_insert_ne by done. apply Hm0. }
  apply Hinv. intros k v. by rewrite lookup_empty.
Qed.

Lemma mapping_keys_lower_case_witness :
  let lines := [SectionLine "Mappings"; OptionLine "Rock" " boulder.png "] in
  read_mappings (Some lines) = inr {[ "rock" := "boulder" ]}
  ∧ ({[ "rock" := "boulder" ]} : gmap string string) !! "rock" = Some "boulder"
  ∧ Str.lower "rock" = "rock".
Proof.
  intros lines.
  assert (read_mappings (Some lines) = inr {[ "rock" := "boulder" ]}) as H1
    by (vm_compute; reflexivity).
  assert (({[ "rock" := "boulder" ]} : gmap string string) !! "rock" = Some "boulder") as H2
    by reflexivity.
  split_and!; [exact H1 | exact H2 |].
  exact (proj2 (mapping_keys_lower_case (Some lines) _ "rock" "boulder" H1 H2)).
Defined.

(** ** Renamed copies keep their extension *)

Section extension_facts.

Lemma drop_app_length (s1 s2 : string) : Str.drop (String.length s1) (s1 +:+ s2) = s2.
Proof. induction s1 as [|a s1 IH]; [done|]. rewrite str_app_cons. simpl. exact IH. Qed.

(** The four characters of a PNG extension: a dot and three characters
    that are neither dots nor separators. *)
Lemma png_extension (ext : string) :
  String.length ext = 4 → Str.lower ext = ".png" →
  Str.rfind "." ext = Some 0 ∧ Str.rfind "/" ext = None.
Proof.
  destruct ext as [|a [|b [|c [|d [|? ?]]]]]; try done. intros _. simpl.
  intros [= Ha Hb Hc Hd].
  pose proof (lower_char_dot a) as Ha1. pose proof (lower_char_slash a) as Ha2.
  pose proof (lower_char_dot b) as Hb1. pose proof (lower_char_slash b) as Hb2.
  pose proof (lower_char_dot c) as Hc1. pose proof (lower_char_slash c) as Hc2.
  pose proof (lower_char_dot d) as Hd1. pose proof (lower_char_slash d) as Hd2.
  rewrite Ha in Ha1, Ha2. rewrite Hb in Hb1, Hb2.
  rewrite Hc in Hc1, Hc2. rewrite Hd in Hd1, Hd2.
  simpl in *.
  by rewrite <-Ha1, <-Ha2, <-Hb1, <-Hb2, <-Hc1, <-Hc2, <-Hd1, <-Hd2.
Qed.

(** A PNG name either has its four last characters as extension or, when
    only dots precede them, no extension at all. *)
Lemma splitext_png (stem ext : string) :
  String.length ext = 4 → Str.lower ext = ".png" →
  os_path.splitext (stem +:+ ext) = (stem, ext)
  ∨ os_path.splitext (stem +:+ ext) = (stem +:+ ext, "").
Proof.
  intros Hlen Hlow. destruct (png_extension ext Hlen Hlow) as [Hdot Hslash].
  unfold os_path.splitext.
  rewrite !rfind_app, Hdot, Hslash, Nat.add_0_r.
  destruct (_ && _); [left | by right].
  by rewrite take_app_length, drop_app_length.
Qed.

End extension_facts.

(** X17.  A PNG stays a PNG when [unique_dest] has to rename it: if the name
    has an extension at all, every name of the sequence [stem_1.ext],
    [stem_2.ext], ... ends in that extension, and so does the name
    [unique_dest] returns. *)
Theorem unique_dest_keeps_png (fs : gmap string (gmap string bytes))
    (dest_dir filename : string) :
  is_png filename = true →
  (os_path.splitext filename).2 ≠ "" →
  (∀ k, is_png (candidate filename k) = true)
  ∧ is_png (basename (unique_dest fs dest_dir filename)) = true.
Proof.
  intros Hpng Hext.
  assert (∀ k, is_png (candidate filename k) = true) as Hall.
  { intros [|k]; [done|].
    apply is_png_suffix in Hpng as (stem & ext & -> & Hlen & Hlow).
    rewrite candidate_succ.
    destruct (splitext_png stem ext Hlen Hlow) as [Heq|Heq]; rewrite Heq in Hext |- *;
      [|done].
    simpl. apply is_png_suffix.
    exists (stem +:+ "_" +:+ pretty (S k)), ext.
    by rewrite !str_app_assoc. }
  split; [exact Hall|].
  destruct (unique_dest_spec fs dest_dir filename) as (n & -> & _). apply Hall.
Qed.

Lemma unique_dest_keeps_png_witness :
  let fs : gmap string (gmap string bytes) := {[ "out/PS2" := {[ "Rock.PNG" := [] ]} ]} in
  is_png "Rock.PNG" = true
  ∧ (os_path.splitext "Rock.PNG").2 ≠ ""
  ∧ unique_dest fs "out/PS2" "Rock.PNG" = os_path.join "out/PS2" "Rock_1.PNG"
  ∧ is_png (basename (unique_dest fs "out/PS2" "Rock.PNG")) = true.
Proof.
  intros fs.
  assert (is_png "Rock.PNG" = true) as H1 by reflexivity.
  assert ((os_path.splitext "Rock.PNG").2 ≠ "") as H2 by discriminate.
  split_and!; [exact H1 | exact H2 | vm_compute; reflexivity |].
  exact (proj2 (unique_dest_keeps_png fs "out/PS2" "Rock.PNG" H1 H2)).
Defined.

(** X18.  A mapping entry that maps a file to its own name.  The flat copy
    is written first, under the name of the file; the rename then finds that
    name taken, by the copy itself, and moves the copy on to the next name
    of the sequence.  So the file ends up as [stem_1.png] although nothing
    else had its name. *)
Theorem mapping_to_own_name_renames (cfg : config) (env : environment)
    (mappings : gmap string string) (dirpath rel_dir wii_sub ps2_sub fname : string)
    (content : bytes) (st : state) (flat files : gmap string bytes) (produced : listing)
    (mapped_base : string) :
  is_png fname = true →
  outputs st !! ps2_sub = Some flat →
  outputs st !! wii_sub = Some files →
  wii_sub ≠ ps2_sub →
  splitter env fname (filtered cfg env content) = Exited 0 produced →
  well_formed produced →
  mappings !! Str.lower (os_path.splitext fname).1 = Some mapped_base →
  mapped_base +:+ ".png" = fname →
  flat !! fname = None →
  flat !! candidate fname 1 = None →
  replace_refused env (os_path.join ps2_sub fname) (os_path.join ps2_sub (candidate fname 1))
  = false →
  ∃ st' printed moved_names,
    process_file cfg env mappings dirpath rel_dir wii_sub ps2_sub fname content st = Next st'
    ∧ outputs st' !! ps2_sub = Some (<[candidate fname 1 := filtered cfg env content]> flat)
    ∧ read_output (os_path.join ps2_sub fname) st' = None
    ∧ stdout st' = printed ++ [Processed rel_dir fname (candidate fname 1) moved_names].
Proof.
  intros Hpng Hdir Hwii Hne Hsplit Hwf Hmap Hsame Hfree Hfree1 Hallowed.
  pose proof (process_file_success cfg env mappings dirpath rel_dir wii_sub ps2_sub
                fname content st flat files produced Hpng Hdir Hwii Hne Hsplit Hwf) as Hrun.
  cbv zeta in Hrun.
  set (c := filtered cfg env content) in *.
  rewrite (free_name_id flat fname Hfree) in Hrun.
  assert (candidate fname 1 ≠ fname) as Hdiff.
  { intros Heq. by apply (candidate_inj fname 1 0) in Heq. }
  assert (free_name (<[fname := c]> flat) fname = candidate fname 1) as Hn2.
  { destruct (free_name_spec (<[fname := c]> flat) fname) as (n & -> & Hn & Hbelow).
    f_equal. destruct n as [|[|n]]; [|done|].
    - simpl in Hn. by rewrite lookup_insert_eq in Hn.
    - destruct (Hbelow 1) as [b Hb]; [lia|].
      rewrite lookup_insert_ne in Hb by done. congruence. }
  unfold renamed in Hrun. rewrite Hmap, Hsame, Hn2, Hallowed in Hrun.
  set (n2 := candidate fname 1) in *. simpl in Hrun.
  rewrite delete_insert_eq, delete_id in Hrun by done.
  eexists _, _, _. split; [exact Hrun|]. simpl.
  split_and!.
  - apply lookup_insert_eq.
  - unfold read_output. simpl. rewrite lookup_insert_eq.
    by rewrite lookup_insert_ne.
  - apply app_front3.
Qed.

Lemma mapping_to_own_name_renames_witness :
  let mappings : gmap string string := {[ "rock" := "rock" ]} in
  mappings !! Str.lower (os_path.splitext "rock.png").1 = Some "rock"
  ∧ "rock" +:+ ".png" = "rock.png"
  ∧ candidate "rock.png" 1 = "rock_1.png"
  ∧ ∃ st' printed moved_names,
      process_file demo.opaque_off demo.env mappings "in/tex" "tex" "out/Wii/tex"
        "out/PS2/tex" "rock.png" demo.rock demo.fresh = Next st'
      ∧ outputs st' !! "out/PS2/tex" = Some {[ "rock_1.png" := demo.rock ]}
      ∧ stdout st' = printed ++ [Processed "tex" "rock.png" "rock_1.png" moved_names].
Proof.
  intros mappings.
  assert (is_png "rock.png" = true) as H1 by reflexivity.
  assert (outputs demo.fresh !! "out/PS2/tex" = Some ∅) as H2 by reflexivity.
  assert (outputs demo.fresh !! "out/Wii/tex" = Some ∅) as H3 by reflexivity.
  assert ("out/Wii/tex" ≠ "out/PS2/tex") as H4 by discriminate.
  assert (splitter demo.env "rock.png" (filtered demo.opaque_off demo.env demo.rock)
          = Exited 0 [("", [("rock_0.png", [x40]); ("rock_1.PNG", [xff; x07]);
                            ("notes.txt", [])])]) as H5 by reflexivity.
  assert (well_formed [("", [("rock_0.png", [x40]); ("rock_1.PNG", [xff; x07]);
                             ("notes.txt", [] : bytes)])]) as H6.
  { split; [by_computation|]. repeat constructor; by_computation. }
  assert (mappings !! Str.lower (os_path.splitext "rock.png").1 = Some "rock") as H7
    by reflexivity.
  assert ("rock" +:+ ".png" = "rock.png") as H8 by reflexivity.
  assert ((∅ : gmap string bytes) !! "rock.png" = None) as H9 by reflexivity.
  assert ((∅ : gmap string bytes) !! candidate "rock.png" 1 = None) as H10 by reflexivity.
  assert (replace_refused demo.env (os_path.join "out/PS2/tex" "rock.png")
            (os_path.join "out/PS2/tex" (candidate "rock.png" 1)) = false) as H11
    by reflexivity.
  split_and!; [exact H7 | exact H8 | reflexivity |].
  destruct (mapping_to_own_name_renames demo.opaque_off demo.env mappings "in/tex" "tex"
              "out/Wii/tex" "out/PS2/tex" "rock.png" demo.rock demo.fresh ∅ ∅ _ "rock"
              H1 H2 H3 H4 H5 H6 H7 H8 H9 H10 H11)
    as (st' & printed & moved_names & Hrun & Hflat & _ & Hlog).
  exists st', printed, moved_names.
  split_and!; [exact Hrun | exact Hflat | exact Hlog].
Defined.

(** ** The [DEFAULT] section of the mapping file *)

Section default_facts.

Context {V : Type}.
Implicit Types (l : list (string * V)) (k : string).



End default_facts.

Section default_mapping.



End default_mapping.



(** ** The sizes of the mirrors *)

Section size_facts.

Variables (cfg : config) (env : environment) (mappings : gmap string string).

Implicit Types (st : state) (d : string).










End size_facts.

Section mirror_facts.





End mirror_facts.



